(** * RestrictedPython: the restricting AST transformer

    A shallow embedding of [src/RestrictedPython/transformer.py].

    The transformer is a subclass of Python's [ast.NodeTransformer].  It is
    generic over the node classes of the host grammar: it dispatches on the
    class name of a node ([visit_<ClassName>]), rejects every class it has no
    method for, and rewrites some of the classes it knows.  The embedding keeps
    that shape: a node is a class name, a source position and an ordered list
    of fields, exactly what [ast.iter_fields] sees. *)

From Stdlib Require Import String Ascii List ZArith Bool Lia DecimalString.
Import ListNotations.
Local Open Scope string_scope.
Local Open Scope Z_scope.

Set Implicit Arguments.

(** ** Syntax trees *)

(** A field of a node holds [None], a constant, a child node or a list.
    [lineno] and [col_offset] are [None] while the attribute is not set. *)
#[local] Unset Elimination Schemes.
Inductive node : Type :=
| Node (cls : string) (lineno col_offset : option Z)
       (fields : list (string * value))
with value : Type :=
| VNone
| VBool (b : bool)
| VInt (z : Z)
| VStr (s : string)
| VNode (n : node)
| VList (l : list value).
#[local] Set Elimination Schemes.

Coercion VNode : node >-> value.

Definition cls_of (n : node) : string := let (c, _, _, _) := n in c.
Definition lineno_of (n : node) : option Z := let (_, l, _, _) := n in l.
Definition col_offset_of (n : node) : option Z := let (_, _, c, _) := n in c.
Definition fields_of (n : node) : list (string * value) :=
  let (_, _, _, fs) := n in fs.

(** [isinstance(v, ast.C)] *)
Definition isinstance (v : value) (c : string) : bool :=
  match v with
  | VNode n => cls_of n =? c
  | _ => false
  end%string.

(** Python truth value of a field: [None], [False], [0], the empty string and
    the empty list are false, every node is true. *)
Definition truthy (v : value) : bool :=
  match v with
  | VNone => false
  | VBool b => b
  | VInt z => negb (z =? 0)
  | VStr s => negb (s =? EmptyString)%string
  | VNode _ => true
  | VList l => match l with [] => false | _ => true end
  end.

Definition is_none (v : value) : bool :=
  match v with VNone => true | _ => false end.

(** [v == 'text'] for a field [v] *)
Definition str_eq (v : value) (s : string) : bool :=
  match v with VStr t => (t =? s)%string | _ => false end.

Fixpoint lookup (f : string) (fs : list (string * value)) : option value :=
  match fs with
  | [] => None
  | (g, v) :: rest => if (g =? f)%string then Some v else lookup f rest
  end.

Fixpoint assign (f : string) (v : value) (fs : list (string * value))
  : list (string * value) :=
  match fs with
  | [] => [(f, v)]
  | (g, w) :: rest =>
      if (g =? f)%string then (g, v) :: rest else (g, w) :: assign f v rest
  end.

(** [setattr(node, f, v)]: an attribute that is set keeps its place among the
    fields, a new one comes last. *)
Definition setattr (n : node) (f : string) (v : value) : node :=
  let (c, l, o, fs) := n in Node c l o (assign f v fs).

(** [list.insert(i, x)]: past the end it appends. *)
Fixpoint list_insert (i : nat) (x : value) (l : list value) : list value :=
  match i, l with
  | O, _ => x :: l
  | S _, [] => [x]
  | S j, y :: ys => y :: list_insert j x ys
  end.

(** ** Strings *)

Definition dquote : string := String "034"%char EmptyString.

Definition startswith (s p : string) : bool := String.prefix p s.

Definition endswith (s p : string) : bool :=
  (String.length p <=? String.length s)%nat
  && (substring (String.length s - String.length p) (String.length p) s =? p)%string.

Definition str_of_Z (z : Z) : string := NilZero.string_of_int (Z.to_int z).

(** ['{lineno}'.format(lineno=...)] of [getattr(node, 'lineno', None)] *)
Definition format_lineno (l : option Z) : string :=
  match l with
  | Some z => str_of_Z z
  | None => "None"
  end.

(** ** The host: [_compat] and the [ast] module

    [_compat.py] is not part of the sources at hand; its four version
    flags are taken as parameters of the development. *)
Class Compat : Type := {
  IS_PY2 : bool;
  IS_PY3 : bool;
  IS_PY34_OR_GREATER : bool;
  IS_PY35_OR_GREATER : bool
}.

(** The classes that carry [lineno] and [col_offset] in [_attributes]:
    statements, expressions and exception handlers of the grammars from
    2.7 to 3.6; in 3.x also [arg], and [Ellipsis], which is a slice in 2.x
    and an expression in 3.x. *)
Definition located_classes : list string :=
  [ "FunctionDef"; "AsyncFunctionDef"; "ClassDef"; "Return"; "Delete";
    "Assign"; "AugAssign"; "AnnAssign"; "Print"; "For"; "AsyncFor"; "While";
    "If"; "With"; "AsyncWith"; "Raise"; "TryExcept"; "TryFinally"; "Try";
    "Assert"; "Import"; "ImportFrom"; "Exec"; "Global"; "Nonlocal"; "Expr";
    "Pass"; "Break"; "Continue";
    "BoolOp"; "BinOp"; "UnaryOp"; "Lambda"; "IfExp"; "Dict"; "Set";
    "ListComp"; "SetComp"; "DictComp"; "GeneratorExp"; "Await"; "Yield";
    "YieldFrom"; "Compare"; "Call"; "Repr"; "Num"; "Str"; "FormattedValue";
    "JoinedStr"; "Bytes"; "NameConstant"; "Constant"; "Attribute";
    "Subscript"; "Starred"; "Name"; "List"; "Tuple";
    "ExceptHandler" ].

Definition mem (s : string) (l : list string) : bool :=
  existsb (String.eqb s) l.

Definition has_location `{Compat} (c : string) : bool :=
  mem c located_classes || (IS_PY3 && mem c ["arg"; "Ellipsis"]).

(** ** Transformer state, exceptions and the monad of the methods *)

Record PrintInfo : Type := mkPrintInfo {
  print_used : bool;
  printed_used : bool
}.

(** [used_names] is a dict from names to [True]; only its key set matters.
    A key is a string, or [None] for a name node without identifier. *)
Record state : Type := mkState {
  errors : list string;
  warnings : list string;
  used_names : list (option string);
  _tmp_idx : Z;
  print_info : PrintInfo
}.

(** [RestrictingNodeTransformer()] *)
Definition init : state :=
  mkState [] [] [] 0 (mkPrintInfo false false).

Definition set_errors (st : state) (e : list string) : state :=
  mkState e (warnings st) (used_names st) (_tmp_idx st) (print_info st).
Definition set_warnings (st : state) (w : list string) : state :=
  mkState (errors st) w (used_names st) (_tmp_idx st) (print_info st).
Definition set_used_names (st : state) (u : list (option string)) : state :=
  mkState (errors st) (warnings st) u (_tmp_idx st) (print_info st).
Definition set_tmp_idx (st : state) (i : Z) : state :=
  mkState (errors st) (warnings st) (used_names st) i (print_info st).
Definition set_print_info (st : state) (p : PrintInfo) : state :=
  mkState (errors st) (warnings st) (used_names st) (_tmp_idx st) p.

Inductive exn : Type :=
| AttributeError (attr : string)
| TypeError
| KeyError
| AssertionError
| Exception (msg : string).

(** A method either returns a result and the new state of the transformer,
    or raises; the state at the raise is kept because [finally] blocks
    still run on it. *)
Inductive outcome (A : Type) : Type :=
| Ok (a : A) (st : state)
| Raise (e : exn) (st : state).
Arguments Raise {A} e st.

Definition M (A : Type) : Type := state -> outcome A.

Definition ret {A} (a : A) : M A := fun st => Ok a st.
Definition raise {A} (e : exn) : M A := fun st => Raise e st.
Definition bind {A B} (m : M A) (k : A -> M B) : M B :=
  fun st =>
    match m st with
    | Ok a st' => k a st'
    | Raise e st' => Raise e st'
    end.
Definition get : M state := fun st => Ok st st.
Definition modify (f : state -> state) : M unit := fun st => Ok tt (f st).

Declare Scope py_scope.
Delimit Scope py_scope with py.
Notation "x <- m ;; k" := (bind m (fun x => k))
  (at level 61, m at next level, right associativity) : py_scope.
Notation "m ;; k" := (bind m (fun _ => k))
  (at level 61, right associativity) : py_scope.
Local Open Scope py_scope.

(** [try: m finally: restore] *)
Definition finally {A} (m : M A) (restore : state -> state) : M A :=
  fun st =>
    match m st with
    | Ok a st' => Ok a (restore st')
    | Raise e st' => Raise e (restore st')
    end.

(** [node.f], raising [AttributeError] when the attribute is not set *)
Definition getattr (n : node) (f : string) : M value :=
  match lookup f (fields_of n) with
  | Some v => ret v
  | None => raise (AttributeError f)
  end.

(** [v.f] for a field [v]: only nodes have attributes *)
Definition getattr_of (v : value) (f : string) : M value :=
  match v with
  | VNode n => getattr n f
  | _ => raise (AttributeError f)
  end.

(** the node behind a value on which an attribute is about to be read or set *)
Definition as_node (v : value) (f : string) : M node :=
  match v with
  | VNode n => ret n
  | _ => raise (AttributeError f)
  end.

(** [for x in v]: the fields that the transformer iterates hold lists in
    every tree of the grammar; on anything else the loop is taken to raise
    [TypeError], as it does on [None] and on a node. *)
Definition as_list (v : value) : M (list value) :=
  match v with
  | VList l => ret l
  | _ => raise TypeError
  end.

(** a method of [str] called on [v] *)
Definition as_str (v : value) (method : string) : M string :=
  match v with
  | VStr s => ret s
  | _ => raise (AttributeError method)
  end.

(** Loops over lists; the body is a section variable, so that a method
    defined by recursion on a node can run them on its children. *)
Section Loops.
Context {A B : Type}.

Section Map.
Variable f : A -> M B.
Fixpoint mapM (l : list A) : M (list B) :=
  match l with
  | [] => ret []
  | x :: xs => y <- f x ;; ys <- mapM xs ;; ret (y :: ys)
  end.
End Map.

Section Fold.
Variable f : B -> A -> M B.
Fixpoint foldM (b : B) (l : list A) : M B :=
  match l with
  | [] => ret b
  | x :: xs => b' <- f b x ;; foldM b' xs
  end.
End Fold.
End Loops.

Definition forM_ {A} (f : A -> M unit) (l : list A) : M unit :=
  foldM (fun _ x => f x) tt l.

(** [node.f] with a continuation, for methods that recurse on what they read *)
Definition with_attr {A} (fs : list (string * value)) (f : string)
    (k : value -> A) (missing : A) : A :=
  (fix go (fs : list (string * value)) : A :=
     match fs with
     | [] => missing
     | (g, v) :: rest => if (g =? f)%string then k v else go rest
     end) fs.

(** ** The nodes the transformer builds *)

Module ast.
Definition Load : node := Node "Load" None None [].
Definition Store : node := Node "Store" None None [].
Definition Del : node := Node "Del" None None [].
Definition Param : node := Node "Param" None None [].
Definition And : node := Node "And" None None [].

Definition Name (id : value) (ctx : node) : node :=
  Node "Name" None None [("id", id); ("ctx", VNode ctx)].
Definition Str (s : value) : node := Node "Str" None None [("s", s)].
Definition Num (n : Z) : node := Node "Num" None None [("n", VInt n)].
Definition NameConstant (v : value) : node :=
  Node "NameConstant" None None [("value", v)].
Definition Tuple (elts : list value) (ctx : node) : node :=
  Node "Tuple" None None [("elts", VList elts); ("ctx", VNode ctx)].
Definition Dict (keys values : list value) : node :=
  Node "Dict" None None [("keys", VList keys); ("values", VList values)].
Definition Call (func : value) (args keywords : list value) : node :=
  Node "Call" None None
    [("func", func); ("args", VList args); ("keywords", VList keywords)].
Definition Attribute (v : value) (attr : value) (ctx : node) : node :=
  Node "Attribute" None None
    [("value", v); ("attr", attr); ("ctx", VNode ctx)].
Definition BoolOp (op : node) (values : list value) : node :=
  Node "BoolOp" None None [("op", VNode op); ("values", VList values)].
Definition Assign (targets : list value) (v : value) : node :=
  Node "Assign" None None [("targets", VList targets); ("value", v)].
Definition Delete (targets : list value) : node :=
  Node "Delete" None None [("targets", VList targets)].
Definition TryFinally (body finalbody : list value) : node :=
  Node "TryFinally" None None
    [("body", VList body); ("finalbody", VList finalbody)].
Definition Try (body handlers orelse finalbody : list value) : node :=
  Node "Try" None None
    [("body", VList body); ("handlers", VList handlers);
     ("orelse", VList orelse); ("finalbody", VList finalbody)].
Definition arguments (args : list value) (vararg kwarg : value)
    (defaults : list value) : node :=
  Node "arguments" None None
    [("args", VList args); ("vararg", vararg); ("kwarg", kwarg);
     ("defaults", VList defaults)].
Definition Lambda (args : node) (body : value) : node :=
  Node "Lambda" None None [("args", VNode args); ("body", body)].
Definition keyword (arg : value) (v : value) : node :=
  Node "keyword" None None [("arg", arg); ("value", v)].
Definition Pass : node := Node "Pass" None None [].
End ast.

(** ** Source positions *)

Section Locations.
Context `{Compat}.

(** The worker of [ast.fix_missing_locations]: a node without position
    takes the one of the nearest ancestor that has one. *)
Fixpoint _fix (n : node) (lineno col_offset : Z) {struct n} : node :=
  match n with
  | Node c l o fs =>
      let l' := if has_location c
                then match l with Some _ => l | None => Some lineno end
                else l in
      let lineno' := if has_location c
                     then match l with Some x => x | None => lineno end
                     else lineno in
      let o' := if has_location c
                then match o with Some _ => o | None => Some col_offset end
                else o in
      let col_offset' := if has_location c
                         then match o with Some x => x | None => col_offset end
                         else col_offset in
      Node c l' o'
        (map (fun fv : string * value =>
                let (f, v) := fv in
                (f, match v with
                    | VNode child => VNode (_fix child lineno' col_offset')
                    | VList items =>
                        VList (map (fun item =>
                                      match item with
                                      | VNode child =>
                                          VNode (_fix child lineno' col_offset')
                                      | _ => item
                                      end) items)
                    | _ => v
                    end)) fs)
  end.

Definition fix_missing_locations (n : node) : node := _fix n 1 0.

(** [new.lineno = l; new.col_offset = o; ast.fix_missing_locations(new)] *)
Definition located (l o : Z) (new : node) : node :=
  let (c, _, _, fs) := new in
  fix_missing_locations (Node c (Some l) (Some o) fs).

Definition copy_locations (new_node old_node : node) : M node :=
  if negb (has_location (cls_of new_node)) then raise AssertionError else
  match lineno_of old_node with
  | None => raise (AttributeError "lineno")
  | Some l =>
      match col_offset_of old_node with
      | None => raise (AttributeError "col_offset")
      | Some o => ret (located l o new_node)
      end
  end.

(** [copy_locations(new, old)] where [old] was read from a field *)
Definition copy_locations_from (new_node : node) (old : value) : M node :=
  match old with
  | VNode old_node => copy_locations new_node old_node
  | _ => raise (AttributeError "lineno")
  end.
End Locations.

(** ** Diagnostics and small helpers of the transformer *)

Definition diagnostic (n : node) (info : string) : string :=
  "Line " ++ format_lineno (lineno_of n) ++ ": " ++ info.

Definition error (n : node) (info : string) : M unit :=
  modify (fun st => set_errors st (errors st ++ [diagnostic n info])).

Definition warn (n : node) (info : string) : M unit :=
  modify (fun st => set_warnings st (warnings st ++ [diagnostic n info])).

Definition gen_tmp_name : M string :=
  st <- get ;;
  modify (fun st => set_tmp_idx st (_tmp_idx st + 1)) ;;
  ret ("_tmp" ++ str_of_Z (_tmp_idx st)).

Definition check_name (n : node) (name : value) : M unit :=
  if is_none name then ret tt else
  name <- as_str name "startswith" ;;
  if startswith name "_" && negb (name =? "_")%string then
    error n (dquote ++ name ++ dquote
             ++ " is an invalid variable name because it starts with "
             ++ dquote ++ "_" ++ dquote)
  else if endswith name "__roles__" then
    error n (dquote ++ name ++ dquote
             ++ " is an invalid variable name because it ends with "
             ++ dquote ++ "__roles__" ++ dquote ++ ".")
  else if (name =? "printed")%string then
    error n (dquote ++ "printed" ++ dquote ++ " is a reserved name.")
  else if (name =? "print")%string then
    error n (dquote ++ "print" ++ dquote ++ " is a reserved name.")
  else ret tt.

(** For AugAssign the operator must be converted to a string. *)
Definition IOPERATOR_TO_STR `{Compat} : list (string * string) :=
  [ ("Add", "+="); ("Sub", "-="); ("Mult", "*="); ("Div", "/=");
    ("Mod", "%="); ("Pow", "**="); ("LShift", "<<="); ("RShift", ">>=");
    ("BitOr", "|="); ("BitXor", "^="); ("BitAnd", "&=");
    ("FloorDiv", "//=") ]
  ++ (if IS_PY35_OR_GREATER then [("MatMult", "@=")] else []).

Fixpoint dict_get (k : string) (d : list (string * string)) : option string :=
  match d with
  | [] => None
  | (k', v) :: rest => if (k' =? k)%string then Some v else dict_get k rest
  end.

(** [d[key] = True] *)
Definition dict_set (key : option string) (d : list (option string))
  : list (option string) :=
  if existsb (fun k => match k, key with
                       | Some a, Some b => (a =? b)%string
                       | None, None => true
                       | _, _ => false
                       end) d
  then d else (d ++ [key])%list.

(** [v.insert(...)] for a field [v]: only lists have the method *)
Definition as_list_for (v : value) (method : string) : M (list value) :=
  match v with
  | VList l => ret l
  | _ => raise (AttributeError method)
  end.

(** ** Helpers of [RestrictingNodeTransformer] *)

Section Transformer.
Context `{Compat}.

Definition is_starred (ob : value) : bool :=
  if IS_PY3 then isinstance ob "Starred" else false.

Section UnpackChildren.
Variable gen_unpack_spec : node -> M node.
Variable min_len : Z.

(** The loop [for idx, val in enumerate(tpl.elts)] of [gen_unpack_spec]
    with its variable [offset]; it returns the records appended to
    [spec.values[0].elts]. *)
Fixpoint unpack_children (elts : list value) (idx offset : Z)
  : M (list value) :=
  match elts with
  | [] => ret []
  | val :: rest =>
      if is_starred val then
        unpack_children rest (idx + 1) (min_len + 1)
      else
        match val with
        | VNode t =>
            if (cls_of t =? "Tuple")%string then
              sub <- gen_unpack_spec t ;;
              let el := ast.Tuple [VNode (ast.Num (idx - offset)); VNode sub]
                                  ast.Load in
              els <- unpack_children rest (idx + 1) offset ;;
              ret (VNode el :: els)
            else unpack_children rest (idx + 1) offset
        | _ => unpack_children rest (idx + 1) offset
        end
  end.
End UnpackChildren.

(** [len([ob for ob in elts if not self.is_starred(ob)])] *)
Definition count_unstarred (elts : list value) : Z :=
  Z.of_nat (length (filter (fun ob => negb (is_starred ob)) elts)).

Fixpoint gen_unpack_spec (tpl : node) : M node :=
  match tpl with
  | Node _ _ _ fs =>
      with_attr fs "elts"
        (fun elts =>
           match elts with
           | VList elts =>
               let min_len := count_unstarred elts in
               childs <- unpack_children gen_unpack_spec min_len elts 0 0 ;;
               ret (ast.Dict
                      [VNode (ast.Str (VStr "childs"));
                       VNode (ast.Str (VStr "min_len"))]
                      [VNode (ast.Tuple childs ast.Load);
                       VNode (ast.Num min_len)])
           | _ => raise TypeError
           end)
        (raise (AttributeError "elts"))
  end.

(** [self.gen_unpack_spec(v)] for a field [v] *)
Definition gen_unpack_spec_of (v : value) : M node :=
  tpl <- as_node v "elts" ;; gen_unpack_spec tpl.

Definition protect_unpack_sequence (target v : value) : M node :=
  spec <- gen_unpack_spec_of target ;;
  ret (ast.Call (ast.Name (VStr "_unpack_sequence_") ast.Load)
         [v; VNode spec; VNode (ast.Name (VStr "_getiter_") ast.Load)] []).

Definition gen_del_stmt (name_to_del : string) : node :=
  ast.Delete [VNode (ast.Name (VStr name_to_del) ast.Del)].

Definition gen_unpack_wrapper (n : node) (target : value) (ctx : string)
  : M (node * node) :=
  tmp_name <- gen_tmp_name ;;
  converter <- protect_unpack_sequence target
                 (ast.Name (VStr tmp_name) ast.Load) ;;
  let try_body := [VNode (ast.Assign [target] converter)] in
  let finalbody := [VNode (gen_del_stmt tmp_name)] in
  let cleanup := if IS_PY2 then ast.TryFinally try_body finalbody
                 else ast.Try try_body [] [] finalbody in
  ctx <- (if (ctx =? "store")%string then ret ast.Store
          else if (ctx =? "param")%string then ret ast.Param
          else raise (Exception "Unsupported context type.")) ;;
  let tmp_target := ast.Name (VStr tmp_name) ctx in
  tmp_target <- copy_locations tmp_target n ;;
  cleanup <- copy_locations cleanup n ;;
  ret (tmp_target, cleanup).

Definition gen_none_node : node :=
  if IS_PY34_OR_GREATER then ast.NameConstant VNone
  else ast.Name (VStr "None") ast.Load.

Definition gen_lambda (args : list value) (body : value) : node :=
  ast.Lambda (ast.arguments args VNone VNone []) body.

Fixpoint transform_slice_node (slice_ : node) : M value :=
  match slice_ with
  | Node c _ _ fs =>
      if (c =? "Index")%string then getattr slice_ "value"
      else if (c =? "Slice")%string then
        lower <- getattr slice_ "lower" ;;
        upper <- getattr slice_ "upper" ;;
        step <- getattr slice_ "step" ;;
        let bound b := if truthy b then b else VNode gen_none_node in
        ret (VNode (ast.Call (ast.Name (VStr "slice") ast.Load)
                      [bound lower; bound upper; bound step] []))
      else if (c =? "ExtSlice")%string then
        with_attr fs "dims"
          (fun dims =>
             match dims with
             | VList dims =>
                 elts <- mapM (fun item =>
                                 match item with
                                 | VNode i => transform_slice_node i
                                 | _ => raise (Exception "Unknown slice type")
                                 end) dims ;;
                 ret (VNode (ast.Tuple elts ast.Load))
             | _ => raise TypeError
             end)
          (raise (AttributeError "dims"))
      else raise (Exception "Unknown slice type")
  end.

Definition transform_slice (slice_ : value) : M value :=
  match slice_ with
  | VNode n => transform_slice_node n
  | _ => raise (Exception "Unknown slice type")
  end.

Definition check_function_argument_names_py3 (n : node) : M unit :=
  args <- getattr n "args" ;;
  l <- getattr_of args "args" ;; l <- as_list l ;;
  forM_ (fun arg => a <- getattr_of arg "arg" ;; check_name n a) l ;;
  vararg <- getattr_of args "vararg" ;;
  (if truthy vararg
   then a <- getattr_of vararg "arg" ;; check_name n a else ret tt) ;;
  kwarg <- getattr_of args "kwarg" ;;
  (if truthy kwarg
   then a <- getattr_of kwarg "arg" ;; check_name n a else ret tt) ;;
  l <- getattr_of args "kwonlyargs" ;; l <- as_list l ;;
  forM_ (fun arg => a <- getattr_of arg "arg" ;; check_name n a) l.
End Transformer.

Section Checks.
Context `{Compat}.

Section Stack.
Variable check_item : value -> M unit.

(** [while to_check: item = to_check.pop(); ...]: the work list is a
    stack whose top is the end of the list. *)
Fixpoint pop_all (to_check : list value) : M unit :=
  match to_check with
  | [] => ret tt
  | item :: below => pop_all below ;; check_item item
  end.
End Stack.

(** What the loop of [check_function_argument_names] does from the moment
    it pops [item] until the stack is back below it: a tuple pushes its
    elements, which are popped next, last one first. *)
Fixpoint check_parameter (n item : node) {struct item} : M unit :=
  match item with
  | Node c _ _ fs =>
      if (c =? "Tuple")%string then
        with_attr fs "elts"
          (fun elts =>
             match elts with
             | VList elts =>
                 pop_all (fun v => match v with
                                   | VNode t => check_parameter n t
                                   | _ => raise (AttributeError "id")
                                   end) elts
             | _ => raise TypeError
             end)
          (raise (AttributeError "elts"))
      else id <- getattr item "id" ;; check_name n id
  end.

Definition check_function_argument_names (n : node) : M unit :=
  if IS_PY2 then
    args <- getattr n "args" ;;
    to_check <- getattr_of args "args" ;; to_check <- as_list to_check ;;
    pop_all (fun v => match v with
                      | VNode t => check_parameter n t
                      | _ => raise (AttributeError "id")
                      end) to_check ;;
    vararg <- getattr_of args "vararg" ;; check_name n vararg ;;
    kwarg <- getattr_of args "kwarg" ;; check_name n kwarg
  else check_function_argument_names_py3 n.

Definition inject_print_collector (n : node) (position : nat) : M node :=
  st <- get ;;
  let print_used := print_used (print_info st) in
  let printed_used := printed_used (print_info st) in
  if print_used || printed_used then
    let _print :=
      ast.Assign [VNode (ast.Name (VStr "_print") ast.Store)]
        (ast.Call (ast.Name (VStr "_print_") ast.Load)
           [VNode (ast.Name (VStr "_getattr_") ast.Load)] []) in
    _print <- (if (cls_of n =? "Module")%string
               then ret (located (Z.of_nat position) (Z.of_nat position) _print)
               else copy_locations _print n) ;;
    body <- getattr n "body" ;; body <- as_list_for body "insert" ;;
    let n := setattr n "body" (VList (list_insert position (VNode _print) body)) in
    (if negb printed_used then
       warn n "Prints, but never reads 'printed' variable."
     else if negb print_used then
       warn n "Doesn't print, but reads 'printed' variable."
     else ret tt) ;;
    ret n
  else ret n.

Definition gen_attr_check (v : value) (attr_name : string) : node :=
  let call_getattr :=
    ast.Call (ast.Name (VStr "_getattr_") ast.Load)
      [v; VNode (ast.Str (VStr attr_name))] [] in
  ast.BoolOp ast.And [VNode call_getattr; v].

(** [PrintInfo.new_print_scope] around the body of a [with] block *)
Definition new_print_scope {A} (body : M A) : M A :=
  fun st =>
    let old := print_info st in
    finally (modify (fun st => set_print_info st (mkPrintInfo false false)) ;;
             body)
            (fun st' => set_print_info st' old) st.

Definition set_print_used : M unit :=
  modify (fun st => set_print_info st
                      (mkPrintInfo true (printed_used (print_info st)))).
Definition set_printed_used : M unit :=
  modify (fun st => set_print_info st
                      (mkPrintInfo (print_used (print_info st)) true)).

(** [self.used_names[id] = True] *)
Definition use_name (id : value) : M unit :=
  match id with
  | VStr s => modify (fun st => set_used_names st (dict_set (Some s) (used_names st)))
  | VNone => modify (fun st => set_used_names st (dict_set None (used_names st)))
  | VList _ => raise TypeError
  | _ => ret tt   (* hashable, and no name: [check_name] raises next *)
  end.
End Checks.

(** ** [ast.NodeTransformer.generic_visit]

    The traversal of the base class, which the transformer calls
    [node_contents_visit]: every child node is replaced by what [visit]
    returns for it.  [None] removes the child (from a list, or as an
    attribute), a list is spliced into the list it stands in. *)
Section NodeTransformer.
Variable visit : node -> M value.

Fixpoint visit_list (old : list value) : M (list value) :=
  match old with
  | [] => ret []
  | VNode child :: rest =>
      r <- visit child ;;
      match r with
      | VNone => visit_list rest
      | VNode _ => new_values <- visit_list rest ;; ret (r :: new_values)
      | VList l => new_values <- visit_list rest ;; ret (l ++ new_values)%list
      | _ => raise TypeError
      end
  | v :: rest => new_values <- visit_list rest ;; ret (v :: new_values)
  end.

Fixpoint visit_fields (fs : list (string * value))
  : M (list (string * value)) :=
  match fs with
  | [] => ret []
  | (f, VList old) :: rest =>
      new_values <- visit_list old ;;
      rest' <- visit_fields rest ;;
      ret ((f, VList new_values) :: rest')
  | (f, VNode child) :: rest =>
      new_node <- visit child ;;
      rest' <- visit_fields rest ;;
      ret (if is_none new_node then rest' else (f, new_node) :: rest')
  | (f, v) :: rest =>
      rest' <- visit_fields rest ;;
      ret ((f, v) :: rest')
  end.

Definition node_contents_visit (n : node) : M node :=
  let (c, l, o, fs) := n in
  fs' <- visit_fields fs ;;
  ret (Node c l o fs').
End NodeTransformer.

(** ** The [visit_] methods

    A method gets the node and, as [contents], the call
    [self.node_contents_visit(node)] that it may run; every method of the
    source makes that call on its own node, at most once. *)
Definition handler : Type := M node -> node -> M value.

Section Methods.
Context `{Compat}.

Definition not_allowed (n : node) : M unit :=
  error n (cls_of n ++ " statements are not allowed.").

(** Reject ast nodes which do not have a corresponding [visit_] method. *)
Definition generic_visit (n : node) : M value :=
  warn n (cls_of n ++ " statement is not known to RestrictedPython") ;;
  not_allowed n ;;
  ret VNone.

(** [return self.node_contents_visit(node)] *)
Definition allow : handler :=
  fun contents _ => n <- contents ;; ret (VNode n).

(** [self.not_allowed(node)], and the method returns [None] *)
Definition deny : handler :=
  fun _ n => not_allowed n ;; ret VNone.

Definition guard_iter : handler := fun contents _ =>
  n <- contents ;;
  target <- getattr n "target" ;;
  new_iter <-
    (if isinstance target "Tuple" then
       spec <- gen_unpack_spec_of target ;;
       iter <- getattr n "iter" ;;
       ret (ast.Call (ast.Name (VStr "_iter_unpack_sequence_") ast.Load)
              [iter; VNode spec;
               VNode (ast.Name (VStr "_getiter_") ast.Load)] [])
     else
       iter <- getattr n "iter" ;;
       ret (ast.Call (ast.Name (VStr "_getiter_") ast.Load) [iter] [])) ;;
  iter <- getattr n "iter" ;;
  new_iter <- copy_locations_from new_iter iter ;;
  ret (VNode (setattr n "iter" new_iter)).

Definition check_import_names : handler := fun contents n =>
  names <- getattr n "names" ;; names <- as_list names ;;
  forM_ (fun alias =>
           name <- getattr_of alias "name" ;;
           check_name n name ;;
           asname <- getattr_of alias "asname" ;;
           if truthy asname then check_name n asname else ret tt) names ;;
  n <- contents ;;
  ret (VNode n).

Definition visit_Name : handler := fun contents _ =>
  n <- contents ;;
  ctx <- getattr n "ctx" ;;
  id <- getattr n "id" ;;
  if isinstance ctx "Load" then
    if str_eq id "printed" then
      set_printed_used ;;
      new_node <- copy_locations
                    (ast.Call (ast.Name (VStr "_print") ast.Load) [] []) n ;;
      ret (VNode new_node)
    else if str_eq id "print" then
      set_print_used ;;
      new_node <- copy_locations
                    (ast.Attribute (ast.Name (VStr "_print") ast.Load)
                       (VStr "_call_print") ast.Load) n ;;
      ret (VNode new_node)
    else
      use_name id ;;
      check_name n id ;;
      ret (VNode n)
  else
    check_name n id ;;
    ret (VNode n).

Definition visit_Call : handler := fun contents n =>
  func <- getattr n "func" ;;
  (if isinstance func "Name" then
     id <- getattr_of func "id" ;;
     if str_eq id "exec" then error n "Exec calls are not allowed."
     else if str_eq id "eval" then error n "Eval calls are not allowed."
     else ret tt
   else ret tt) ;;
  needs_wrap <-
    (if IS_PY35_OR_GREATER then
       args <- getattr n "args" ;; args <- as_list args ;;
       keywords <- getattr n "keywords" ;; keywords <- as_list keywords ;;
       kw <- foldM (fun w keyword_arg =>
                      arg <- getattr_of keyword_arg "arg" ;;
                      ret (w || is_none arg)) false keywords ;;
       ret (existsb (fun pos_arg => isinstance pos_arg "Starred") args || kw)
     else
       starargs <- getattr n "starargs" ;;
       if negb (is_none starargs) then ret true
       else kwargs <- getattr n "kwargs" ;; ret (negb (is_none kwargs))) ;;
  n <- contents ;;
  if negb needs_wrap then ret (VNode n) else
  args <- getattr n "args" ;; args <- as_list_for args "insert" ;;
  func <- getattr n "func" ;;
  let n := setattr n "args" (VList (func :: args)) in
  new_func <- copy_locations_from (ast.Name (VStr "_apply_") ast.Load) func ;;
  ret (VNode (setattr n "func" new_func)).

Definition visit_Attribute : handler := fun contents n =>
  attr <- getattr n "attr" ;;
  name <- as_str attr "startswith" ;;
  (if startswith name "_" && negb (name =? "_")%string then
     error n (dquote ++ name ++ dquote
              ++ " is an invalid attribute name because it starts with "
              ++ dquote ++ "_" ++ dquote ++ ".")
   else ret tt) ;;
  (if endswith name "__roles__" then
     error n (dquote ++ name ++ dquote
              ++ " is an invalid attribute name because it ends with "
              ++ dquote ++ "__roles__" ++ dquote ++ ".")
   else ret tt) ;;
  ctx <- getattr n "ctx" ;;
  if isinstance ctx "Load" then
    n <- contents ;;
    v <- getattr n "value" ;;
    attr <- getattr n "attr" ;;
    new_node <- copy_locations
                  (ast.Call (ast.Name (VStr "_getattr_") ast.Load)
                     [v; VNode (ast.Str attr)] []) n ;;
    ret (VNode new_node)
  else if isinstance ctx "Store" || isinstance ctx "Del" then
    n <- contents ;;
    v <- getattr n "value" ;;
    new_value <- copy_locations_from
                   (ast.Call (ast.Name (VStr "_write_") ast.Load) [v] []) v ;;
    ret (VNode (setattr n "value" new_value))
  else
    n <- contents ;; ret (VNode n).

Definition visit_Subscript : handler := fun contents _ =>
  n <- contents ;;
  ctx <- getattr n "ctx" ;;
  if isinstance ctx "Load" then
    v <- getattr n "value" ;;
    slice_ <- getattr n "slice" ;;
    sl <- transform_slice slice_ ;;
    new_node <- copy_locations
                  (ast.Call (ast.Name (VStr "_getitem_") ast.Load)
                     [v; sl] []) n ;;
    ret (VNode new_node)
  else if isinstance ctx "Del" || isinstance ctx "Store" then
    v <- getattr n "value" ;;
    new_value <- copy_locations
                   (ast.Call (ast.Name (VStr "_write_") ast.Load) [v] []) n ;;
    ret (VNode (setattr n "value" new_value))
  else ret (VNode n).

Definition visit_Assign : handler := fun contents _ =>
  n <- contents ;;
  targets <- getattr n "targets" ;; targets <- as_list targets ;;
  if negb (existsb (fun t => isinstance t "Tuple") targets) then
    ret (VNode n)
  else
    new_nodes <-
      mapM (fun target =>
              if isinstance target "Tuple" then
                v <- getattr n "value" ;;
                wrapped <- protect_unpack_sequence target v ;;
                ret (ast.Assign [target] wrapped)
              else
                v <- getattr n "value" ;;
                ret (ast.Assign [target] v)) (rev targets) ;;
    new_nodes <- mapM (fun new_node => copy_locations new_node n) new_nodes ;;
    ret (VList (map VNode new_nodes)).

Definition visit_AugAssign : handler := fun contents _ =>
  n <- contents ;;
  target <- getattr n "target" ;;
  if isinstance target "Attribute" then
    error n "Augmented assignment of attributes is not allowed." ;;
    ret (VNode n)
  else if isinstance target "Subscript" then
    error n ("Augmented assignment of object items "
             ++ "and slices is not allowed.") ;;
    ret (VNode n)
  else if isinstance target "Name" then
    op <- getattr n "op" ;;
    token <- match op with
             | VNode o => match dict_get (cls_of o) IOPERATOR_TO_STR with
                          | Some t => ret t
                          | None => raise KeyError
                          end
             | _ => raise KeyError
             end ;;
    id <- getattr_of target "id" ;;
    v <- getattr n "value" ;;
    new_node <- copy_locations
                  (ast.Assign [target]
                     (ast.Call (ast.Name (VStr "_inplacevar_") ast.Load)
                        [VNode (ast.Str (VStr token));
                         VNode (ast.Name id ast.Load); v] [])) n ;;
    ret (VNode new_node)
  else ret (VNode n).

Definition visit_Print : handler := fun contents n =>
  set_print_used ;;
  warn n ("Print statement is deprecated and "
          ++ "not avaliable anymore in Python 3.") ;;
  n <- contents ;;
  dest <- getattr n "dest" ;;
  let new_dest := if is_none dest then ast.Name (VStr "_print") ast.Load
                  else gen_attr_check dest "write" in
  new_dest <- copy_locations new_dest n ;;
  ret (VNode (setattr n "dest" new_dest)).
End Methods.

Section MoreMethods.
Context `{Compat}.

Definition visit_ExceptHandler : handler := fun contents _ =>
  n <- contents ;;
  if IS_PY3 then
    name <- getattr n "name" ;;
    check_name n name ;;
    ret (VNode n)
  else
    name <- getattr n "name" ;;
    if negb (isinstance name "Tuple") then ret (VNode n) else
    p <- gen_unpack_wrapper n name "store" ;;
    let (tmp_target, unpack) := p in
    let n := setattr n "name" (VNode tmp_target) in
    body <- getattr n "body" ;; body <- as_list_for body "insert" ;;
    ret (VNode (setattr n "body" (VList (VNode unpack :: body)))).

(** One round of the loop of [visit_With] on [item], an element of
    [node.items]; [n] is the with statement. *)
Definition protect_with_item (n : node) (item : value)
  : M (node * value) :=
  optional_vars <- getattr_of item "optional_vars" ;;
  if isinstance optional_vars "Tuple" then
    p <- gen_unpack_wrapper n optional_vars "store" ;;
    let (tmp_target, unpack) := p in
    i <- as_node item "optional_vars" ;;
    let item := setattr i "optional_vars" (VNode tmp_target) in
    body <- getattr n "body" ;; body <- as_list_for body "insert" ;;
    ret (setattr n "body" (VList (VNode unpack :: body)), VNode item)
  else ret (n, item).

Definition visit_With : handler := fun contents _ =>
  n <- contents ;;
  if IS_PY2 then
    (* items = [node]: the statement is its own single item *)
    optional_vars <- getattr n "optional_vars" ;;
    if isinstance optional_vars "Tuple" then
      p <- gen_unpack_wrapper n optional_vars "store" ;;
      let (tmp_target, unpack) := p in
      let n := setattr n "optional_vars" (VNode tmp_target) in
      body <- getattr n "body" ;; body <- as_list_for body "insert" ;;
      ret (VNode (setattr n "body" (VList (VNode unpack :: body))))
    else ret (VNode n)
  else
    items <- getattr n "items" ;; items <- as_list items ;;
    p <- foldM (fun (acc : node * list value) item =>
                  let (n, done) := acc in
                  q <- protect_with_item n item ;;
                  let (n, item) := q in
                  ret (n, item :: done)) (n, []) (rev items) ;;
    let (n, items) := p in
    ret (VNode (setattr n "items" (VList items))).

Definition visit_FunctionDef : handler := fun contents n =>
  name <- getattr n "name" ;;
  check_name n name ;;
  check_function_argument_names n ;;
  n <- new_print_scope (n <- contents ;; inject_print_collector n 0) ;;
  if IS_PY3 then ret (VNode n) else
  args <- getattr n "args" ;;
  params <- getattr_of args "args" ;; params <- as_list params ;;
  p <- foldM (fun (acc : list value * list value) arg =>
                let (new_params, unpacks) := acc in
                if isinstance arg "Tuple" then
                  q <- gen_unpack_wrapper n arg "param" ;;
                  let (tmp_target, unpack) := q in
                  ret ((new_params ++ [VNode tmp_target])%list,
                       (unpacks ++ [VNode unpack])%list)
                else ret ((new_params ++ [arg])%list, unpacks))
             ([], []) params ;;
  let (new_params, unpacks) := p in
  a <- as_node args "args" ;;
  let n := setattr n "args" (VNode (setattr a "args" (VList new_params))) in
  body <- getattr n "body" ;; body <- as_list body ;;
  ret (VNode (setattr n "body" (VList (unpacks ++ body)%list))).

Definition visit_Lambda : handler := fun contents n =>
  check_function_argument_names n ;;
  n <- contents ;;
  if IS_PY3 then ret (VNode n) else
  args <- getattr n "args" ;;
  params <- getattr_of args "args" ;; params <- as_list params ;;
  if negb (existsb (fun arg => isinstance arg "Tuple") params) then
    ret (VNode n)
  else
    p <- foldM (fun (acc : list value * list value) arg =>
                  let (outer_params, inner_args) := acc in
                  if isinstance arg "Tuple" then
                    tmp_name <- gen_tmp_name ;;
                    converter <- protect_unpack_sequence arg
                                   (ast.Name (VStr tmp_name) ast.Load) ;;
                    ret ((outer_params
                            ++ [VNode (ast.Name (VStr tmp_name) ast.Param)])%list,
                         (inner_args ++ [VNode converter])%list)
                  else
                    id <- getattr_of arg "id" ;;
                    ret ((outer_params ++ [arg])%list,
                         (inner_args ++ [VNode (ast.Name id ast.Load)])%list))
               ([], []) params ;;
    let (outer_params, inner_args) := p in
    let body := ast.Call (VNode n) inner_args [] in
    vararg <- getattr_of args "vararg" ;;
    let body := if truthy vararg
                then setattr body "starargs" (VNode (ast.Name vararg ast.Load))
                else body in
    kwarg <- getattr_of args "kwarg" ;;
    let body := if truthy kwarg
                then setattr body "kwargs" (VNode (ast.Name kwarg ast.Load))
                else body in
    let new_args :=
      ast.arguments outer_params
        (if truthy vararg then vararg else VNone)
        (if truthy kwarg then kwarg else VNone) [] in
    new_node <- copy_locations (ast.Lambda new_args (VNode body)) n ;;
    ret (VNode new_node).

(** [any(keyword.arg == 'metaclass' for keyword in keywords)]: the
    generator stops at the first hit. *)
Fixpoint any_metaclass (keywords : list value) : M bool :=
  match keywords with
  | [] => ret false
  | keyword :: rest =>
      arg <- getattr_of keyword "arg" ;;
      if str_eq arg "metaclass" then ret true else any_metaclass rest
  end.

(** [ast.parse(CLASS_DEF).body[0]] for the two lines
    [class <name>(metaclass=__metaclass__):] and [    pass], where
    [name] is an identifier, as the class names of a parsed tree are.
    Before 3.5 a class definition also has [starargs] and [kwargs]. *)
Definition parse_CLASS_DEF (name : string) : node :=
  let metaclass :=
    Node "Name" (Some 1) (Some (17 + Z.of_nat (String.length name)))
      [("id", VStr "__metaclass__"); ("ctx", VNode ast.Load)] in
  Node "ClassDef" (Some 1) (Some 0)
    ([("name", VStr name); ("bases", VList []);
      ("keywords", VList [VNode (ast.keyword (VStr "metaclass") metaclass)])]
     ++ (if IS_PY35_OR_GREATER then []
         else [("starargs", VNone); ("kwargs", VNone)])
     ++ [("body", VList [VNode (Node "Pass" (Some 2) (Some 4) [])]);
         ("decorator_list", VList [])])%list.

Definition visit_ClassDef : handler := fun contents n =>
  name <- getattr n "name" ;;
  check_name n name ;;
  n <- contents ;;
  if IS_PY2 then ret (VNode n) else
  keywords <- getattr n "keywords" ;; keywords <- as_list keywords ;;
  found <- any_metaclass keywords ;;
  (if found : bool then
     error n ("The keyword argument " ++ dquote ++ "metaclass" ++ dquote
              ++ " is not allowed.")
   else ret tt) ;;
  name <- getattr n "name" ;; name <- as_str name "format" ;;
  let new_class_node := parse_CLASS_DEF name in
  body <- getattr n "body" ;;
  let new_class_node := setattr new_class_node "body" body in
  bases <- getattr n "bases" ;;
  let new_class_node := setattr new_class_node "bases" bases in
  decorator_list <- getattr n "decorator_list" ;;
  ret (VNode (setattr new_class_node "decorator_list" decorator_list)).

(** The loop of [visit_Module] that looks for the first statement which
    is not [from __future__ import ...]; [position] is the loop variable,
    which keeps its last value when the loop runs to the end. *)
Fixpoint future_imports (body : list value) (position idx : nat) : M nat :=
  match body with
  | [] => ret position
  | child :: rest =>
      if negb (isinstance child "ImportFrom") then ret idx else
      module <- getattr_of child "module" ;;
      if negb (str_eq module "__future__") then ret idx
      else future_imports rest idx (S idx)
  end.

Definition visit_Module : handler := fun contents _ =>
  n <- contents ;;
  body <- getattr n "body" ;; body <- as_list body ;;
  position <- future_imports body 0 0 ;;
  n <- inject_print_collector n position ;;
  ret (VNode n).
End MoreMethods.

(** ** The table of methods and the dispatcher *)

Section Dispatch.
Context `{Compat}.

(** The methods that only allow or deny their class, or apply one of the
    shared checks. *)
Definition visit_Num : handler := allow.
Definition visit_Str : handler := allow.
Definition visit_Bytes : handler := allow.
Definition visit_List : handler := allow.
Definition visit_Tuple : handler := allow.
Definition visit_Set : handler := allow.
Definition visit_Dict : handler := allow.
Definition visit_Ellipsis : handler := deny.
Definition visit_NameConstant : handler := allow.
Definition visit_Load : handler := allow.
Definition visit_Store : handler := allow.
Definition visit_Del : handler := allow.
Definition visit_Starred : handler := allow.
Definition visit_Expression : handler := allow.
Definition visit_Expr : handler := allow.
Definition visit_UnaryOp : handler := allow.
Definition visit_UAdd : handler := allow.
Definition visit_USub : handler := allow.
Definition visit_Not : handler := allow.
Definition visit_Invert : handler := allow.
Definition visit_BinOp : handler := allow.
Definition visit_Add : handler := allow.
Definition visit_Sub : handler := allow.
Definition visit_Mult : handler := allow.
Definition visit_Div : handler := allow.
Definition visit_FloorDiv : handler := allow.
Definition visit_Mod : handler := allow.
Definition visit_Pow : handler := allow.
Definition visit_LShift : handler := allow.
Definition visit_RShift : handler := allow.
Definition visit_BitOr : handler := allow.
Definition visit_BitXor : handler := allow.
Definition visit_BitAnd : handler := allow.
Definition visit_MatMult : handler := deny.
Definition visit_BoolOp : handler := allow.
Definition visit_And : handler := allow.
Definition visit_Or : handler := allow.
Definition visit_Compare : handler := allow.
Definition visit_Eq : handler := allow.
Definition visit_NotEq : handler := allow.
Definition visit_Lt : handler := allow.
Definition visit_LtE : handler := allow.
Definition visit_Gt : handler := allow.
Definition visit_GtE : handler := allow.
Definition visit_Is : handler := allow.
Definition visit_IsNot : handler := allow.
Definition visit_In : handler := allow.
Definition visit_NotIn : handler := allow.
Definition visit_keyword : handler := allow.
Definition visit_IfExp : handler := allow.
Definition visit_Index : handler := allow.
Definition visit_Slice : handler := allow.
Definition visit_ExtSlice : handler := allow.
Definition visit_ListComp : handler := allow.
Definition visit_SetComp : handler := allow.
Definition visit_GeneratorExp : handler := allow.
Definition visit_DictComp : handler := allow.
Definition visit_comprehension : handler := guard_iter.
Definition visit_Raise : handler := allow.
Definition visit_Assert : handler := allow.
Definition visit_Delete : handler := allow.
Definition visit_Pass : handler := allow.
Definition visit_Import : handler := check_import_names.
Definition visit_ImportFrom : handler := check_import_names.
Definition visit_alias : handler := allow.
Definition visit_Exec : handler := deny.
Definition visit_If : handler := allow.
Definition visit_For : handler := guard_iter.
Definition visit_While : handler := allow.
Definition visit_Break : handler := allow.
Definition visit_Continue : handler := allow.
Definition visit_Try : handler := allow.
Definition visit_TryFinally : handler := allow.
Definition visit_TryExcept : handler := allow.
Definition visit_withitem : handler := allow.
Definition visit_arguments : handler := allow.
Definition visit_arg : handler := allow.
Definition visit_Return : handler := allow.
Definition visit_Yield : handler := deny.
Definition visit_YieldFrom : handler := deny.
Definition visit_Global : handler := allow.
Definition visit_Nonlocal : handler := deny.
Definition visit_Param : handler := allow.
Definition visit_AsyncFunctionDef : handler := deny.
Definition visit_Await : handler := deny.
Definition visit_AsyncFor : handler := deny.
Definition visit_AsyncWith : handler := deny.

(** [getattr(self, 'visit_' + node.__class__.__name__, ...)]: the classes
    that have a method, in the order of the source. *)
Definition methods : list (string * handler) :=
  [ ("Num", visit_Num);
    ("Str", visit_Str);
    ("Bytes", visit_Bytes);
    ("List", visit_List);
    ("Tuple", visit_Tuple);
    ("Set", visit_Set);
    ("Dict", visit_Dict);
    ("Ellipsis", visit_Ellipsis);
    ("NameConstant", visit_NameConstant);
    ("Name", visit_Name);
    ("Load", visit_Load);
    ("Store", visit_Store);
    ("Del", visit_Del);
    ("Starred", visit_Starred);
    ("Expression", visit_Expression);
    ("Expr", visit_Expr);
    ("UnaryOp", visit_UnaryOp);
    ("UAdd", visit_UAdd);
    ("USub", visit_USub);
    ("Not", visit_Not);
    ("Invert", visit_Invert);
    ("BinOp", visit_BinOp);
    ("Add", visit_Add);
    ("Sub", visit_Sub);
    ("Mult", visit_Mult);
    ("Div", visit_Div);
    ("FloorDiv", visit_FloorDiv);
    ("Mod", visit_Mod);
    ("Pow", visit_Pow);
    ("LShift", visit_LShift);
    ("RShift", visit_RShift);
    ("BitOr", visit_BitOr);
    ("BitXor", visit_BitXor);
    ("BitAnd", visit_BitAnd);
    ("MatMult", visit_MatMult);
    ("BoolOp", visit_BoolOp);
    ("And", visit_And);
    ("Or", visit_Or);
    ("Compare", visit_Compare);
    ("Eq", visit_Eq);
    ("NotEq", visit_NotEq);
    ("Lt", visit_Lt);
    ("LtE", visit_LtE);
    ("Gt", visit_Gt);
    ("GtE", visit_GtE);
    ("Is", visit_Is);
    ("IsNot", visit_IsNot);
    ("In", visit_In);
    ("NotIn", visit_NotIn);
    ("Call", visit_Call);
    ("keyword", visit_keyword);
    ("IfExp", visit_IfExp);
    ("Attribute", visit_Attribute);
    ("Subscript", visit_Subscript);
    ("Index", visit_Index);
    ("Slice", visit_Slice);
    ("ExtSlice", visit_ExtSlice);
    ("ListComp", visit_ListComp);
    ("SetComp", visit_SetComp);
    ("GeneratorExp", visit_GeneratorExp);
    ("DictComp", visit_DictComp);
    ("comprehension", visit_comprehension);
    ("Assign", visit_Assign);
    ("AugAssign", visit_AugAssign);
    ("Print", visit_Print);
    ("Raise", visit_Raise);
    ("Assert", visit_Assert);
    ("Delete", visit_Delete);
    ("Pass", visit_Pass);
    ("Import", visit_Import);
    ("ImportFrom", visit_ImportFrom);
    ("alias", visit_alias);
    ("Exec", visit_Exec);
    ("If", visit_If);
    ("For", visit_For);
    ("While", visit_While);
    ("Break", visit_Break);
    ("Continue", visit_Continue);
    ("Try", visit_Try);
    ("TryFinally", visit_TryFinally);
    ("TryExcept", visit_TryExcept);
    ("ExceptHandler", visit_ExceptHandler);
    ("With", visit_With);
    ("withitem", visit_withitem);
    ("FunctionDef", visit_FunctionDef);
    ("Lambda", visit_Lambda);
    ("arguments", visit_arguments);
    ("arg", visit_arg);
    ("Return", visit_Return);
    ("Yield", visit_Yield);
    ("YieldFrom", visit_YieldFrom);
    ("Global", visit_Global);
    ("Nonlocal", visit_Nonlocal);
    ("ClassDef", visit_ClassDef);
    ("Module", visit_Module);
    ("Param", visit_Param);
    ("AsyncFunctionDef", visit_AsyncFunctionDef);
    ("Await", visit_Await);
    ("AsyncFor", visit_AsyncFor);
    ("AsyncWith", visit_AsyncWith) ].

Fixpoint find_method (c : string) (table : list (string * handler))
  : option handler :=
  match table with
  | [] => None
  | (c', m) :: rest => if (c' =? c)%string then Some m else find_method c rest
  end.

(** [ast.NodeVisitor.visit]: the method of the node's class, and
    [generic_visit] for a class without one. *)
Fixpoint visit (n : node) : M value :=
  match find_method (cls_of n) methods with
  | Some method => method (node_contents_visit visit n) n
  | None => generic_visit n
  end.
End Dispatch.

(** ** Concrete hosts and sample trees *)

Definition python27 : Compat :=
  {| IS_PY2 := true; IS_PY3 := false;
     IS_PY34_OR_GREATER := false; IS_PY35_OR_GREATER := false |}.

Definition python36 : Compat :=
  {| IS_PY2 := false; IS_PY3 := true;
     IS_PY34_OR_GREATER := true; IS_PY35_OR_GREATER := true |}.

(** Nodes as the parser builds them, at line [l] and column [o]. *)
Module parsed.
Definition ctx (c : string) : value := VNode (Node c None None []).
Definition Name (l o : Z) (id ctx_ : string) : node :=
  Node "Name" (Some l) (Some o) [("id", VStr id); ("ctx", ctx ctx_)].
Definition Num (l o n : Z) : node :=
  Node "Num" (Some l) (Some o) [("n", VInt n)].
Definition Attribute (l o : Z) (v : node) (attr ctx_ : string) : node :=
  Node "Attribute" (Some l) (Some o)
    [("value", VNode v); ("attr", VStr attr); ("ctx", ctx ctx_)].
Definition Tuple (l o : Z) (elts : list value) (ctx_ : string) : node :=
  Node "Tuple" (Some l) (Some o) [("elts", VList elts); ("ctx", ctx ctx_)].
Definition Starred (l o : Z) (v : node) (ctx_ : string) : node :=
  Node "Starred" (Some l) (Some o) [("value", VNode v); ("ctx", ctx ctx_)].
Definition Slice (lower upper step : value) : node :=
  Node "Slice" None None
    [("lower", lower); ("upper", upper); ("step", step)].
Definition Subscript (l o : Z) (v slice_ : node) (ctx_ : string) : node :=
  Node "Subscript" (Some l) (Some o)
    [("value", VNode v); ("slice", VNode slice_); ("ctx", ctx ctx_)].
Definition Assign (l o : Z) (targets : list value) (v : node) : node :=
  Node "Assign" (Some l) (Some o)
    [("targets", VList targets); ("value", VNode v)].
Definition AugAssign (l o : Z) (target : node) (op : string) (v : node)
  : node :=
  Node "AugAssign" (Some l) (Some o)
    [("target", VNode target); ("op", ctx op); ("value", VNode v)].
Definition Expr (l o : Z) (v : node) : node :=
  Node "Expr" (Some l) (Some o) [("value", VNode v)].
Definition Yield (l o : Z) (v : node) : node :=
  Node "Yield" (Some l) (Some o) [("value", VNode v)].
Definition FormattedValue (l o : Z) (v : node) : node :=
  Node "FormattedValue" (Some l) (Some o)
    [("value", VNode v); ("conversion", VInt (-1)); ("format_spec", VNone)].
Definition JoinedStr (l o : Z) (values : list value) : node :=
  Node "JoinedStr" (Some l) (Some o) [("values", VList values)].
Definition Module (body : list value) : node :=
  Node "Module" None None [("body", VList body)].
End parsed.

(** ** Properties of trees *)

(** Every class in a tree satisfies [p]. *)
Fixpoint all_node (p : string -> bool) (n : node) {struct n} : bool :=
  match n with
  | Node c _ _ fs => p c && forallb (fun fv => all_value p (snd fv)) fs
  end
with all_value (p : string -> bool) (v : value) {struct v} : bool :=
  match v with
  | VNode n => all_node p n
  | VList l => forallb (all_value p) l
  | _ => true
  end.

(** The lists of a tree hold nodes and constants, never lists: the shape
    of every tree of the host grammar. *)
Fixpoint flat_node (n : node) {struct n} : bool :=
  match n with
  | Node _ _ _ fs => forallb (fun fv => flat_value (snd fv)) fs
  end
with flat_value (v : value) {struct v} : bool :=
  match v with
  | VNode n => flat_node n
  | VList l => forallb (fun x => match x with
                                 | VList _ => false
                                 | _ => flat_value x
                                 end) l
  | _ => true
  end.

(** The number of nodes of class [c] in a tree that satisfy [p]. *)
Fixpoint count_node (p : node -> bool) (n : node) {struct n} : nat :=
  match n with
  | Node _ _ _ fs =>
      ((if p n then 1 else 0)
       + list_sum (map (fun fv => count_value p (snd fv)) fs))%nat
  end
with count_value (p : node -> bool) (v : value) {struct v} : nat :=
  match v with
  | VNode n => count_node p n
  | VList l => list_sum (map (count_value p) l)
  | _ => 0%nat
  end.

Definition has_method `{Compat} (c : string) : bool :=
  match find_method c methods with Some _ => true | None => false end.


(** A call of the name [f]. *)
Definition is_call_of (f : string) (n : node) : bool :=
  (cls_of n =? "Call")%string
  && match lookup "func" (fields_of n) with
     | Some (VNode g) =>
         (cls_of g =? "Name")%string
         && match lookup "id" (fields_of g) with
            | Some id => str_eq id f
            | None => false
            end
     | _ => false
     end.

Definition state_of {A} (r : outcome A) : state :=
  match r with Ok _ st => st | Raise _ st => st end.

(** ** The rules of the specification, in its words *)

(** The names that the name policy refuses: those that begin with [_]
    and are not exactly [_], those that end with [__roles__], and [print]
    and [printed]. *)
Definition reserved_name (name : string) : Prop :=
  ((exists rest, name = "_" ++ rest) /\ name <> "_")
  \/ (exists front, name = front ++ "__roles__")
  \/ name = "print"
  \/ name = "printed".

(** The errors that [visit_Attribute] records for an attribute name. *)
Definition attribute_name_errors (n : node) (name : string) : list string :=
  ((if startswith name "_" && negb (name =? "_")%string
    then [diagnostic n (dquote ++ name ++ dquote
            ++ " is an invalid attribute name because it starts with "
            ++ dquote ++ "_" ++ dquote ++ ".")]
    else [])
   ++ (if endswith name "__roles__"
       then [diagnostic n (dquote ++ name ++ dquote
               ++ " is an invalid attribute name because it ends with "
               ++ dquote ++ "__roles__" ++ dquote ++ ".")]
       else []))%list.

Definition add_errors (st : state) (msgs : list string) : state :=
  set_errors st (errors st ++ msgs).

Definition add_warnings (st : state) (msgs : list string) : state :=
  set_warnings st (warnings st ++ msgs).

Definition reserved_nameb (name : string) : bool :=
  (startswith name "_" && negb (name =? "_")%string)
  || endswith name "__roles__"
  || (name =? "print")%string
  || (name =? "printed")%string.

(** A field that holds neither a node nor a list. *)
Definition atom (v : value) : bool :=
  match v with VNode _ | VList _ => false | _ => true end.

(** [P] holds of the children that a field holds: the field itself when it
    is a node, its elements when it is a list. *)
Definition on_children (P : node -> Prop) (v : value) : Prop :=
  match v with
  | VNode n => P n
  | VList l => Forall (fun x => match x with VNode n => P n | _ => True end) l
  | _ => True
  end.

(** An optional child as the parser stores it, and as the specification
    has it passed to [slice]: a missing one becomes the none literal. *)
Definition optional (b : option node) : value :=
  match b with Some x => VNode x | None => VNone end.

(** The none literal in the words of the specification: the expression
    [None] as the parser of the host builds it, which is the constant
    [None] from 3.4 on and the name [None], read, before. *)
Definition none_literal `{Compat} : node :=
  if IS_PY34_OR_GREATER
  then Node "NameConstant" None None [("value", VNone)]
  else Node "Name" None None
         [("id", VStr "None"); ("ctx", VNode (Node "Load" None None []))].

Definition or_none_literal `{Compat} (b : option node) : value :=
  match b with Some x => VNode x | None => VNode none_literal end.

(** A sequence target: a node with a list of elements, whose elements of
    class [Tuple] are sequence targets again. *)
Fixpoint sequence_target (tpl : node) : bool :=
  match tpl with
  | Node _ _ _ fs =>
      with_attr fs "elts"
        (fun elts =>
           match elts with
           | VList elts =>
               forallb (fun val =>
                          match val with
                          | VNode t => if (cls_of t =? "Tuple")%string
                                       then sequence_target t else true
                          | _ => true
                          end) elts
           | _ => false
           end)
        false
  end.

(** The unpack spec in the words of the specification: [min_len] counts
    the elements that are not starred; the elements that are sequence
    targets have child records, at the index [i - offset], where [offset]
    is 0 before any starred element and [min_len + 1] after one. *)
Definition min_len_spec (elts : list value) : Z :=
  Z.of_nat (length (filter (fun v => negb (isinstance v "Starred")) elts)).

Definition offset_spec (elts : list value) (i : nat) : Z :=
  if existsb (fun v => isinstance v "Starred") (firstn i elts)
  then min_len_spec elts + 1 else 0.

Definition is_child_position (elts : list value) (i : nat) : bool :=
  match nth_error elts i with
  | Some v => isinstance v "Tuple"
  | None => false
  end.

Definition child_positions (elts : list value) : list nat :=
  filter (is_child_position elts) (seq 0 (length elts)).

(** The operator tokens that the specification lists for augmented
    assignment (it lists "@=" as optional). *)
Definition operator_tokens : list (string * string) :=
  [ ("Add", "+="); ("Sub", "-="); ("Mult", "*="); ("Div", "/=");
    ("Mod", "%="); ("Pow", "**="); ("LShift", "<<="); ("RShift", ">>=");
    ("BitOr", "|="); ("BitXor", "^="); ("BitAnd", "&=");
    ("FloorDiv", "//=") ].

(** Every class in the tree has a [visit_] method. *)
Definition recognized `{Compat} (v : value) : bool := all_value has_method v.

(** A method keeps the perimeter: when the visit of the contents of its
    node returns recognized trees only, so does the method. *)
Definition keeps_perimeter `{Compat} (m : handler) : Prop :=
  forall (contents : M node) (n : node),
    (forall st n' st', contents st = Ok n' st' -> recognized (VNode n') = true) ->
    forall st out st', m contents n st = Ok out st' -> recognized out = true.

(** On a tree of the host grammar, [v] returns recognized trees only. *)
Definition returns_recognized `{Compat} (v : node -> M value) (n : node)
  : Prop :=
  flat_node n = true ->
  forall st out st', v n st = Ok out st' -> recognized out = true.

(** ** What a run of the transformer keeps *)

(** [l'] continues [l]: it is [l] with more at its end. *)
Definition prefix_of {A} (l l' : list A) : Prop :=
  exists more, l' = (l ++ more)%list.

(** The state [st'] continues [st]: the errors and warnings of [st] are
    still there, in place and unchanged, no used name is forgotten and the
    counter of temporary names has not gone back. *)
Definition extends (st st' : state) : Prop :=
  prefix_of (errors st) (errors st')
  /\ prefix_of (warnings st) (warnings st')
  /\ incl (used_names st) (used_names st')
  /\ _tmp_idx st <= _tmp_idx st'.

(** The print bookkeeping of [st'] is that of [st]. *)
Definition same_print (st st' : state) : Prop :=
  print_info st' = print_info st.

(** A relation between the state before and the state after that holds
    when nothing happens, composes, and holds for each of the four ways in
    which a method records something. *)
Class Recording (R : state -> state -> Prop) : Prop := {
  recording_refl : forall st, R st st;
  recording_trans : forall s1 s2 s3, R s1 s2 -> R s2 s3 -> R s1 s3;
  recording_error :
    forall st msg, R st (set_errors st (errors st ++ [msg]));
  recording_warn :
    forall st msg, R st (set_warnings st (warnings st ++ [msg]));
  recording_tmp : forall st, R st (set_tmp_idx st (_tmp_idx st + 1));
  recording_used :
    forall st key, R st (set_used_names st (dict_set key (used_names st)))
}.

(** A relation that does not look at the print bookkeeping. *)
Class PrintBlind (R : state -> state -> Prop) : Prop :=
  print_blind : forall st p, R st (set_print_info st p).

(** Every run of [m], whether it returns or raises, leaves a state that
    is related to the one it started in. *)
Definition respects {A} (R : state -> state -> Prop) (m : M A) : Prop :=
  forall st, R st (state_of (m st)).

Definition handler_respects (R : state -> state -> Prop) (m : handler)
  : Prop :=
  forall (contents : M node) (n : node),
    respects R contents -> respects R (m contents n).

(** Every run of [m] that returns has recorded a new error. *)
Definition reports {A} (m : M A) : Prop :=
  forall st a st',
    m st = Ok a st' -> (length (errors st) < length (errors st'))%nat.

Definition handler_reports (m : handler) : Prop :=
  forall (contents : M node) (n : node),
    respects extends contents -> reports contents -> reports (m contents n).

(** The classes whose method is [self.not_allowed(node)]. *)
Definition denied_classes : list string :=
  [ "Ellipsis"; "MatMult"; "Exec"; "Yield"; "YieldFrom"; "Nonlocal";
    "AsyncFunctionDef"; "Await"; "AsyncFor"; "AsyncWith" ].

(** A node of a class that the transformer refuses: one without a method,
    or one whose method denies it. *)
Definition refused `{Compat} (n : node) : bool :=
  negb (has_method (cls_of n)) || mem (cls_of n) denied_classes.

(** A name that begins with an underscore and is not [_] alone. *)
Definition protected_name (name : string) : bool :=
  startswith name "_" && negb (name =? "_")%string.

(** A node that uses a protected name: a [Name] with such an identifier,
    or an [Attribute] with such an attribute name. *)
Definition uses_protected_name (n : node) : bool :=
  ((cls_of n =? "Name")%string
   && match lookup "id" (fields_of n) with
      | Some (VStr s) => protected_name s
      | _ => false
      end)
  || ((cls_of n =? "Attribute")%string
      && match lookup "attr" (fields_of n) with
         | Some (VStr s) => protected_name s
         | _ => false
         end).

(** The classes whose method is [return self.node_contents_visit(node)]
    and nothing else. *)
Definition allowed_classes : list string :=
  [ "Num"; "Str"; "Bytes"; "List"; "Tuple"; "Set"; "Dict"; "NameConstant";
    "Load"; "Store"; "Del"; "Starred"; "Expression"; "Expr"; "UnaryOp";
    "UAdd"; "USub"; "Not"; "Invert"; "BinOp"; "Add"; "Sub"; "Mult"; "Div";
    "FloorDiv"; "Mod"; "Pow"; "LShift"; "RShift"; "BitOr"; "BitXor";
    "BitAnd"; "BoolOp"; "And"; "Or"; "Compare"; "Eq"; "NotEq"; "Lt"; "LtE";
    "Gt"; "GtE"; "Is"; "IsNot"; "In"; "NotIn"; "keyword"; "IfExp"; "Index";
    "Slice"; "ExtSlice"; "ListComp"; "SetComp"; "GeneratorExp"; "DictComp";
    "Raise"; "Assert"; "Delete"; "Pass"; "alias"; "If"; "While"; "Break";
    "Continue"; "Try"; "TryFinally"; "TryExcept"; "withitem"; "arguments";
    "arg"; "Return"; "Global"; "Param" ].

(** A tree made of allowed classes only. *)
Definition plain (v : value) : bool :=
  all_value (fun c => mem c allowed_classes) v.

(** A child that [ast.iter_child_nodes] finds is a field that holds a
    node, or a node in a field that holds a list.  A tree is placed when
    every node that can be reached so and whose class has position
    attributes has a line and a column; the compiler refuses a tree that
    is not. *)
Section Placed.
Context `{Compat}.

Fixpoint placed (n : node) : bool :=
  match n with
  | Node c l o fs =>
      (negb (has_location c)
       || (match l with Some _ => true | None => false end
           && match o with Some _ => true | None => false end))
      && forallb (fun fv : string * value =>
                    match snd fv with
                    | VNode child => placed child
                    | VList items =>
                        forallb (fun item => match item with
                                             | VNode child => placed child
                                             | _ => true
                                             end) items
                    | _ => true
                    end) fs
  end.

Definition placed_item (item : value) : bool :=
  match item with
  | VNode child => placed child
  | _ => true
  end.

Definition placed_value (v : value) : bool :=
  match v with
  | VNode child => placed child
  | VList items => forallb placed_item items
  | _ => true
  end.

(** A method keeps trees placed: when the visit of the contents of its
    node returns placed trees only, so does the method. *)
Definition keeps_placed (m : handler) : Prop :=
  forall (contents : M node) (n : node),
    (forall st n' st', contents st = Ok n' st' -> placed n' = true) ->
    forall st out st', m contents n st = Ok out st' -> placed_value out = true.

(** On a placed tree, [v] returns placed trees only. *)
Definition returns_placed (v : node -> M value) (n : node) : Prop :=
  placed n = true ->
  forall st out st', v n st = Ok out st' -> placed_value out = true.
End Placed.

(** The tree without its positions.  A list inside a list is left alone,
    as [ast.iter_child_nodes] does not look into it. *)
Fixpoint unplaced (n : node) : node :=
  match n with
  | Node c _ _ fs =>
      Node c None None
        (map (fun fv : string * value =>
                (fst fv,
                 match snd fv with
                 | VNode child => VNode (unplaced child)
                 | VList items =>
                     VList (map (fun item => match item with
                                             | VNode child =>
                                                 VNode (unplaced child)
                                             | _ => item
                                             end) items)
                 | v => v
                 end)) fs)
  end.

(** A line or column that is there stays what it is. *)
Definition same_if_set (a b : option Z) : bool :=
  match a, b with
  | Some x, Some y => (x =? y)%Z
  | Some _, None => false
  | None, _ => true
  end.

(** Every position of [a] is the position of the node of [b] in the same
    place; [b] may have more. *)
Fixpoint positions_kept (a b : node) {struct a} : bool :=
  match a, b with
  | Node _ la oa fa, Node _ lb ob fb =>
      same_if_set la lb && same_if_set oa ob
      && (fix fields (fa fb : list (string * value)) {struct fa} : bool :=
            match fa, fb with
            | (_, va) :: fa', (_, vb) :: fb' =>
                match va, vb with
                | VNode x, VNode y => positions_kept x y
                | VList xs, VList ys =>
                    (fix items (xs ys : list value) {struct xs} : bool :=
                       match xs, ys with
                       | VNode x :: xs', VNode y :: ys' =>
                           positions_kept x y && items xs' ys'
                       | _ :: xs', _ :: ys' => items xs' ys'
                       | _, _ => true
                       end) xs ys
                | _, _ => true
                end && fields fa' fb'
            | _, _ => true
            end) fa fb
  end.

(** [new.lineno = l; new.col_offset = o] *)
Definition at_position (l o : Z) (new : node) : node :=
  let (c, _, _, fs) := new in Node c (Some l) (Some o) fs.

(** The errors that [visit_Call] records for the function of a call. *)
Definition call_name_errors (n : node) (func : value) : list string :=
  match func with
  | VNode f =>
      if (cls_of f =? "Name")%string then
        match lookup "id" (fields_of f) with
        | Some id =>
            if str_eq id "exec"
            then [diagnostic n "Exec calls are not allowed."]
            else if str_eq id "eval"
                 then [diagnostic n "Eval calls are not allowed."]
                 else []
        | None => []
        end
      else []
  | _ => []
  end.

(** [**kwargs] among the keywords of a call of 3.5 and later: a keyword
    without a name. *)
Definition double_star (keyword : value) : bool :=
  match keyword with
  | VNode k => match lookup "arg" (fields_of k) with
               | Some a => is_none a
               | None => false
               end
  | _ => false
  end.

(** A call of 3.5 and later with [*args] or [**kwargs]. *)
Definition has_star_arguments (args keywords : list value) : bool :=
  existsb (fun a => isinstance a "Starred") args
  || existsb double_star keywords.

(** A statement [from __future__ import ...] *)
Definition is_future_import (child : value) : bool :=
  match child with
  | VNode c =>
      (cls_of c =? "ImportFrom")%string
      && match lookup "module" (fields_of c) with
         | Some m => str_eq m "__future__"
         | None => false
         end
  | _ => false
  end.

(** The number of future imports at the start of a module. *)
Fixpoint leading_future_imports (body : list value) : nat :=
  match body with
  | [] => O
  | child :: rest =>
      if is_future_import child then S (leading_future_imports rest) else O
  end.

(** Where [visit_Module] puts the print collector: behind the future
    imports at the start of the module; when the module holds nothing
    else, before the last of them. *)
Definition collector_position (body : list value) : nat :=
  let k := leading_future_imports body in
  if (k <? length body)%nat then k else pred k.

(** The statement [_print = _print_(_getattr_)] *)
Definition print_collector : node :=
  ast.Assign [VNode (ast.Name (VStr "_print") ast.Store)]
    (ast.Call (ast.Name (VStr "_print_") ast.Load)
       [VNode (ast.Name (VStr "_getattr_") ast.Load)] []).

(** The warning of [inject_print_collector] for a scope that prints
    without reading [printed], or reads it without printing. *)
Definition print_warnings (n : node) (p : PrintInfo) : list string :=
  if negb (printed_used p)
  then [diagnostic n "Prints, but never reads 'printed' variable."]
  else if negb (print_used p)
       then [diagnostic n "Doesn't print, but reads 'printed' variable."]
       else [].

(** A keyword argument named [metaclass] *)
Definition names_metaclass (keyword : value) : bool :=
  match keyword with
  | VNode k => match lookup "arg" (fields_of k) with
               | Some a => str_eq a "metaclass"
               | None => false
               end
  | _ => false
  end.

(** The field [f] of [n] holds a reserved name. *)
Definition reserved_field (n : node) (f : string) : bool :=
  match lookup f (fields_of n) with
  | Some (VStr name) => reserved_nameb name
  | _ => false
  end.

(** The elements of a field that holds a list, and the content of an
    optional field. *)
Definition field_list (n : node) (f : string) : list value :=
  match lookup f (fields_of n) with
  | Some (VList l) => l
  | _ => []
  end.

Definition field_option (n : node) (f : string) : list value :=
  match lookup f (fields_of n) with
  | Some v => if truthy v then [v] else []
  | None => []
  end.

(** The parameters of a function of 3.x: positional, [*args], [**kwargs]
    and keyword-only; each is an [arg] node. *)
Definition parameters (arguments : node) : list value :=
  (field_list arguments "args" ++ field_option arguments "vararg"
   ++ field_option arguments "kwarg"
   ++ field_list arguments "kwonlyargs")%list.

Definition reserved_parameter (p : value) : bool :=
  match p with
  | VNode a => reserved_field a "arg"
  | _ => false
  end.

(** A positional parameter of 2.x with a reserved name: a name of such
    an identifier, or a tuple of parameters that holds one. *)
Fixpoint reserved_positional (p : node) : bool :=
  match p with
  | Node c _ _ fs =>
      if (c =? "Tuple")%string then
        with_attr fs "elts"
          (fun elts =>
             match elts with
             | VList elts =>
                 existsb (fun e => match e with
                                   | VNode t => reserved_positional t
                                   | _ => false
                                   end) elts
             | _ => false
             end)
          false
      else
        with_attr fs "id"
          (fun id => match id with
                     | VStr name => reserved_nameb name
                     | _ => false
                     end)
          false
  end.

(** A function with a parameter of a reserved name.  In 2.x the
    positional parameters are [Name] nodes or tuples of them, and
    [*args] and [**kwargs] are strings of the [arguments] node. *)
Definition reserved_parameters `{Compat} (n : node) : bool :=
  match lookup "args" (fields_of n) with
  | Some (VNode arguments) =>
      if IS_PY2
      then existsb (fun p => match p with
                             | VNode t => reserved_positional t
                             | _ => false
                             end) (field_list arguments "args")
           || reserved_field arguments "vararg"
           || reserved_field arguments "kwarg"
      else existsb reserved_parameter (parameters arguments)
  | _ => false
  end.

(** An imported name, or the name it is imported as, is reserved. *)
Definition reserved_alias (alias : value) : bool :=
  match alias with
  | VNode a => reserved_field a "name" || reserved_field a "asname"
  | _ => false
  end.

(** A node that binds a reserved name: a function or a class of that
    name, a function or a lambda with such a parameter, an import of or
    as such a name and, in 3.x, an exception handler that names the
    exception so. *)
Definition binds_reserved_name `{Compat} (n : node) : bool :=
  let c := cls_of n in
  if (c =? "FunctionDef")%string
  then reserved_field n "name" || reserved_parameters n
  else if (c =? "Lambda")%string then reserved_parameters n
  else if (c =? "ClassDef")%string then reserved_field n "name"
  else if (c =? "Import")%string || (c =? "ImportFrom")%string
  then existsb reserved_alias (field_list n "names")
  else if (c =? "ExceptHandler")%string
  then IS_PY3 && reserved_field n "name"
  else false.

(** ** What the transformer lets through *)

(** A class that the transformer lets through: it has a [visit_] method,
    and the method is not [self.not_allowed(node)]. *)
Definition permitted `{Compat} (c : string) : bool :=
  has_method c && negb (mem c denied_classes).

(** Every class in the tree is permitted. *)
Definition clean `{Compat} (v : value) : bool := all_value permitted v.

(** A method keeps trees clean: when the visit of the contents of its
    node returns clean trees only, so does the method. *)
Definition keeps_clean `{Compat} (m : handler) : Prop :=
  forall (contents : M node) (n : node),
    (forall st n' st', contents st = Ok n' st' -> clean (VNode n') = true) ->
    forall st out st', m contents n st = Ok out st' -> clean out = true.

(** On a tree of the host grammar, [v] returns clean trees only. *)
Definition returns_clean `{Compat} (v : node -> M value) (n : node)
  : Prop :=
  flat_node n = true ->
  forall st out st', v n st = Ok out st' -> clean out = true.

(** An item of a [with] statement that binds a tuple, as in
    [with cm as (a, b)]. *)
Definition binds_tuple (item : value) : bool :=
  match item with
  | VNode i => match lookup "optional_vars" (fields_of i) with
               | Some target => isinstance target "Tuple"
               | None => false
               end
  | _ => false
  end.

Section UnpackStatement.
Context `{Compat}.

(** The statement that unpacks the temporary name [tmp] into [target]:
    [try: target = _unpack_sequence_(tmp, spec, _getiter_)] and
    [finally: del tmp]. *)
Definition unpack_statement (target : value) (spec : node) (tmp : string)
  : node :=
  let unpack :=
    Node "Assign" None None
      [("targets", VList [target]);
       ("value",
        VNode (ast.Call (ast.Name (VStr "_unpack_sequence_") ast.Load)
                 [VNode (ast.Name (VStr tmp) ast.Load); VNode spec;
                  VNode (ast.Name (VStr "_getiter_") ast.Load)] []))] in
  let cleanup :=
    Node "Delete" None None
      [("targets", VList [VNode (ast.Name (VStr tmp) ast.Del)])] in
  if IS_PY2
  then Node "TryFinally" None None
         [("body", VList [VNode unpack]);
          ("finalbody", VList [VNode cleanup])]
  else Node "Try" None None
         [("body", VList [VNode unpack]); ("handlers", VList []);
          ("orelse", VList []); ("finalbody", VList [VNode cleanup])].

(** The items of a [with] statement at line [l], column [o], after the
    visit, and the statements put before its body.  The loop goes from
    the last item to the first; [with_items_guarded k items items' unpacks
    k'] takes the counter of temporary names from [k] to [k'].  An item
    that binds no tuple stays; one that binds the tuple [tpl] binds the
    next temporary name instead, and the statement that unpacks that
    name into [tpl] comes before those of the items behind it. *)
Inductive with_items_guarded (l o : Z)
  : Z -> list value -> list value -> list value -> Z -> Prop :=
| guarded_none (k : Z) : with_items_guarded l o k [] [] [] k
| guarded_keep (k k' : Z) (item : value) (rest rest' unpacks : list value) :
    with_items_guarded l o k rest rest' unpacks k' ->
    binds_tuple item = false ->
    with_items_guarded l o k (item :: rest) (item :: rest') unpacks k'
| guarded_unpack (k k' : Z) (i tpl spec : node)
    (rest rest' unpacks : list value) :
    with_items_guarded l o k rest rest' unpacks k' ->
    lookup "optional_vars" (fields_of i) = Some (VNode tpl) ->
    cls_of tpl = "Tuple" ->
    (forall s, gen_unpack_spec tpl s = Ok spec s) ->
    with_items_guarded l o k (VNode i :: rest)
      (VNode (setattr i "optional_vars"
                (VNode (located l o
                          (ast.Name (VStr ("_tmp" ++ str_of_Z k'))
                             ast.Store))))
       :: rest')
      (VNode (located l o
                (unpack_statement (VNode tpl) spec ("_tmp" ++ str_of_Z k')))
       :: unpacks)
      (k' + 1).
End UnpackStatement.

(** * Verification *)

Unset Implicit Arguments.

(** ** The monad *)

Lemma bind_Ok {A B} (m : M A) (k : A -> M B) st b st' :
  bind m k st = Ok b st' <->
  exists a st1, m st = Ok a st1 /\ k a st1 = Ok b st'.
Proof.
  unfold bind. split.
  - destruct (m st) as [a st1|e st1]; [eauto | discriminate].
  - intros (a & st1 & -> & Hk). exact Hk.
Qed.

Lemma bind_eq {A B} (m : M A) (k : A -> M B) st a st1 :
  m st = Ok a st1 -> bind m k st = k a st1.
Proof. unfold bind. now intros ->. Qed.

Lemma bind_Raise {A B} (m : M A) (k : A -> M B) st e st1 :
  m st = Raise e st1 -> bind m k st = Raise e st1.
Proof. unfold bind. now intros ->. Qed.

Lemma ret_Ok {A} (a b : A) st st' :
  ret a st = Ok b st' -> b = a /\ st' = st.
Proof. unfold ret. intros [= -> ->]. auto. Qed.

Lemma getattr_eq (n : node) f v st :
  lookup f (fields_of n) = Some v -> getattr n f st = Ok v st.
Proof. unfold getattr. now intros ->. Qed.

Lemma getattr_Ok (n : node) f v st st' :
  getattr n f st = Ok v st' -> lookup f (fields_of n) = Some v /\ st' = st.
Proof.
  unfold getattr. destruct (lookup f (fields_of n)); [|discriminate].
  unfold ret. intros [= -> ->]. auto.
Qed.

(** ** The dispatcher *)

Section Dispatcher.
Context `{Compat}.

Lemma visit_unfold (n : node) :
  visit n = match find_method (cls_of n) methods with
            | Some method => method (node_contents_visit visit n) n
            | None => generic_visit n
            end.
Proof. destruct n; reflexivity. Qed.

Lemma visit_method (n : node) (c : string) (m : handler) :
  cls_of n = c -> find_method c methods = Some m ->
  visit n = m (node_contents_visit visit n) n.
Proof. intros <- Hm. rewrite visit_unfold, Hm. reflexivity. Qed.

Lemma visit_no_method (n : node) :
  has_method (cls_of n) = false -> visit n = generic_visit n.
Proof.
  unfold has_method. intros Hm. rewrite visit_unfold.
  destruct (find_method (cls_of n) methods); [discriminate | reflexivity].
Qed.

Lemma visit_without_method (n : node) (st : state) :
  has_method (cls_of n) = false ->
  visit n st =
  Ok VNone
     (mkState
        (errors st ++ [diagnostic n (cls_of n ++ " statements are not allowed.")])
        (warnings st
         ++ [diagnostic n (cls_of n
                           ++ " statement is not known to RestrictedPython")])
        (used_names st) (_tmp_idx st) (print_info st)).
Proof.
  intros Hm. rewrite (visit_no_method _ Hm). reflexivity.
Qed.

(** C1, as the code has it.  A node whose class has no [visit_] method is
    handled by [generic_visit]: it appends exactly one warning,
    "Line L: <Class> statement is not known to RestrictedPython", and
    exactly one error, "Line L: <Class> statements are not allowed.",
    changes nothing else, returns [None] and does not raise. *)
Theorem generic_visit_records_warning_and_error (n : node) (st : state) :
  has_method (cls_of n) = false ->
  visit n st =
  Ok VNone
     (mkState
        (errors st ++ ["Line " ++ format_lineno (lineno_of n) ++ ": "
                       ++ cls_of n ++ " statements are not allowed."])
        (warnings st ++ ["Line " ++ format_lineno (lineno_of n) ++ ": "
                         ++ cls_of n
                         ++ " statement is not known to RestrictedPython"])
        (used_names st) (_tmp_idx st) (print_info st)).
Proof.
  intros Hm. rewrite (visit_no_method _ Hm). reflexivity.
Qed.
End Dispatcher.

Lemma generic_visit_records_warning_and_error_witness :
  @visit python36 (parsed.JoinedStr 1 0 []) init =
  Ok VNone
     (mkState ["Line 1: JoinedStr statements are not allowed."]
              ["Line 1: JoinedStr statement is not known to RestrictedPython"]
              [] 0 (mkPrintInfo false false)).
Proof.
  exact (@generic_visit_records_warning_and_error python36
           (parsed.JoinedStr 1 0 []) init eq_refl).
Defined.

(** C1, as the specification words it, fails: the warning that is recorded
    for a [JoinedStr] node on line 1 is not "Line 1: JoinedStr statement is
    not known", and the error is not "Line 1: JoinedStr statements are not
    allowed" (the code's texts end in " to RestrictedPython" and in "."). *)
Lemma generic_visit_messages_differ :
  @has_method python36 "JoinedStr" = false /\
  exists st',
    @visit python36 (parsed.JoinedStr 1 0 []) init = Ok VNone st' /\
    warnings st' <> ["Line 1: JoinedStr statement is not known"] /\
    errors st' <> ["Line 1: JoinedStr statements are not allowed"].
Proof.
  split; [reflexivity|].
  eexists. split; [reflexivity|]. split; simpl; intros E; discriminate E.
Qed.

(** ** Strings *)

Lemma startswith_spec (s p : string) :
  startswith s p = true <-> exists q, s = p ++ q.
Proof.
  unfold startswith. revert s. induction p as [|a p IH]; intros s; simpl.
  - split; [intros _; now exists s | intros _; destruct s; reflexivity].
  - destruct s as [|b s]; simpl.
    + split; [discriminate | intros [q Hq]; discriminate].
    + destruct (ascii_dec a b) as [->|Hab].
      * rewrite IH. split; intros [q Hq]; exists q; congruence.
      * split; [discriminate | intros [q Hq]; injection Hq as E _; congruence].
Qed.

Lemma substring_all (s : string) : substring 0 (String.length s) s = s.
Proof. induction s as [|a s IH]; simpl; [reflexivity | now rewrite IH]. Qed.

Lemma substring_split (s : string) :
  forall n m, (n + m = String.length s)%nat ->
              s = substring 0 n s ++ substring n m s.
Proof.
  induction s as [|a s IH]; intros n m Hlen; simpl in Hlen.
  - assert (n = 0%nat) by lia. assert (m = 0%nat) by lia. subst. reflexivity.
  - destruct n as [|n]; simpl.
    + simpl in Hlen. subst m. simpl. now rewrite substring_all.
    + f_equal. apply IH. lia.
Qed.

Lemma substring_append (q p : string) :
  substring (String.length q) (String.length p) (q ++ p) = p.
Proof.
  induction q as [|a q IH]; simpl; [apply substring_all | exact IH].
Qed.

Lemma length_append (q p : string) :
  String.length (q ++ p) = (String.length q + String.length p)%nat.
Proof. induction q as [|a q IH]; simpl; [reflexivity | now rewrite IH]. Qed.

Lemma endswith_spec (s p : string) :
  endswith s p = true <-> exists q, s = q ++ p.
Proof.
  unfold endswith. rewrite andb_true_iff, Nat.leb_le, String.eqb_eq. split.
  - intros [Hlen Hsub].
    exists (substring 0 (String.length s - String.length p) s).
    pose proof (substring_split s (String.length s - String.length p)
                  (String.length p)) as Hs.
    rewrite Hsub in Hs. apply Hs. lia.
  - intros [q ->]. rewrite length_append. split; [lia|].
    replace (String.length q + String.length p - String.length p)%nat
      with (String.length q) by lia.
    apply substring_append.
Qed.

(** ** The name policy *)

Lemma reserved_name_iff (name : string) :
  reserved_name name <-> reserved_nameb name = true.
Proof.
  unfold reserved_name, reserved_nameb.
  rewrite !orb_true_iff, andb_true_iff, negb_true_iff, !String.eqb_eq,
    String.eqb_neq, startswith_spec, endswith_spec.
  tauto.
Qed.

Lemma app_one_neq {A} (l : list A) (x : A) : (l ++ [x])%list <> l.
Proof.
  intros E. apply (f_equal (@length A)) in E.
  rewrite length_app in E. simpl in E. lia.
Qed.

(** C5.  [check_name] records an error if and only if the name begins with
    [_] and is not exactly [_], or ends with [__roles__], or is [print] or
    [printed]; it then records exactly one.  [None] is accepted silently.
    [check_name] always returns. *)
Theorem check_name_records_error_iff_reserved
    (n : node) (name : string) (st : state) :
  check_name n VNone st = Ok tt st /\
  exists st',
    check_name n (VStr name) st = Ok tt st' /\
    (reserved_name name <-> exists msg, errors st' = (errors st ++ [msg])%list) /\
    (~ reserved_name name <-> errors st' = errors st).
Proof.
  split; [reflexivity|].
  pose proof (reserved_name_iff name) as Hr.
  unfold reserved_nameb in Hr. unfold check_name.
  cbn [is_none as_str]. unfold bind at 1. cbn [ret].
  destruct (startswith name "_" && negb (name =? "_")%string);
    [|destruct (endswith name "__roles__");
      [|destruct (name =? "printed")%string;
        [|destruct (name =? "print")%string]]];
    cbn [orb] in Hr; rewrite ?orb_true_r in Hr;
    (eexists; split; [reflexivity|]); cbn [errors set_errors].
  1-4: split; [split; [eauto | intros _; now apply Hr]
              | split; [intros G; exfalso; now apply G, Hr
                       | intros G; exfalso; revert G; apply app_one_neq]].
  split; [split; [intros G; apply Hr in G; discriminate
                 | intros [msg G]; exfalso; symmetry in G; revert G;
                   apply app_one_neq]
         | split; [reflexivity | intros _ G; apply Hr in G; discriminate]].
Qed.

(** ** Trees *)

Section NodeInduction.
Variable P : node -> Prop.
Variable Q : value -> Prop.
Hypothesis HNode :
  forall c l o fs, Forall (fun fv => Q (snd fv)) fs -> P (Node c l o fs).
Hypothesis HNone : Q VNone.
Hypothesis HBool : forall b, Q (VBool b).
Hypothesis HInt : forall z, Q (VInt z).
Hypothesis HStr : forall s, Q (VStr s).
Hypothesis HVNode : forall n, P n -> Q (VNode n).
Hypothesis HList : forall l, Forall Q l -> Q (VList l).

Lemma node_value_ind : forall n : node, P n.
Proof.
  exact
    (fix node_rec (n : node) {struct n} : P n :=
       match n with
       | Node c l o fs =>
           HNode c l o fs
             ((fix fields (fs : list (string * value))
                 : Forall (fun fv => Q (snd fv)) fs :=
                 match fs with
                 | [] => Forall_nil _
                 | fv :: rest =>
                     Forall_cons fv (value_rec (snd fv)) (fields rest)
                 end) fs)
       end
     with value_rec (v : value) {struct v} : Q v :=
       match v with
       | VNone => HNone
       | VBool b => HBool b
       | VInt z => HInt z
       | VStr s => HStr s
       | VNode n => HVNode n (node_rec n)
       | VList l =>
           HList l ((fix items (l : list value) : Forall Q l :=
                       match l with
                       | [] => Forall_nil _
                       | x :: rest => Forall_cons x (value_rec x) (items rest)
                       end) l)
       end
     for node_rec).
Qed.
End NodeInduction.

Lemma with_attr_lookup {A} (fs : list (string * value)) f (k : value -> A) d :
  with_attr fs f k d = match lookup f fs with Some v => k v | None => d end.
Proof.
  unfold with_attr. induction fs as [|[g v] fs IH]; [reflexivity|].
  simpl. destruct (g =? f)%string; [reflexivity | exact IH].
Qed.

Lemma lookup_Forall (Q : value -> Prop) fs f v :
  Forall (fun fv => Q (snd fv)) fs -> lookup f fs = Some v -> Q v.
Proof.
  induction 1 as [|[g w] fs Hw _ IH]; simpl; [discriminate|].
  destruct (g =? f)%string; [intros [= <-]; exact Hw | exact IH].
Qed.

Lemma add_errors_nil (st : state) : add_errors st [] = st.
Proof.
  destruct st. unfold add_errors, set_errors. simpl. now rewrite app_nil_r.
Qed.

Lemma add_errors_app (st : state) (a b : list string) :
  add_errors (add_errors st a) b = add_errors st (a ++ b).
Proof.
  unfold add_errors, set_errors. simpl. now rewrite app_assoc.
Qed.

Lemma error_eq (n : node) (info : string) (st : state) :
  error n info st = Ok tt (add_errors st [diagnostic n info]).
Proof. reflexivity. Qed.

(** ** The traversal of the base class *)

Section Traversal.
Variable visit : node -> M value.

Lemma visit_fields_atom fs st fs' st' f v :
  visit_fields visit fs st = Ok fs' st' ->
  lookup f fs = Some v -> atom v = true -> lookup f fs' = Some v.
Proof.
  revert st fs'. induction fs as [|[g w] fs IH]; intros st fs'; simpl;
    [discriminate|].
  intros Hv Hl Ha.
  destruct w; try (apply bind_Ok in Hv as (a1 & s1 & H1 & Hv));
    try (apply bind_Ok in Hv as (a2 & s2 & H2 & Hv));
    injection Hv as <- <-.
  1-4: simpl; destruct (g =? f)%string; [exact Hl | eauto].
  - destruct (g =? f)%string eqn:E.
    + injection Hl as <-. discriminate.
    + destruct (is_none a1); simpl; rewrite ?E; eauto.
  - simpl. destruct (g =? f)%string eqn:E.
    + injection Hl as <-. discriminate.
    + eauto.
Qed.

Lemma node_contents_visit_Ok n st n' st' :
  node_contents_visit visit n st = Ok n' st' ->
  cls_of n' = cls_of n /\ lineno_of n' = lineno_of n
  /\ col_offset_of n' = col_offset_of n
  /\ visit_fields visit (fields_of n) st = Ok (fields_of n') st'.
Proof.
  destruct n as [c l o fs]. unfold node_contents_visit.
  intros Hv. apply bind_Ok in Hv as (fs' & s1 & H1 & Hv).
  injection Hv as <- <-. simpl. auto.
Qed.

(** A child for which [visit] returns [None] is dropped from its list, and
    deleted as an attribute. *)
Lemma visit_list_drops_None child rest st st1 :
  visit child st = Ok VNone st1 ->
  visit_list visit (VNode child :: rest) st = visit_list visit rest st1.
Proof. intros Hv. simpl. unfold bind at 1. now rewrite Hv. Qed.

Lemma visit_fields_deletes_None f child rest st st1 :
  visit child st = Ok VNone st1 ->
  visit_fields visit ((f, VNode child) :: rest) st
  = visit_fields visit rest st1.
Proof.
  intros Hv. simpl. unfold bind at 1. rewrite Hv. unfold bind, ret. simpl.
  destruct (visit_fields visit rest st1); reflexivity.
Qed.

Lemma node_contents_visit_atom n st n' st' f v :
  node_contents_visit visit n st = Ok n' st' ->
  lookup f (fields_of n) = Some v -> atom v = true ->
  lookup f (fields_of n') = Some v.
Proof.
  intros Hv. apply node_contents_visit_Ok in Hv as (_ & _ & _ & Hv).
  eapply visit_fields_atom; eauto.
Qed.
End Traversal.

(** ** Attribute access *)

Section AttributeAccess.
Context `{Compat}.

Lemma visit_Attribute_eq (n : node) :
  cls_of n = "Attribute" ->
  visit n = visit_Attribute (node_contents_visit visit n) n.
Proof. intros Hc. now apply (visit_method n _ _ Hc). Qed.

(** What [visit_Attribute] does before it looks at the context. *)
Lemma visit_Attribute_name_check (n : node) (a : string) (st : state) :
  cls_of n = "Attribute" ->
  lookup "attr" (fields_of n) = Some (VStr a) ->
  visit n st =
  (ctx <- getattr n "ctx" ;;
   if isinstance ctx "Load" then
     n <- node_contents_visit visit n ;;
     v <- getattr n "value" ;;
     attr <- getattr n "attr" ;;
     new_node <- copy_locations
                   (ast.Call (ast.Name (VStr "_getattr_") ast.Load)
                      [v; VNode (ast.Str attr)] []) n ;;
     ret (VNode new_node)
   else if isinstance ctx "Store" || isinstance ctx "Del" then
     n <- node_contents_visit visit n ;;
     v <- getattr n "value" ;;
     new_value <- copy_locations_from
                    (ast.Call (ast.Name (VStr "_write_") ast.Load) [v] []) v ;;
     ret (VNode (setattr n "value" new_value))
   else
     n <- node_contents_visit visit n ;; ret (VNode n))
    (add_errors st (attribute_name_errors n a)).
Proof.
  intros Hc Ha. rewrite (visit_Attribute_eq n Hc). unfold visit_Attribute.
  rewrite (bind_eq _ _ _ _ _ (getattr_eq n "attr" _ st Ha)).
  cbn [as_str]. unfold bind at 1. cbn [ret].
  unfold attribute_name_errors.
  destruct (startswith a "_" && negb (a =? "_")%string);
    destruct (endswith a "__roles__");
    unfold bind at 1; rewrite ?error_eq; cbn [ret];
    unfold bind at 1; rewrite ?error_eq; cbn [ret];
    rewrite ?add_errors_app, ?add_errors_nil; reflexivity.
Qed.


(** C9, as amended.  The attribute name [_] is exempt from the name check
    of [visit_Attribute]: visiting [obj._] leaves the transformer in the
    state in which visiting the children of the node alone leaves it, so
    no error is recorded for the name, in any context. *)
Theorem visit_Attribute_underscore_records_nothing
    (n : node) (ctx : value) (st : state) :
  cls_of n = "Attribute" ->
  lookup "attr" (fields_of n) = Some (VStr "_") ->
  lookup "ctx" (fields_of n) = Some ctx ->
  state_of (visit n st) = state_of (node_contents_visit visit n st).
Proof.
  intros Hc Ha Hctx.
  rewrite (visit_Attribute_name_check n _ st Hc Ha).
  change (attribute_name_errors n "_") with (@nil string).
  rewrite add_errors_nil.
  rewrite (bind_eq _ _ _ _ _ (getattr_eq n "ctx" _ _ Hctx)).
  destruct (isinstance ctx "Load");
    [|destruct (isinstance ctx "Store" || isinstance ctx "Del")];
    unfold bind at 1;
    (destruct (node_contents_visit visit n st) as [n' st1|e st1];
     [|reflexivity]).
  - unfold bind, getattr, copy_locations, ret, raise.
    destruct (lookup "value" (fields_of n')); [|reflexivity].
    destruct (lookup "attr" (fields_of n')); [|reflexivity].
    cbn [negb cls_of ast.Call]. 
    destruct (has_location "Call"); cbn [negb]; [|reflexivity].
    destruct (lineno_of n'); [|reflexivity].
    destruct (col_offset_of n'); reflexivity.
  - unfold bind, getattr, copy_locations_from, copy_locations, ret, raise.
    destruct (lookup "value" (fields_of n')) as [v|]; [|reflexivity].
    destruct v; try reflexivity.
    destruct (has_location _); cbn [negb]; [|reflexivity].
    destruct (lineno_of n0); [|reflexivity].
    destruct (col_offset_of n0); reflexivity.
  - reflexivity.
Qed.
End AttributeAccess.



Lemma visit_Attribute_underscore_records_nothing_witness :
  state_of (@visit python36
              (parsed.Attribute 1 0 (parsed.Name 1 0 "obj" "Load") "_" "Load")
              init) =
  mkState [] [] [Some "obj"] 0 (mkPrintInfo false false).
Proof.
  exact (@visit_Attribute_underscore_records_nothing python36
           (parsed.Attribute 1 0 (parsed.Name 1 0 "obj" "Load") "_" "Load")
           (parsed.ctx "Load") init eq_refl eq_refl eq_refl).
Defined.

(** Two places where the call that replaced a visited attribute read does
    not end up once in the output.  In 2.x the read [a.b] of
    [print >> a.b, x] is wrapped once, but [gen_attr_check] uses the
    wrapped destination twice: with the check of [write] the output has
    three calls of [_getattr_].  In 3.x the read of [class A(x=a.b): pass]
    is wrapped and then lost, because [visit_ClassDef] does not copy the
    keywords of the class; no error is recorded. *)
Example print_destination_used_twice :
  exists out st',
    @visit python27
      (Node "Print" (Some 1) (Some 0)
         [("dest", VNode (parsed.Attribute 1 9 (parsed.Name 1 9 "a" "Load")
                            "b" "Load"));
          ("values", VList [VNode (parsed.Name 1 14 "x" "Load")]);
          ("nl", VBool true)]) init = Ok (VNode out) st' /\
    count_node (is_call_of "_getattr_") out = 3%nat.
Proof. do 2 eexists. split; reflexivity. Qed.

Example class_keywords_not_copied :
  exists out st',
    @visit python36
      (Node "ClassDef" (Some 1) (Some 0)
         [("name", VStr "A"); ("bases", VList []);
          ("keywords",
           VList [VNode (ast.keyword (VStr "x")
                           (VNode (parsed.Attribute 1 10
                                     (parsed.Name 1 10 "a" "Load")
                                     "b" "Load")))]);
          ("body", VList [VNode (Node "Pass" (Some 2) (Some 4) [])]);
          ("decorator_list", VList [])]) init = Ok (VNode out) st' /\
    count_node (is_call_of "_getattr_") out = 0%nat /\ errors st' = [].
Proof. do 2 eexists. repeat split. Qed.

(** C9, as the specification words it, fails: visiting [obj._] records no
    error at all. *)
Lemma attribute_underscore_not_rejected :
  exists out st',
    @visit python36
      (parsed.Attribute 1 0 (parsed.Name 1 0 "obj" "Load") "_" "Load") init
    = Ok out st' /\ errors st' = [].
Proof. do 2 eexists. split; reflexivity. Qed.

(** ** Subscripts and slices *)

Section Subscripts.
Context `{Compat}.

(** [gen_none_node] builds the none literal, on every host. *)
Lemma gen_none_node_literal : gen_none_node = none_literal.
Proof. unfold gen_none_node, none_literal. destruct IS_PY34_OR_GREATER; reflexivity. Qed.

Lemma transform_slice_Slice (s : node) (lower upper step : option node)
    (st : state) :
  cls_of s = "Slice" ->
  lookup "lower" (fields_of s) = Some (optional lower) ->
  lookup "upper" (fields_of s) = Some (optional upper) ->
  lookup "step" (fields_of s) = Some (optional step) ->
  transform_slice (VNode s) st =
  Ok (VNode (ast.Call (ast.Name (VStr "slice") ast.Load)
               [or_none_literal lower; or_none_literal upper;
                or_none_literal step] [])) st.
Proof.
  destruct s as [c l o fs]. simpl. intros -> Hl Hu Hs.
  unfold bind, getattr. simpl. rewrite Hl, Hu, Hs.
  rewrite gen_none_node_literal.
  destruct lower, upper, step; reflexivity.
Qed.

(** C7.  A subscript read whose slice is a [Slice] is replaced by
    [_getitem_(obj, slice(a, b, c))], at the position of the subscript;
    [obj], [a], [b] and [c] are the transformed children and a missing
    bound is the none literal: the constant [None] from 3.4 on, the name
    [None] before.  So [a[:]] becomes
    [_getitem_(a, slice(None, None, None))] on every host. *)
Theorem visit_Subscript_slice_read
    (n n' s : node) (ctx obj : value) (lower upper step : option node)
    (l o : Z) (st st' : state) :
  cls_of n = "Subscript" ->
  lineno_of n = Some l -> col_offset_of n = Some o ->
  node_contents_visit visit n st = Ok n' st' ->
  lookup "ctx" (fields_of n') = Some ctx ->
  isinstance ctx "Load" = true ->
  lookup "value" (fields_of n') = Some obj ->
  lookup "slice" (fields_of n') = Some (VNode s) ->
  cls_of s = "Slice" ->
  lookup "lower" (fields_of s) = Some (optional lower) ->
  lookup "upper" (fields_of s) = Some (optional upper) ->
  lookup "step" (fields_of s) = Some (optional step) ->
  visit n st =
  Ok (VNode (located l o
               (ast.Call (ast.Name (VStr "_getitem_") ast.Load)
                  [obj;
                   VNode (ast.Call (ast.Name (VStr "slice") ast.Load)
                            [or_none_literal lower; or_none_literal upper;
                             or_none_literal step] [])] []))) st'.
Proof.
  intros Hc Hl Ho Hn Hctx Hload Hv Hs Hcs Hlo Hup Hst.
  rewrite (visit_method n "Subscript" visit_Subscript Hc eq_refl).
  unfold visit_Subscript.
  rewrite (bind_eq _ _ _ _ _ Hn).
  rewrite (bind_eq _ _ _ _ _ (getattr_eq n' "ctx" _ _ Hctx)), Hload.
  rewrite (bind_eq _ _ _ _ _ (getattr_eq n' "value" _ _ Hv)).
  rewrite (bind_eq _ _ _ _ _ (getattr_eq n' "slice" _ _ Hs)).
  rewrite (bind_eq _ _ _ _ _
             (transform_slice_Slice s lower upper step st' Hcs Hlo Hup Hst)).
  apply node_contents_visit_Ok in Hn as (_ & Hl' & Ho' & _).
  unfold copy_locations. rewrite Hl', Ho', Hl, Ho. reflexivity.
Qed.
End Subscripts.

Lemma visit_Subscript_slice_read_witness :
  @visit python36
    (parsed.Subscript 1 0 (parsed.Name 1 0 "a" "Load")
       (parsed.Slice VNone VNone VNone) "Load") init =
  Ok (VNode
        (Node "Call" (Some 1) (Some 0)
           [("func", VNode (parsed.Name 1 0 "_getitem_" "Load"));
            ("args",
             VList [VNode (parsed.Name 1 0 "a" "Load");
                    VNode (Node "Call" (Some 1) (Some 0)
                      [("func", VNode (parsed.Name 1 0 "slice" "Load"));
                       ("args",
                        VList [VNode (Node "NameConstant" (Some 1) (Some 0)
                                        [("value", VNone)]);
                               VNode (Node "NameConstant" (Some 1) (Some 0)
                                        [("value", VNone)]);
                               VNode (Node "NameConstant" (Some 1) (Some 0)
                                        [("value", VNone)])]);
                       ("keywords", VList [])])]);
            ("keywords", VList [])]))
     (mkState [] [] [Some "a"] 0 (mkPrintInfo false false)).
Proof.
  exact (@visit_Subscript_slice_read python36
           (parsed.Subscript 1 0 (parsed.Name 1 0 "a" "Load")
              (parsed.Slice VNone VNone VNone) "Load")
           (parsed.Subscript 1 0 (parsed.Name 1 0 "a" "Load")
              (parsed.Slice VNone VNone VNone) "Load")
           (parsed.Slice VNone VNone VNone)
           (parsed.ctx "Load") (VNode (parsed.Name 1 0 "a" "Load"))
           None None None 1 0
           init (mkState [] [] [Some "a"] 0 (mkPrintInfo false false))
           eq_refl eq_refl eq_refl eq_refl eq_refl eq_refl eq_refl eq_refl
           eq_refl eq_refl eq_refl eq_refl).
Defined.

(** The same slice [a[:]] on 2.7, where [None] is a name. *)
Example boundless_slice_read_before_34 :
  @visit python27
    (parsed.Subscript 1 0 (parsed.Name 1 0 "a" "Load")
       (parsed.Slice VNone VNone VNone) "Load") init =
  Ok (VNode
        (Node "Call" (Some 1) (Some 0)
           [("func", VNode (parsed.Name 1 0 "_getitem_" "Load"));
            ("args",
             VList [VNode (parsed.Name 1 0 "a" "Load");
                    VNode (Node "Call" (Some 1) (Some 0)
                      [("func", VNode (parsed.Name 1 0 "slice" "Load"));
                       ("args",
                        VList [VNode (parsed.Name 1 0 "None" "Load");
                               VNode (parsed.Name 1 0 "None" "Load");
                               VNode (parsed.Name 1 0 "None" "Load")]);
                       ("keywords", VList [])])]);
            ("keywords", VList [])]))
     (mkState [] [] [Some "a"] 0 (mkPrintInfo false false)).
Proof. reflexivity. Qed.

(** ** Augmented assignment *)

Section AugmentedAssignment.
Context `{Compat}.

Lemma operator_token_in_table (c token : string) :
  In (c, token) operator_tokens ->
  dict_get c IOPERATOR_TO_STR = Some token.
Proof.
  unfold operator_tokens, IOPERATOR_TO_STR. simpl.
  intros Hin.
  repeat (destruct Hin as [[= <- <-]|Hin]; [reflexivity|]).
  destruct Hin.
Qed.

(** X30.  After the children of [target op= value] are visited: an
    attribute target records the error "Line L: Augmented assignment of
    attributes is not allowed." and the statement is returned as the
    visit of its children left it; a subscript target records "Line L:
    Augmented assignment of object items and slices is not allowed." and
    the statement is returned likewise; a name target, with one of the
    twelve operators other than [@=], makes the statement the assignment
    [target = _inplacevar_("op=", target, value)] at its position, and
    records nothing. *)
Theorem visit_AugAssign_by_target
    (n n' t : node) (st st' : state) :
  cls_of n = "AugAssign" ->
  node_contents_visit visit n st = Ok n' st' ->
  lookup "target" (fields_of n') = Some (VNode t) ->
  (cls_of t = "Attribute" ->
   visit n st =
   Ok (VNode n')
      (add_errors st'
         ["Line " ++ format_lineno (lineno_of n) ++ ": "
          ++ "Augmented assignment of attributes is not allowed."]))
  /\
  (cls_of t = "Subscript" ->
   visit n st =
   Ok (VNode n')
      (add_errors st'
         ["Line " ++ format_lineno (lineno_of n) ++ ": "
          ++ "Augmented assignment of object items and slices is not allowed."]))
  /\
  (cls_of t = "Name" ->
   forall (op : node) (token : string) (id v : value) (l o : Z),
     lookup "op" (fields_of n') = Some (VNode op) ->
     In (cls_of op, token) operator_tokens ->
     lookup "id" (fields_of t) = Some id ->
     lookup "value" (fields_of n') = Some v ->
     lineno_of n = Some l -> col_offset_of n = Some o ->
     visit n st =
     Ok (VNode (located l o
                  (ast.Assign [VNode t]
                     (VNode (ast.Call
                               (ast.Name (VStr "_inplacevar_") ast.Load)
                               [VNode (ast.Str (VStr token));
                                VNode (ast.Name id ast.Load); v] [])))))
        st').
Proof.
  intros Hc Hn Ht.
  rewrite (visit_method n "AugAssign" visit_AugAssign Hc eq_refl).
  unfold visit_AugAssign.
  rewrite (bind_eq _ _ _ _ _ Hn).
  rewrite (bind_eq _ _ _ _ _ (getattr_eq n' "target" _ _ Ht)).
  pose proof (node_contents_visit_Ok _ _ _ _ _ Hn) as (_ & Hl' & Ho' & _).
  unfold isinstance.
  split; [|split]; intros Hct; rewrite Hct; cbn [String.eqb Ascii.eqb Bool.eqb].
  - unfold bind at 1. rewrite error_eq. unfold diagnostic. rewrite Hl'.
    reflexivity.
  - unfold bind at 1. rewrite error_eq. unfold diagnostic. rewrite Hl'.
    reflexivity.
  - intros op token id v l o Hop Htok Hid Hv Hl Ho.
    rewrite (bind_eq _ _ _ _ _ (getattr_eq n' "op" _ _ Hop)).
    rewrite (operator_token_in_table _ _ Htok).
    unfold bind at 1. cbn [ret]. unfold getattr_of.
    rewrite (bind_eq _ _ _ _ _ (getattr_eq t "id" _ _ Hid)).
    rewrite (bind_eq _ _ _ _ _ (getattr_eq n' "value" _ _ Hv)).
    unfold copy_locations. rewrite Hl', Ho', Hl, Ho. reflexivity.
Qed.
End AugmentedAssignment.

Lemma visit_AugAssign_by_target_witness :
  @visit python36
    (parsed.AugAssign 1 0 (parsed.Name 1 0 "n" "Store") "Add"
       (parsed.Num 1 5 1)) init =
  Ok (VNode
        (Node "Assign" (Some 1) (Some 0)
           [("targets", VList [VNode (parsed.Name 1 0 "n" "Store")]);
            ("value",
             VNode (Node "Call" (Some 1) (Some 0)
               [("func", VNode (parsed.Name 1 0 "_inplacevar_" "Load"));
                ("args",
                 VList [VNode (Node "Str" (Some 1) (Some 0)
                                 [("s", VStr "+=")]);
                        VNode (parsed.Name 1 0 "n" "Load");
                        VNode (parsed.Num 1 5 1)]);
                ("keywords", VList [])]))])) init.
Proof.
  exact (proj2 (proj2
           (@visit_AugAssign_by_target python36
              (parsed.AugAssign 1 0 (parsed.Name 1 0 "n" "Store") "Add"
                 (parsed.Num 1 5 1))
              (parsed.AugAssign 1 0 (parsed.Name 1 0 "n" "Store") "Add"
                 (parsed.Num 1 5 1))
              (parsed.Name 1 0 "n" "Store") init init
              eq_refl eq_refl eq_refl))
           eq_refl (Node "Add" None None []) "+=" (VStr "n")
           (VNode (parsed.Num 1 5 1)) 1 0
           eq_refl (or_introl eq_refl) eq_refl eq_refl eq_refl eq_refl).
Defined.

(** C6, where the code fails it: the statement [x @= 1] of 3.5 has a name
    target, and is not rewritten to [x = _inplacevar_("@=", x, 1)].  The
    operator has its token in [IOPERATOR_TO_STR], but [visit_MatMult]
    rejects the operator node, the traversal deletes the attribute [op]
    of the statement, and [visit_AugAssign] raises when it reads it. *)
Theorem augmented_matmult_raises :
  @visit python36
    (parsed.AugAssign 1 0 (parsed.Name 1 0 "x" "Store") "MatMult"
       (parsed.Num 1 5 1)) init =
  Raise (AttributeError "op")
    (mkState ["Line None: MatMult statements are not allowed."] [] [] 0
       (mkPrintInfo false false)).
Proof. reflexivity. Qed.

(** ** The unpack spec *)

Lemma node_children_ind (P : node -> Prop) :
  (forall c l o fs,
     Forall (fun fv => on_children P (snd fv)) fs -> P (Node c l o fs)) ->
  forall n, P n.
Proof.
  intros Hstep.
  apply (node_value_ind P (on_children P)); simpl; auto.
  intros l Hl. induction Hl as [|x l Hx _ IH]; constructor; [|exact IH].
  destruct x; simpl in *; auto.
Qed.

Lemma sequence_target_unfold (tpl : node) :
  sequence_target tpl =
  match lookup "elts" (fields_of tpl) with
  | Some (VList elts) =>
      forallb (fun val =>
                 match val with
                 | VNode t => if (cls_of t =? "Tuple")%string
                              then sequence_target t else true
                 | _ => true
                 end) elts
  | _ => false
  end.
Proof.
  destruct tpl as [c l o fs]. simpl. rewrite with_attr_lookup.
  destruct (lookup "elts" fs) as [[]|]; reflexivity.
Qed.

Section UnpackSpec.
Context `{Compat}.

Lemma gen_unpack_spec_unfold (tpl : node) :
  gen_unpack_spec tpl =
  match lookup "elts" (fields_of tpl) with
  | Some (VList elts) =>
      childs <- unpack_children gen_unpack_spec (count_unstarred elts)
                  elts 0 0 ;;
      ret (ast.Dict
             [VNode (ast.Str (VStr "childs"));
              VNode (ast.Str (VStr "min_len"))]
             [VNode (ast.Tuple childs ast.Load);
              VNode (ast.Num (count_unstarred elts))])
  | Some _ => raise TypeError
  | None => raise (AttributeError "elts")
  end.
Proof.
  destruct tpl as [c l o fs]. simpl. rewrite with_attr_lookup.
  destruct (lookup "elts" fs) as [[]|]; reflexivity.
Qed.

Lemma is_starred_Tuple (v : value) :
  isinstance v "Tuple" = true -> is_starred v = false.
Proof.
  unfold is_starred, isinstance. destruct v; try discriminate.
  intros E. apply String.eqb_eq in E. rewrite E.
  destruct IS_PY3; reflexivity.
Qed.

(** The loop of [gen_unpack_spec], started after the elements [pre]. *)
Lemma unpack_children_records (gen : node -> M node) (m : Z) :
  forall suf pre,
    Forall (fun v => forall t, v = VNode t -> cls_of t = "Tuple" ->
              exists sub, forall st, gen t st = Ok sub st) suf ->
    exists childs,
      (forall st,
         unpack_children gen m suf (Z.of_nat (length pre))
           (if existsb is_starred pre then m + 1 else 0) st
         = Ok childs st) /\
      Forall2
        (fun i child =>
           exists t sub,
             nth_error (pre ++ suf) i = Some (VNode t) /\
             (forall st, gen t st = Ok sub st) /\
             child =
             VNode (ast.Tuple
                      [VNode (ast.Num
                                (Z.of_nat i
                                 - (if existsb is_starred
                                         (firstn i (pre ++ suf))
                                    then m + 1 else 0)));
                       VNode sub] ast.Load))
        (filter (fun i => match nth_error (pre ++ suf) i with
                          | Some v => isinstance v "Tuple"
                          | None => false
                          end)
                (seq (length pre) (length suf)))
        childs.
Proof.
  induction suf as [|val rest IH]; intros pre Hgen.
  - exists []. split; [reflexivity | constructor].
  - inversion Hgen as [|? ? Hval Hrest]; subst.
    specialize (IH (pre ++ [val])%list Hrest).
    rewrite <- app_assoc in IH. simpl app in IH.
    rewrite length_app in IH. simpl length in IH.
    rewrite Nat.add_1_r in IH.
    rewrite existsb_app in IH. simpl existsb in IH.
    rewrite orb_false_r in IH.
    replace (Z.of_nat (S (length pre))) with (Z.of_nat (length pre) + 1)
      in IH by lia.
    destruct IH as (childs & Hrun & Hrec).
    assert (Hnth : nth_error (pre ++ val :: rest) (length pre) = Some val).
    { rewrite nth_error_app2 by lia. now rewrite Nat.sub_diag. }
    assert (Hfirst : firstn (length pre) (pre ++ val :: rest) = pre).
    { rewrite firstn_app, Nat.sub_diag, firstn_all. simpl.
      now rewrite app_nil_r. }
    simpl seq. simpl filter. rewrite Hnth.
    destruct (isinstance val "Tuple") eqn:Etuple.
    + pose proof (is_starred_Tuple val Etuple) as Est.
      destruct val as [| | | |t|]; try discriminate.
      assert (Hc : cls_of t = "Tuple") by now apply String.eqb_eq.
      destruct (Hval t eq_refl Hc) as (sub & Hsub).
      rewrite Est, orb_false_r in Hrun.
      eexists. split.
      * intros st. simpl unpack_children. rewrite Est.
        unfold isinstance in Etuple. rewrite Etuple.
        rewrite (bind_eq _ _ _ _ _ (Hsub st)).
        rewrite (bind_eq _ _ _ _ _ (Hrun st)). reflexivity.
      * constructor; [|exact Hrec].
        exists t, sub. rewrite Hfirst. auto.
    + exists childs. split; [|exact Hrec].
      intros st. simpl unpack_children.
      destruct (is_starred val) eqn:Est.
      * rewrite orb_true_r in Hrun. apply Hrun.
      * rewrite orb_false_r in Hrun.
        destruct val as [| | | |t|]; try apply Hrun.
        unfold isinstance in Etuple. rewrite Etuple. apply Hrun.
Qed.

(** [gen_unpack_spec] returns on every sequence target, and neither
    reads nor changes the state of the transformer. *)
Lemma gen_unpack_spec_total (tpl : node) :
  sequence_target tpl = true ->
  exists spec, forall st, gen_unpack_spec tpl st = Ok spec st.
Proof.
  induction tpl as [c l o fs IH] using node_children_ind.
  rewrite sequence_target_unfold. simpl fields_of.
  destruct (lookup "elts" fs) as [[| | | | |elts]|] eqn:Hl; try discriminate.
  intros Hseq.
  pose proof (lookup_Forall (on_children _) fs "elts" _ IH Hl) as IHelts.
  simpl in IHelts. clear IH. rename IHelts into IH.
  destruct (unpack_children_records gen_unpack_spec (count_unstarred elts)
              elts []) as (childs & Hrun & _).
  { rewrite forallb_forall in Hseq. rewrite Forall_forall in IH |- *.
    intros v Hin t -> Hc. apply (IH _ Hin).
    specialize (Hseq _ Hin). simpl in Hseq. now rewrite Hc in Hseq. }
  eexists. intros st. simpl in Hrun.
  rewrite gen_unpack_spec_unfold.
  change (fields_of (Node c l o fs)) with fs. rewrite Hl.
  rewrite (bind_eq _ _ _ _ _ (Hrun st)). reflexivity.
Qed.
End UnpackSpec.

Lemma filter_partition_length {A} (f : A -> bool) (l : list A) :
  (length (filter f l) + length (filter (fun x => negb (f x)) l))%nat
  = length l.
Proof.
  induction l as [|x l IH]; [reflexivity|].
  simpl. destruct (f x); simpl; lia.
Qed.

Lemma existsb_ext_in {A} (f g : A -> bool) (l : list A) :
  (forall x, In x l -> f x = g x) -> existsb f l = existsb g l.
Proof.
  induction l as [|x l IH]; [reflexivity|].
  intros Hfg. simpl. rewrite (Hfg x (or_introl eq_refl)).
  rewrite IH; [reflexivity|]. intros y Hy. apply Hfg. now right.
Qed.

Lemma firstn_In {A} (x : A) (i : nat) (l : list A) :
  In x (firstn i l) -> In x l.
Proof.
  revert l. induction i as [|i IH]; intros [|y l]; simpl; try tauto.
  intros [->|Hin]; [now left | right; now apply IH].
Qed.

Section UnpackSpecShape.
Context `{Compat}.

Lemma is_starred_Starred (elts : list value) :
  IS_PY3 = true \/ existsb (fun v => isinstance v "Starred") elts = false ->
  forall v, In v elts -> is_starred v = isinstance v "Starred".
Proof.
  unfold is_starred. intros [->|Hno] v Hin; [reflexivity|].
  destruct IS_PY3; [reflexivity|].
  symmetry. destruct (isinstance v "Starred") eqn:E; [|reflexivity].
  assert (existsb (fun v => isinstance v "Starred") elts = true)
    by (apply existsb_exists; eauto).
  congruence.
Qed.

(** C3.  For a sequence target with the elements [elts], the unpack spec
    is the mapping with [min_len], the number of elements that are not
    starred, and with one child record for each element that is itself a
    sequence target, in order, and none for the other elements.  The
    record of the element at index [i] holds the index [i - offset] and
    the spec of the element; [offset] is 0 before any starred element
    and [min_len + 1] after one.  When the target has one starred
    element, that is the index [i - len(elts)], from the end.  (In 2.x
    [is_starred] knows no starred element, and the grammar has none.) *)
Theorem gen_unpack_spec_child_records
    (tpl : node) (elts : list value) (st : state) :
  lookup "elts" (fields_of tpl) = Some (VList elts) ->
  sequence_target tpl = true ->
  IS_PY3 = true \/ existsb (fun v => isinstance v "Starred") elts = false ->
  exists childs,
    gen_unpack_spec tpl st =
    Ok (ast.Dict
          [VNode (ast.Str (VStr "childs")); VNode (ast.Str (VStr "min_len"))]
          [VNode (ast.Tuple childs ast.Load);
           VNode (ast.Num (min_len_spec elts))]) st
    /\ Forall2
         (fun i child =>
            exists t sub,
              nth_error elts i = Some (VNode t) /\
              gen_unpack_spec t st = Ok sub st /\
              child =
              VNode (ast.Tuple
                       [VNode (ast.Num (Z.of_nat i - offset_spec elts i));
                        VNode sub] ast.Load))
         (child_positions elts) childs
    /\ (forall i,
          In i (child_positions elts) ->
          existsb (fun v => isinstance v "Starred") (firstn i elts) = true ->
          length (filter (fun v => isinstance v "Starred") elts) = 1%nat ->
          offset_spec elts i = Z.of_nat (length elts)
          /\ Z.of_nat i - offset_spec elts i < 0).
Proof.
  intros Hl Hseq Hpy.
  pose proof (is_starred_Starred elts Hpy) as Hst.
  assert (Hmin : count_unstarred elts = min_len_spec elts).
  { unfold count_unstarred, min_len_spec. f_equal. f_equal.
    apply filter_ext_in. intros v Hin. now rewrite (Hst v Hin). }
  destruct (unpack_children_records gen_unpack_spec (count_unstarred elts)
              elts []) as (childs & Hrun & Hrec).
  { rewrite sequence_target_unfold, Hl in Hseq.
    rewrite forallb_forall in Hseq. apply Forall_forall.
    intros v Hin t -> Hc. apply gen_unpack_spec_total.
    specialize (Hseq _ Hin). simpl in Hseq. now rewrite Hc in Hseq. }
  simpl in Hrun, Hrec.
  exists childs. split; [|split].
  - rewrite gen_unpack_spec_unfold, Hl.
    rewrite (bind_eq _ _ _ _ _ (Hrun st)). now rewrite Hmin.
  - unfold child_positions, is_child_position.
    revert Hrec. apply Forall2_impl.
    intros i child (t & sub & Hn & Hsub & ->).
    exists t, sub. split; [exact Hn|]. split; [apply Hsub|].
    unfold offset_spec. rewrite <- Hmin.
    rewrite (existsb_ext_in is_starred (fun v => isinstance v "Starred"));
      [reflexivity|].
    intros v Hin. apply Hst. now apply firstn_In in Hin.
  - intros i Hin Hbefore Hone.
    unfold child_positions in Hin. apply filter_In in Hin as [Hin _].
    apply in_seq in Hin.
    unfold offset_spec. rewrite Hbefore. unfold min_len_spec.
    pose proof (filter_partition_length
                  (fun v => isinstance v "Starred") elts) as Hlen.
    rewrite Hone in Hlen. lia.
Qed.

(** C4, as amended.  The unpack spec of a sequence target is a [Dict]
    literal whose keys are exactly the strings "childs" and "min_len",
    in this order. *)
Theorem gen_unpack_spec_keys (tpl : node) (st : state) :
  sequence_target tpl = true ->
  exists spec,
    gen_unpack_spec tpl st = Ok spec st /\
    cls_of spec = "Dict" /\
    lookup "keys" (fields_of spec) =
    Some (VList [VNode (ast.Str (VStr "childs"));
                 VNode (ast.Str (VStr "min_len"))]).
Proof.
  intros Hseq.
  destruct (gen_unpack_spec_total tpl Hseq) as (spec & Hspec).
  exists spec. split; [apply Hspec|].
  specialize (Hspec st). rewrite gen_unpack_spec_unfold in Hspec.
  destruct (lookup "elts" (fields_of tpl)) as [[| | | | |elts]|];
    try discriminate.
  apply bind_Ok in Hspec as (childs & st1 & _ & Hret).
  injection Hret as <- _. split; reflexivity.
Qed.
End UnpackSpecShape.

(** The target [a, *b, (c, d)] of 3.x: [min_len] is 2 and the nested tuple
    has the child record with index -1. *)
Lemma gen_unpack_spec_child_records_witness :
  exists childs,
    @gen_unpack_spec python36
      (parsed.Tuple 1 0
         [VNode (parsed.Name 1 0 "a" "Store");
          VNode (parsed.Starred 1 3 (parsed.Name 1 4 "b" "Store") "Store");
          VNode (parsed.Tuple 1 7
                   [VNode (parsed.Name 1 8 "c" "Store");
                    VNode (parsed.Name 1 11 "d" "Store")] "Store")]
         "Store") init =
    Ok (ast.Dict
          [VNode (ast.Str (VStr "childs")); VNode (ast.Str (VStr "min_len"))]
          [VNode (ast.Tuple childs ast.Load); VNode (ast.Num 2)]) init
    /\ childs =
       [VNode (ast.Tuple
                 [VNode (ast.Num (-1));
                  VNode (ast.Dict
                           [VNode (ast.Str (VStr "childs"));
                            VNode (ast.Str (VStr "min_len"))]
                           [VNode (ast.Tuple [] ast.Load);
                            VNode (ast.Num 2)])] ast.Load)].
Proof.
  destruct (@gen_unpack_spec_child_records python36
              (parsed.Tuple 1 0
                 [VNode (parsed.Name 1 0 "a" "Store");
                  VNode (parsed.Starred 1 3 (parsed.Name 1 4 "b" "Store")
                           "Store");
                  VNode (parsed.Tuple 1 7
                           [VNode (parsed.Name 1 8 "c" "Store");
                            VNode (parsed.Name 1 11 "d" "Store")] "Store")]
                 "Store")
              [VNode (parsed.Name 1 0 "a" "Store");
               VNode (parsed.Starred 1 3 (parsed.Name 1 4 "b" "Store")
                        "Store");
               VNode (parsed.Tuple 1 7
                        [VNode (parsed.Name 1 8 "c" "Store");
                         VNode (parsed.Name 1 11 "d" "Store")] "Store")]
              init eq_refl eq_refl (or_introl eq_refl))
    as (childs & Hrun & _).
  exists childs. split; [exact Hrun|].
  vm_compute in Hrun. injection Hrun as E. symmetry. exact E.
Defined.

Lemma gen_unpack_spec_keys_witness :
  exists spec,
    @gen_unpack_spec python36 (parsed.Tuple 1 0 [] "Store") init
    = Ok spec init /\
    cls_of spec = "Dict" /\
    lookup "keys" (fields_of spec) =
    Some (VList [VNode (ast.Str (VStr "childs"));
                 VNode (ast.Str (VStr "min_len"))]).
Proof.
  exact (@gen_unpack_spec_keys python36 (parsed.Tuple 1 0 [] "Store") init
           eq_refl).
Defined.

(** C4, as the specification words it, fails: the first key of the unpack
    spec is the string "childs", not "children". *)
Lemma gen_unpack_spec_keys_not_children :
  exists spec keys,
    @gen_unpack_spec python36 (parsed.Tuple 1 0 [] "Store") init
    = Ok spec init /\
    lookup "keys" (fields_of spec) = Some (VList keys) /\
    keys <> [VNode (ast.Str (VStr "children"));
             VNode (ast.Str (VStr "min_len"))].
Proof.
  do 2 eexists. split; [reflexivity|]. split; [reflexivity|].
  intros E. discriminate E.
Qed.

(** ** Assignment *)

Lemma mapM_Forall2 {A B} (f : A -> M B) (R : A -> B -> Prop) (l : list A) :
  Forall (fun x => exists y, (forall st, f x st = Ok y st) /\ R x y) l ->
  exists ys, (forall st, mapM f l st = Ok ys st) /\ Forall2 R l ys.
Proof.
  induction 1 as [|x l (y & Hy & HR) _ (ys & Hys & HRs)].
  - exists []. split; [reflexivity | constructor].
  - exists (y :: ys). split; [|now constructor].
    intros st. simpl. rewrite (bind_eq _ _ _ _ _ (Hy st)).
    rewrite (bind_eq _ _ _ _ _ (Hys st)). reflexivity.
Qed.

Lemma mapM_map {A B} (f : A -> M B) (g : A -> B) (l : list A) :
  Forall (fun x => forall st, f x st = Ok (g x) st) l ->
  forall st, mapM f l st = Ok (map g l) st.
Proof.
  induction 1 as [|x l Hx _ IH]; intros st; [reflexivity|].
  simpl. rewrite (bind_eq _ _ _ _ _ (Hx st)).
  rewrite (bind_eq _ _ _ _ _ (IH st)). reflexivity.
Qed.

Section Assignment.
Context `{Compat}.

Lemma gen_unpack_spec_of_eq (tpl spec : node) (st : state) :
  gen_unpack_spec tpl st = Ok spec st ->
  gen_unpack_spec_of (VNode tpl) st = Ok spec st.
Proof. intros Hs. unfold gen_unpack_spec_of, as_node, bind, ret. exact Hs. Qed.

Lemma protect_unpack_sequence_eq (tpl spec : node) (v : value) (st : state) :
  gen_unpack_spec tpl st = Ok spec st ->
  protect_unpack_sequence (VNode tpl) v st =
  Ok (ast.Call (ast.Name (VStr "_unpack_sequence_") ast.Load)
        [v; VNode spec; VNode (ast.Name (VStr "_getiter_") ast.Load)] []) st.
Proof.
  intros Hs. unfold protect_unpack_sequence.
  rewrite (bind_eq _ _ _ _ _ (gen_unpack_spec_of_eq tpl spec st Hs)).
  reflexivity.
Qed.

Lemma visit_Assign_after_contents
    (n n' : node) (targets : list value) (st st' : state) :
  cls_of n = "Assign" ->
  node_contents_visit visit n st = Ok n' st' ->
  lookup "targets" (fields_of n') = Some (VList targets) ->
  visit n st =
  (if negb (existsb (fun t => isinstance t "Tuple") targets) then
     ret (VNode n')
   else
     new_nodes <-
       mapM (fun target =>
               if isinstance target "Tuple" then
                 v <- getattr n' "value" ;;
                 wrapped <- protect_unpack_sequence target v ;;
                 ret (ast.Assign [target] wrapped)
               else
                 v <- getattr n' "value" ;;
                 ret (ast.Assign [target] v)) (rev targets) ;;
     new_nodes <- mapM (fun new_node => copy_locations new_node n')
                    new_nodes ;;
     ret (VList (map VNode new_nodes))) st'.
Proof.
  intros Hc Hn Ht.
  rewrite (visit_method n "Assign" visit_Assign Hc eq_refl).
  unfold visit_Assign.
  rewrite (bind_eq _ _ _ _ _ Hn).
  rewrite (bind_eq _ _ _ _ _ (getattr_eq n' "targets" _ _ Ht)).
  reflexivity.
Qed.

(** C8, as amended.  After the children of [t1 = ... = tn = expr] are
    visited: when no target is a tuple, the statement is returned as it
    is, one assignment with all its targets; when a target is a tuple,
    the statement is replaced by one assignment per target, the
    right-most target first, where a tuple target is assigned
    [_unpack_sequence_(expr, spec, _getiter_)] and any other target
    [expr]. *)
Theorem visit_Assign_by_targets
    (n n' : node) (targets : list value) (st st' : state) :
  cls_of n = "Assign" ->
  node_contents_visit visit n st = Ok n' st' ->
  lookup "targets" (fields_of n') = Some (VList targets) ->
  (existsb (fun t => isinstance t "Tuple") targets = false ->
   visit n st = Ok (VNode n') st')
  /\
  (existsb (fun t => isinstance t "Tuple") targets = true ->
   forall (v : value) (l o : Z),
     lookup "value" (fields_of n') = Some v ->
     lineno_of n = Some l -> col_offset_of n = Some o ->
     Forall (fun t => forall tpl, t = VNode tpl -> cls_of tpl = "Tuple" ->
               sequence_target tpl = true) targets ->
     exists stmts,
       visit n st = Ok (VList stmts) st' /\
       Forall2
         (fun t stmt =>
            exists rhs,
              stmt = VNode (located l o (ast.Assign [t] rhs)) /\
              if isinstance t "Tuple" then
                exists spec,
                  gen_unpack_spec_of t st' = Ok spec st' /\
                  rhs = VNode
                          (ast.Call
                             (ast.Name (VStr "_unpack_sequence_") ast.Load)
                             [v; VNode spec;
                              VNode (ast.Name (VStr "_getiter_") ast.Load)]
                             [])
              else rhs = v)
         (rev targets) stmts).
Proof.
  intros Hc Hn Ht.
  rewrite (visit_Assign_after_contents n n' targets st st' Hc Hn Ht).
  pose proof (node_contents_visit_Ok _ _ _ _ _ Hn) as (_ & Hl' & Ho' & _).
  split; intros Hany; rewrite Hany; cbn [negb]; [reflexivity|].
  intros v l o Hv Hl Ho Hseq.
  set (f := fun target : value =>
              if isinstance target "Tuple"
              then v0 <- getattr n' "value" ;;
                   wrapped <- protect_unpack_sequence target v0 ;;
                   ret (ast.Assign [target] wrapped)
              else v0 <- getattr n' "value" ;;
                   ret (ast.Assign [target] v0)).
  destruct (mapM_Forall2 f
              (fun t new =>
                 exists rhs,
                   new = ast.Assign [t] rhs /\
                   if isinstance t "Tuple" then
                     exists spec,
                       gen_unpack_spec_of t st' = Ok spec st' /\
                       rhs = VNode
                               (ast.Call
                                  (ast.Name (VStr "_unpack_sequence_")
                                     ast.Load)
                                  [v; VNode spec;
                                   VNode (ast.Name (VStr "_getiter_")
                                            ast.Load)] [])
                   else rhs = v)
              (rev targets)) as (news & Hrun & Hrel).
  { apply Forall_rev. revert Hseq. apply Forall_impl.
    intros t Hseq. unfold f.
    destruct (isinstance t "Tuple") eqn:Etuple.
    - destruct t as [| | | |tpl|]; try discriminate.
      apply String.eqb_eq in Etuple.
      destruct (gen_unpack_spec_total tpl (Hseq tpl eq_refl Etuple))
        as (spec & Hspec).
      eexists. split.
      + intros s. rewrite (bind_eq _ _ _ _ _ (getattr_eq n' "value" _ _ Hv)).
        rewrite (bind_eq _ _ _ _ _
                   (protect_unpack_sequence_eq tpl spec v s (Hspec s))).
        reflexivity.
      + eexists. split; [reflexivity|].
        exists spec. split; [|reflexivity].
        apply gen_unpack_spec_of_eq, Hspec.
    - eexists. split.
      + intros s. rewrite (bind_eq _ _ _ _ _ (getattr_eq n' "value" _ _ Hv)).
        reflexivity.
      + eexists. split; reflexivity. }
  rewrite (bind_eq _ _ _ _ _ (Hrun st')). clear Hrun.
  assert (Hloc : Forall (fun x => forall s,
                           copy_locations x n' s = Ok (located l o x) s)
                   news).
  { induction Hrel as [|t new ts news' (rhs & -> & _) _ IH];
      constructor; [|exact IH].
    intros s. unfold copy_locations. rewrite Hl', Ho', Hl, Ho. reflexivity. }
  rewrite (bind_eq _ _ _ _ _
             (mapM_map (fun new_node => copy_locations new_node n')
                (located l o) news Hloc st')).
  eexists. split; [reflexivity|].
  rewrite map_map. clear Hloc.
  induction Hrel as [|t new ts news' (rhs & -> & Hrhs) _ IH];
    [constructor|].
  simpl. constructor; [|exact IH]. exists rhs. auto.
Qed.
End Assignment.

Lemma visit_Assign_by_targets_witness :
  @visit python36
    (parsed.Assign 1 0
       [VNode (parsed.Name 1 0 "a" "Store");
        VNode (parsed.Name 1 4 "b" "Store");
        VNode (parsed.Name 1 8 "c" "Store")]
       (parsed.Num 1 12 1)) init =
  Ok (VNode
        (parsed.Assign 1 0
           [VNode (parsed.Name 1 0 "a" "Store");
            VNode (parsed.Name 1 4 "b" "Store");
            VNode (parsed.Name 1 8 "c" "Store")]
           (parsed.Num 1 12 1))) init.
Proof.
  exact (proj1
           (@visit_Assign_by_targets python36
              (parsed.Assign 1 0
                 [VNode (parsed.Name 1 0 "a" "Store");
                  VNode (parsed.Name 1 4 "b" "Store");
                  VNode (parsed.Name 1 8 "c" "Store")]
                 (parsed.Num 1 12 1))
              (parsed.Assign 1 0
                 [VNode (parsed.Name 1 0 "a" "Store");
                  VNode (parsed.Name 1 4 "b" "Store");
                  VNode (parsed.Name 1 8 "c" "Store")]
                 (parsed.Num 1 12 1))
              [VNode (parsed.Name 1 0 "a" "Store");
               VNode (parsed.Name 1 4 "b" "Store");
               VNode (parsed.Name 1 8 "c" "Store")]
              init init eq_refl eq_refl eq_refl) eq_refl).
Defined.

(** C8, as the specification words it, fails: for [a = b = c = 1] the
    transformer returns one statement, the assignment itself with its
    three targets, and not a list of three assignments. *)
Lemma multi_target_assignment_of_names_not_split :
  @visit python36
    (parsed.Assign 1 0
       [VNode (parsed.Name 1 0 "a" "Store");
        VNode (parsed.Name 1 4 "b" "Store");
        VNode (parsed.Name 1 8 "c" "Store")]
       (parsed.Num 1 12 1)) init =
  Ok (VNode
        (parsed.Assign 1 0
           [VNode (parsed.Name 1 0 "a" "Store");
            VNode (parsed.Name 1 4 "b" "Store");
            VNode (parsed.Name 1 8 "c" "Store")]
           (parsed.Num 1 12 1))) init
  /\ forall stmts,
       @visit python36
         (parsed.Assign 1 0
            [VNode (parsed.Name 1 0 "a" "Store");
             VNode (parsed.Name 1 4 "b" "Store");
             VNode (parsed.Name 1 8 "c" "Store")]
            (parsed.Num 1 12 1)) init <> Ok (VList stmts) init.
Proof. split; [reflexivity|]. intros stmts E. discriminate E. Qed.

(** With a tuple among the targets the statement is split: [(a, b) = c = x]
    becomes [c = x] followed by [(a, b) = _unpack_sequence_(x, ...)]. *)
Example tuple_target_assignment_split :
  exists first second st',
    @visit python36
      (parsed.Assign 1 0
         [VNode (parsed.Tuple 1 0
                   [VNode (parsed.Name 1 1 "a" "Store");
                    VNode (parsed.Name 1 4 "b" "Store")] "Store");
          VNode (parsed.Name 1 9 "c" "Store")]
         (parsed.Name 1 13 "x" "Load")) init
    = Ok (VList [VNode first; VNode second]) st' /\
    lookup "targets" (fields_of first)
    = Some (VList [VNode (parsed.Name 1 9 "c" "Store")]) /\
    lookup "value" (fields_of first)
    = Some (VNode (parsed.Name 1 13 "x" "Load")) /\
    count_node (is_call_of "_unpack_sequence_") second = 1%nat.
Proof. do 3 eexists. repeat split. Qed.

(** ** The perimeter: no class without a method reaches the output *)

Lemma all_node_fields (p : string -> bool) (n : node) :
  all_node p n =
  p (cls_of n) && forallb (fun fv => all_value p (snd fv)) (fields_of n).
Proof. destruct n; reflexivity. Qed.

Lemma all_lookup (p : string -> bool) (fs : list (string * value)) f v :
  forallb (fun fv => all_value p (snd fv)) fs = true ->
  lookup f fs = Some v -> all_value p v = true.
Proof.
  induction fs as [|[g w] fs IH]; simpl; [discriminate|].
  intros Hall. apply andb_true_iff in Hall as [Hw Hfs].
  destruct (g =? f)%string; [intros [= <-]; exact Hw | now apply IH].
Qed.

Lemma all_getattr (p : string -> bool) (n : node) f v :
  all_node p n = true -> lookup f (fields_of n) = Some v ->
  all_value p v = true.
Proof.
  rewrite all_node_fields. intros Hall. apply andb_true_iff in Hall as [_ Hfs].
  now apply all_lookup with (fs := fields_of n) (f := f).
Qed.

Lemma all_assign (p : string -> bool) (fs : list (string * value)) f v :
  forallb (fun fv => all_value p (snd fv)) fs = true ->
  all_value p v = true ->
  forallb (fun fv => all_value p (snd fv)) (assign f v fs) = true.
Proof.
  intros Hfs Hv. induction fs as [|[g w] fs IH]; simpl.
  - now rewrite Hv.
  - simpl in Hfs. apply andb_true_iff in Hfs as [Hw Hfs].
    destruct (g =? f)%string; simpl.
    + now rewrite Hv, Hfs.
    + now rewrite Hw, IH.
Qed.

Lemma all_setattr (p : string -> bool) (n : node) f v :
  all_node p n = true -> all_value p v = true ->
  all_node p (setattr n f v) = true.
Proof.
  destruct n as [c l o fs]. simpl. intros Hn Hv.
  apply andb_true_iff in Hn as [Hc Hfs].
  now rewrite Hc, all_assign.
Qed.

Lemma all_list_insert (p : string -> bool) (i : nat) x (l : list value) :
  all_value p x = true -> forallb (all_value p) l = true ->
  forallb (all_value p) (list_insert i x l) = true.
Proof.
  intros Hx. revert l. induction i as [|i IH]; intros [|y l] Hl; simpl in *;
    rewrite ?Hx, ?Hl; try reflexivity.
  apply andb_true_iff in Hl as [Hy Hl]. now rewrite Hy, IH.
Qed.

Section LocationsKeepClasses.
Context `{Compat}.
Variable p : string -> bool.

Lemma all_fix (n : node) :
  forall l o, all_node p (_fix n l o) = all_node p n.
Proof.
  induction n as [c ln co fs IH] using node_children_ind.
  intros l o. simpl. f_equal.
  induction IH as [|[f v] fs Hv _ IHfs]; [reflexivity|].
  simpl. f_equal; [|exact IHfs].
  destruct v; simpl in *; try reflexivity; [apply Hv|].
  induction Hv as [|x xs Hx _ IHxs]; [reflexivity|].
  simpl. f_equal; [|exact IHxs].
  destruct x; simpl; try reflexivity. apply Hx.
Qed.

Lemma all_located (l o : Z) (n : node) :
  all_node p (located l o n) = all_node p n.
Proof.
  destruct n as [c ln co fs]. unfold located, fix_missing_locations.
  rewrite all_fix. reflexivity.
Qed.

Lemma copy_locations_Ok (new old r : node) (st st' : state) :
  copy_locations new old st = Ok r st' ->
  st' = st /\ all_node p r = all_node p new.
Proof.
  unfold copy_locations.
  destruct (negb (has_location (cls_of new))); [discriminate|].
  destruct (lineno_of old); [|discriminate].
  destruct (col_offset_of old); [|discriminate].
  intros [= <- <-]. split; [reflexivity | apply all_located].
Qed.

Lemma copy_locations_from_Ok (new r : node) (old : value) (st st' : state) :
  copy_locations_from new old st = Ok r st' ->
  st' = st /\ all_node p r = all_node p new.
Proof.
  destruct old; try discriminate. apply copy_locations_Ok.
Qed.
End LocationsKeepClasses.

Ltac minv H :=
  lazymatch type of H with
  | bind _ _ _ = Ok _ _ =>
      let a := fresh "a" in
      let s := fresh "s" in
      let Ha := fresh "Hstep" in
      apply bind_Ok in H as (a & s & Ha & H)
  | ret _ _ = Ok _ _ =>
      apply ret_Ok in H as [? ?]; subst;
      repeat match goal with
             | E : (_, _) = (_, _) |- _ =>
                 apply pair_equal_spec in E as [? ?]; subst
             end
  | raise _ _ = Ok _ _ => discriminate H
  | Raise _ _ = Ok _ _ => discriminate H
  | Ok _ _ = Ok _ _ => injection H as ? ?; subst
  | getattr _ _ _ = Ok _ _ => apply getattr_Ok in H as [? ?]; subst
  | modify _ _ = Ok _ _ => unfold modify in H; injection H as ? ?; subst
  | get _ = Ok _ _ => unfold get in H; injection H as ? ?; subst
  | error _ _ _ = Ok _ _ => unfold error, modify in H; injection H as ? ?; subst
  | warn _ _ _ = Ok _ _ => unfold warn, modify in H; injection H as ? ?; subst
  | (if ?c then _ else _) _ = Ok _ _ => destruct c eqn:?
  | (let (_, _) := ?p in _) _ = Ok _ _ => destruct p as [? ?]
  end.

Section Perimeter.
Context `{Compat}.

Section TraversalKeeps.
Variable v : node -> M value.

Lemma visit_list_recognized (l : list value) :
  Forall (fun x => match x with VNode n => returns_recognized v n | _ => True end) l ->
  forallb (fun x => match x with
                    | VList _ => false
                    | _ => flat_value x
                    end) l = true ->
  forall st l' st',
    visit_list v l st = Ok l' st' -> forallb recognized l' = true.
Proof.
  unfold returns_recognized, recognized.
  induction 1 as [|x l Hx _ IH]; intros Hflat st l' st' Hv.
  - simpl in Hv. minv Hv. reflexivity.
  - simpl in Hflat. apply andb_true_iff in Hflat as [Hfx Hfl].
    specialize (IH Hfl). simpl in Hv.
    destruct x as [| ? | ? | ? |child|inner]; try discriminate Hfx;
      try solve [minv Hv; minv Hv; simpl; eauto].
    minv Hv. specialize (Hx Hfx _ _ _ Hstep).
    destruct a as [| ? | ? | ? |r|rs]; try discriminate Hv.
    + eauto.
    + minv Hv. minv Hv. simpl in *.
      apply andb_true_iff. split; [exact Hx | eauto].
    + minv Hv. minv Hv. rewrite forallb_app.
      apply andb_true_iff. split; [exact Hx | eauto].
Qed.

Lemma visit_fields_recognized (fs : list (string * value)) :
  Forall (fun fv => on_children (returns_recognized v) (snd fv)) fs ->
  forallb (fun fv => flat_value (snd fv)) fs = true ->
  forall st fs' st',
    visit_fields v fs st = Ok fs' st' ->
    forallb (fun fv => recognized (snd fv)) fs' = true.
Proof.
  induction 1 as [|[f x] fs Hx _ IH]; intros Hflat st fs' st' Hv.
  - simpl in Hv. minv Hv. reflexivity.
  - simpl in Hflat. apply andb_true_iff in Hflat as [Hfx Hfl].
    specialize (IH Hfl). simpl in Hv, Hx.
    destruct x as [| ? | ? | ? |child|l];
      try solve [minv Hv; minv Hv; simpl; eauto].
    + minv Hv. minv Hv. minv Hv.
      specialize (Hx Hfx _ _ _ Hstep).
      destruct (is_none a); simpl; eauto.
      apply andb_true_iff. split; [exact Hx | eauto].
    + minv Hv. minv Hv. minv Hv.
      pose proof (visit_list_recognized l Hx Hfx _ _ _ Hstep) as Hl.
      simpl. apply andb_true_iff. split; [exact Hl | eauto].
Qed.

Lemma node_contents_visit_recognized (n : node) :
  has_method (cls_of n) = true ->
  Forall (fun fv => on_children (returns_recognized v) (snd fv)) (fields_of n) ->
  flat_node n = true ->
  forall st n' st',
    node_contents_visit v n st = Ok n' st' -> recognized (VNode n') = true.
Proof.
  destruct n as [c l o fs]. simpl. intros Hc Hfs Hflat st n' st' Hv.
  unfold node_contents_visit in Hv. minv Hv. minv Hv.
  unfold recognized. simpl. rewrite Hc.
  exact (visit_fields_recognized fs Hfs Hflat _ _ _ Hstep).
Qed.
End TraversalKeeps.
End Perimeter.

Lemma as_list_Ok (x : value) (l : list value) (st st' : state) :
  as_list x st = Ok l st' -> x = VList l /\ st' = st.
Proof. destruct x; try discriminate. intros [= <- <-]. auto. Qed.

Lemma as_list_for_Ok (x : value) m (l : list value) (st st' : state) :
  as_list_for x m st = Ok l st' -> x = VList l /\ st' = st.
Proof. destruct x; try discriminate. intros [= <- <-]. auto. Qed.

Lemma as_node_Ok (x : value) f (n : node) (st st' : state) :
  as_node x f st = Ok n st' -> x = VNode n /\ st' = st.
Proof. destruct x; try discriminate. intros [= <- <-]. auto. Qed.

Lemma getattr_of_Ok (x : value) f (r : value) (st st' : state) :
  getattr_of x f st = Ok r st' ->
  exists n, x = VNode n /\ lookup f (fields_of n) = Some r /\ st' = st.
Proof.
  destruct x; try discriminate. simpl. intros Hg.
  apply getattr_Ok in Hg as [Hl ->]. eauto.
Qed.

Section PerimeterHelpers.
Context `{Compat}.

Ltac has_methods :=
  repeat match goal with
         | |- context [has_method (String ?a ?b)] =>
             change (has_method (String a b)) with true
         end.

Ltac conj_true :=
  repeat (apply andb_true_iff; split); try reflexivity; try assumption.

Lemma recognized_getattr (n : node) f x :
  recognized (VNode n) = true -> lookup f (fields_of n) = Some x ->
  recognized x = true.
Proof. apply all_getattr. Qed.

Lemma recognized_setattr (n : node) f x :
  recognized (VNode n) = true -> recognized x = true ->
  recognized (VNode (setattr n f x)) = true.
Proof. apply all_setattr. Qed.

Lemma recognized_copy (new old r : node) (st st' : state) :
  copy_locations new old st = Ok r st' ->
  recognized (VNode new) = true -> recognized (VNode r) = true.
Proof.
  intros Hc Hn. apply (copy_locations_Ok has_method) in Hc as [_ Hr].
  unfold recognized. simpl. now rewrite Hr.
Qed.

Lemma recognized_copy_from (new r : node) (old : value) (st st' : state) :
  copy_locations_from new old st = Ok r st' ->
  recognized (VNode new) = true -> recognized (VNode r) = true.
Proof. destruct old; try discriminate. apply recognized_copy. Qed.

Lemma recognized_located (l o : Z) (n : node) :
  recognized (VNode n) = true -> recognized (VNode (located l o n)) = true.
Proof. unfold recognized. simpl. now rewrite all_located. Qed.

Lemma recognized_list (l : list value) :
  recognized (VList l) = forallb recognized l.
Proof. reflexivity. Qed.

Lemma recognized_Call (f : value) (args kw : list value) :
  recognized f = true -> forallb recognized args = true ->
  forallb recognized kw = true ->
  recognized (VNode (ast.Call f args kw)) = true.
Proof.
  unfold recognized. simpl. has_methods. intros Hf Ha Hk. conj_true.
Qed.

Lemma recognized_Name (id : value) (ctx : node) :
  recognized id = true -> recognized (VNode ctx) = true ->
  recognized (VNode (ast.Name id ctx)) = true.
Proof.
  unfold recognized. simpl. has_methods. intros Hi Hc. conj_true.
Qed.

Lemma recognized_Tuple (elts : list value) (ctx : node) :
  forallb recognized elts = true -> recognized (VNode ctx) = true ->
  recognized (VNode (ast.Tuple elts ctx)) = true.
Proof.
  unfold recognized. simpl. has_methods. intros He Hc. conj_true.
Qed.

Lemma recognized_Assign (targets : list value) (x : value) :
  forallb recognized targets = true -> recognized x = true ->
  recognized (VNode (ast.Assign targets x)) = true.
Proof.
  unfold recognized. simpl. has_methods. intros Ht Hx. conj_true.
Qed.

Lemma recognized_Str (x : value) :
  recognized x = true -> recognized (VNode (ast.Str x)) = true.
Proof. unfold recognized. simpl. has_methods. intros Hx. conj_true. Qed.

Lemma recognized_Attribute (x attr : value) (ctx : node) :
  recognized x = true -> recognized attr = true ->
  recognized (VNode ctx) = true ->
  recognized (VNode (ast.Attribute x attr ctx)) = true.
Proof.
  unfold recognized. simpl. has_methods. intros Hx Ha Hc. conj_true.
Qed.

Lemma recognized_CLASS_DEF (name : string) :
  recognized (VNode (parse_CLASS_DEF name)) = true.
Proof.
  unfold parse_CLASS_DEF. destruct IS_PY35_OR_GREATER; reflexivity.
Qed.

Lemma recognized_ctx :
  recognized (VNode ast.Load) = true /\ recognized (VNode ast.Store) = true
  /\ recognized (VNode ast.Del) = true /\ recognized (VNode ast.Param) = true.
Proof. repeat split. Qed.

Lemma recognized_atom (x : value) : atom x = true -> recognized x = true.
Proof. destruct x; try discriminate; reflexivity. Qed.

Lemma unpack_children_recognized (gen : node -> M node) (m : Z) :
  forall elts idx offset st childs st',
    Forall (fun x => match x with
                     | VNode t => forall st spec st',
                         gen t st = Ok spec st' ->
                         recognized (VNode spec) = true
                     | _ => True
                     end) elts ->
    unpack_children gen m elts idx offset st = Ok childs st' ->
    forallb recognized childs = true.
Proof.
  induction elts as [|val rest IH]; intros idx offset st childs st' Hgen Hu.
  - simpl in Hu. minv Hu. reflexivity.
  - inversion Hgen as [|? ? Hval Hrest]; subst. simpl in Hu.
    destruct (is_starred val); [eauto|].
    destruct val as [| ? | ? | ? |t| ?]; eauto.
    destruct (cls_of t =? "Tuple")%string; [|eauto].
    minv Hu. minv Hu. minv Hu. simpl.
    apply andb_true_iff. split; [|eauto].
    conj_true. exact (Hval _ _ _ Hstep).
Qed.

Lemma gen_unpack_spec_recognized (tpl : node) :
  forall st spec st',
    gen_unpack_spec tpl st = Ok spec st' -> recognized (VNode spec) = true.
Proof.
  induction tpl as [c l o fs IH] using node_children_ind.
  intros st spec st' Hg. rewrite gen_unpack_spec_unfold in Hg.
  change (fields_of (Node c l o fs)) with fs in Hg.
  destruct (lookup "elts" fs) as [[| | | | |elts]|] eqn:Hl;
    cbv beta iota in Hg; try discriminate Hg.
  pose proof (lookup_Forall (on_children _) fs "elts" _ IH Hl) as IHelts.
  simpl in IHelts.
  minv Hg. minv Hg.
  pose proof (unpack_children_recognized _ _ _ _ _ _ _ _ IHelts Hstep) as Hc.
  unfold recognized in *. simpl. has_methods. conj_true.
Qed.

Lemma gen_unpack_spec_of_recognized (x : value) st spec st' :
  gen_unpack_spec_of x st = Ok spec st' -> recognized (VNode spec) = true.
Proof.
  unfold gen_unpack_spec_of. intros Hg. minv Hg.
  eapply gen_unpack_spec_recognized; eauto.
Qed.

Lemma protect_unpack_sequence_recognized (target x : value) st r st' :
  protect_unpack_sequence target x st = Ok r st' ->
  recognized x = true -> recognized (VNode r) = true.
Proof.
  unfold protect_unpack_sequence. intros Hp Hx. minv Hp. minv Hp.
  apply gen_unpack_spec_of_recognized in Hstep.
  apply recognized_Call; [reflexivity | | reflexivity].
  simpl. conj_true.
Qed.

Lemma gen_unpack_wrapper_recognized (n : node) (target : value) ctx st
    tmp_target cleanup st' :
  gen_unpack_wrapper n target ctx st = Ok (tmp_target, cleanup) st' ->
  recognized target = true ->
  recognized (VNode tmp_target) = true /\ recognized (VNode cleanup) = true.
Proof.
  unfold gen_unpack_wrapper. intros Hg Ht.
  minv Hg. minv Hg. minv Hg. minv Hg. minv Hg. minv Hg.
  apply protect_unpack_sequence_recognized in Hstep0; [|reflexivity].
  split.
  - eapply recognized_copy; [eassumption|].
    apply recognized_Name; [reflexivity|].
    destruct (ctx =? "store")%string; [minv Hstep1; reflexivity|].
    destruct (ctx =? "param")%string; [minv Hstep1; reflexivity|].
    discriminate.
  - eapply recognized_copy; [eassumption|].
    unfold recognized in *.
    destruct IS_PY2; simpl; has_methods; conj_true.
Qed.
End PerimeterHelpers.

(** Steps through a method that returned: [H] is the equation of the run. *)
Ltac prim H :=
  lazymatch type of H with
  | getattr _ _ _ = Ok _ _ => apply getattr_Ok in H as [H ?]; subst
  | getattr_of _ _ _ = Ok _ _ =>
      let nd := fresh "nd" in
      apply getattr_of_Ok in H as (nd & ? & H & ?); subst
  | as_list _ _ = Ok _ _ => apply as_list_Ok in H as [? ?]; subst
  | as_list_for _ _ _ = Ok _ _ => apply as_list_for_Ok in H as [? ?]; subst
  | as_node _ _ _ = Ok _ _ => apply as_node_Ok in H as [? ?]; subst
  | ret _ _ = Ok _ _ =>
      apply ret_Ok in H as [? ?]; subst;
      repeat match goal with
             | E : (_, _) = (_, _) |- _ =>
                 apply pair_equal_spec in E as [? ?]; subst
             end
  | _ = @Ok unit _ _ => clear H
  | _ => idtac
  end.

Ltac mstep H :=
  lazymatch type of H with
  | bind _ _ _ = Ok _ _ =>
      let a := fresh "a" in
      let s := fresh "s" in
      let Ha := fresh "Hstep" in
      apply bind_Ok in H as (a & s & Ha & H); prim Ha
  | ret _ _ = Ok _ _ =>
      apply ret_Ok in H as [? ?]; subst;
      repeat match goal with
             | E : (_, _) = (_, _) |- _ =>
                 apply pair_equal_spec in E as [? ?]; subst
             end
  | raise _ _ = Ok _ _ => discriminate H
  | Raise _ _ = Ok _ _ => discriminate H
  | Ok _ _ = Ok _ _ => injection H as ? ?; subst
  | (if ?c then _ else _) _ = Ok _ _ => destruct c eqn:?
  | (let (_, _) := ?p in _) _ = Ok _ _ => destruct p as [? ?]
  | (match ?x with _ => _ end) _ = Ok _ _ => destruct x eqn:?
  end.

Lemma mapM_Ok_Forall {A B} (f : A -> M B) (Q : A -> Prop) (R : B -> Prop)
    (l : list A) :
  (forall x st y st', Q x -> f x st = Ok y st' -> R y) ->
  Forall Q l ->
  forall st ys st', mapM f l st = Ok ys st' -> Forall R ys.
Proof.
  intros Hf. induction 1 as [|x l Hx _ IH]; intros st ys st' Hm; simpl in Hm.
  - mstep Hm. constructor.
  - mstep Hm. mstep Hm. mstep Hm. constructor; eauto.
Qed.

Lemma foldM_invariant {A B} (f : B -> A -> M B) (Q : A -> Prop)
    (I : B -> Prop) (l : list A) :
  (forall b x st b' st', Q x -> I b -> f b x st = Ok b' st' -> I b') ->
  Forall Q l ->
  forall b st r st', I b -> foldM f b l st = Ok r st' -> I r.
Proof.
  intros Hf. induction 1 as [|x l Hx _ IH]; intros b st r st' Hb Hm;
    simpl in Hm.
  - mstep Hm. exact Hb.
  - mstep Hm. eauto.
Qed.

Lemma forallb_Forall_true {A} (p : A -> bool) (l : list A) :
  forallb p l = true <-> Forall (fun x => p x = true) l.
Proof. rewrite forallb_forall, Forall_forall. reflexivity. Qed.

Lemma new_print_scope_Ok `{Compat} {A} (body : M A) st a st' :
  new_print_scope body st = Ok a st' -> exists s1 s2, body s1 = Ok a s2.
Proof.
  unfold new_print_scope, finally. unfold bind at 1. cbn [modify].
  destruct (body _) eqn:Hb; [|discriminate].
  intros [= <- _]. eauto.
Qed.

Section MethodsKeepPerimeter.
Context `{Compat}.

Ltac start :=
  unfold keeps_perimeter;
  let contents := fresh "contents" in
  let n := fresh "n" in
  let Hc := fresh "Hc" in
  let Hm := fresh "Hm" in
  intros contents n Hc st out st' Hm.

Ltac contents_known :=
  repeat match goal with
         | Hc : forall st n' st', ?c st = Ok n' st' -> recognized (VNode n') = true,
           Hs : ?c _ = Ok ?n' _ |- _ =>
             lazymatch goal with
             | _ : recognized (VNode n') = true |- _ => fail
             | _ => pose proof (Hc _ _ _ Hs)
             end
         end.

Ltac step_any :=
  match goal with
  | H : bind _ _ _ = Ok _ _ |- _ => mstep H
  | H : ret _ _ = Ok _ _ |- _ => mstep H
  | H : raise _ _ = Ok _ _ |- _ => discriminate H
  | H : Raise _ _ = Ok _ _ |- _ => discriminate H
  | H : (if _ then _ else _) _ = Ok _ _ |- _ => mstep H
  | H : (let (_, _) := _ in _) _ = Ok _ _ |- _ => mstep H
  | H : (match _ with _ => _ end) _ = Ok _ _ |- _ => mstep H
  end.

Ltac same_values :=
  repeat match goal with
         | E : VNode _ = VNode _ |- _ => injection E as E; subst
         | E : VList _ = VList _ |- _ => injection E as E; subst
         | E : VStr _ = VStr _ |- _ => injection E as E; subst
         end.

Ltac steps H := repeat (step_any; same_values; contents_known).

Ltac conj_true :=
  repeat (apply andb_true_iff; split); try reflexivity; try assumption.

Ltac cheap :=
  lazymatch goal with
  | |- true = true => reflexivity
  | |- recognized (VStr _) = true => reflexivity
  | |- recognized (VInt _) = true => reflexivity
  | |- recognized (VBool _) = true => reflexivity
  | |- recognized VNone = true => reflexivity
  | |- recognized (VNode ast.Load) = true => reflexivity
  | |- recognized (VNode ast.Store) = true => reflexivity
  | |- recognized (VNode ast.Del) = true => reflexivity
  | |- recognized (VNode ast.Param) = true => reflexivity
  | |- recognized (VList []) = true => reflexivity
  | |- forallb _ [] = true => reflexivity
  end.

Ltac recog :=
  repeat first
    [ cheap
    | assumption
    | lazymatch goal with
      | |- recognized (VNode (setattr _ _ _)) = true =>
          apply recognized_setattr
      | |- recognized (VNode (located _ _ _)) = true =>
          apply recognized_located
      | |- recognized (VNode (ast.Call _ _ _)) = true =>
          apply recognized_Call
      | |- recognized (VNode (ast.Name _ _)) = true => apply recognized_Name
      | |- recognized (VNode (ast.Tuple _ _)) = true =>
          apply recognized_Tuple
      | |- recognized (VNode (ast.Assign _ _)) = true =>
          apply recognized_Assign
      | |- recognized (VNode (ast.Str _)) = true => apply recognized_Str
      | |- recognized (VNode (ast.Attribute _ _ _)) = true =>
          apply recognized_Attribute
      | |- recognized (VNode (parse_CLASS_DEF _)) = true =>
          apply recognized_CLASS_DEF
      | |- forallb _ (_ :: _) = true =>
          cbn [forallb];
          repeat match goal with
                 | |- _ && _ = true => apply andb_true_iff; split
                 end
      | |- recognized (VList (?x :: ?l)) = true =>
          change (forallb recognized (x :: l) = true)
      | |- forallb recognized ?l = true =>
          change (recognized (VList l) = true)
      | |- recognized (VNode ?n) = true =>
          is_var n;
          first
            [ eapply recognized_copy; [eassumption|]
            | eapply recognized_copy_from; [eassumption|]
            | eapply gen_unpack_spec_of_recognized; eassumption
            | eapply protect_unpack_sequence_recognized; [eassumption|]
            | eapply recognized_getattr; [|eassumption] ]
      | |- recognized ?x = true =>
          eapply recognized_getattr; [|eassumption]
      end ].

Lemma allow_keeps : keeps_perimeter allow.
Proof. unfold allow. start. steps Hm. recog. Qed.

Lemma deny_keeps : keeps_perimeter deny.
Proof. unfold deny. start. steps Hm. recog. Qed.

Lemma guard_iter_keeps : keeps_perimeter guard_iter.
Proof. unfold guard_iter. start. steps Hm; recog.
Qed.

Lemma check_import_names_keeps : keeps_perimeter check_import_names.
Proof. unfold check_import_names. start. steps Hm; recog. Qed.

Lemma visit_Name_keeps : keeps_perimeter visit_Name.
Proof. unfold visit_Name. start. steps Hm; recog. Qed.

Lemma visit_Attribute_keeps : keeps_perimeter visit_Attribute.
Proof. unfold visit_Attribute. start. steps Hm; recog.
Qed.

Lemma transform_slice_node_recognized (slice_ : node) :
  recognized (VNode slice_) = true ->
  forall st r st',
    transform_slice_node slice_ st = Ok r st' -> recognized r = true.
Proof.
  induction slice_ as [c l o fs IH] using node_children_ind.
  intros Hs st r st' Ht. simpl in Ht.
  destruct (c =? "Index")%string.
  { prim Ht. recog. }
  destruct (c =? "Slice")%string.
  { steps Ht. unfold gen_none_node.
    apply recognized_Call; [reflexivity | | reflexivity].
    cbn [forallb].
    repeat match goal with
           | |- context [if truthy ?b then _ else _] => destruct (truthy b)
           end;
      destruct IS_PY34_OR_GREATER; conj_true; recog. }
  destruct (c =? "ExtSlice")%string; [|discriminate].
  rewrite with_attr_lookup in Ht.
  destruct (lookup "dims" fs) as [[| | | | |dims]|] eqn:Hl;
    try discriminate Ht.
  steps Ht.
  pose proof (lookup_Forall (on_children _) fs "dims" _ IH Hl) as IHd.
  simpl in IHd.
  assert (Hd : forallb recognized dims = true)
    by exact (recognized_getattr (Node c l o fs) "dims" (VList dims) Hs Hl).
  apply recognized_Tuple; [|reflexivity].
  apply forallb_Forall_true.
  apply forallb_Forall_true in Hd.
  refine (mapM_Ok_Forall _
            (fun x => recognized x = true
                      /\ match x with
                         | VNode n =>
                             recognized (VNode n) = true ->
                             forall st r st',
                               transform_slice_node n st = Ok r st' ->
                               recognized r = true
                         | _ => True
                         end)
            _ dims _ _ _ _ _ Hstep).
  - intros x sx y sy [Hx Hrec] Hy. destruct x; try discriminate Hy. eauto.
  - clear Hstep Hl Hs. revert Hd.
    induction IHd as [|x xs Hx _ IHxs]; intros Hd; [constructor|].
    inversion Hd; subst. constructor; auto.
Qed.

Lemma transform_slice_recognized (slice_ : value) st r st' :
  recognized slice_ = true ->
  transform_slice slice_ st = Ok r st' -> recognized r = true.
Proof.
  destruct slice_; try discriminate.
  intros Hs. now apply transform_slice_node_recognized.
Qed.

Lemma visit_Subscript_keeps : keeps_perimeter visit_Subscript.
Proof.
  unfold visit_Subscript. start. steps Hm; recog.
  eapply transform_slice_recognized; [|eassumption]. recog.
Qed.

Lemma visit_Call_keeps : keeps_perimeter visit_Call.
Proof.
  unfold visit_Call. start. steps Hm; recog.
Qed.

Lemma visit_AugAssign_keeps : keeps_perimeter visit_AugAssign.
Proof.
  unfold visit_AugAssign. start. steps Hm; recog.
Qed.

Lemma visit_Print_keeps : keeps_perimeter visit_Print.
Proof.
  unfold visit_Print. start. steps Hm; recog.
  match goal with
  | |- context [is_none ?x] =>
      destruct (is_none x); [reflexivity|];
      assert (recognized x = true) by recog
  end.
  unfold recognized in *. simpl. conj_true.
Qed.

Lemma visit_Assign_keeps : keeps_perimeter visit_Assign.
Proof.
  unfold visit_Assign. start. steps Hm; recog.
  match goal with
  | Hmap : mapM _ (rev ?ts) _ = Ok ?news _,
    Hloc : mapM _ ?news _ = Ok ?final _ |- _ =>
      assert (Ht : Forall (fun x => recognized x = true) (rev ts))
        by (apply Forall_rev, forallb_Forall_true; recog);
      assert (Hnew : Forall (fun x => recognized (VNode x) = true) news)
        by (refine (mapM_Ok_Forall _ _ _ _ _ Ht _ _ _ Hmap);
            intros x ? y ? Hx Hy; steps Hy; recog);
      assert (Hfin : Forall (fun x => recognized (VNode x) = true) final)
        by (refine (mapM_Ok_Forall _ _ _ _ _ Hnew _ _ _ Hloc);
            intros x ? y ? Hx Hy; recog)
  end.
  rewrite recognized_list. apply forallb_Forall_true.
  apply Forall_map. exact Hfin.
Qed.

Lemma visit_ExceptHandler_keeps : keeps_perimeter visit_ExceptHandler.
Proof.
  unfold visit_ExceptHandler. start. steps Hm; recog.
  all: match goal with
       | Hw : gen_unpack_wrapper _ _ _ _ = Ok _ _ |- _ =>
           apply gen_unpack_wrapper_recognized in Hw as [? ?]; [|recog]
       end; recog.
Qed.

Lemma inject_print_collector_recognized (n : node) (position : nat)
    st r st' :
  inject_print_collector n position st = Ok r st' ->
  recognized (VNode n) = true -> recognized (VNode r) = true.
Proof.
  unfold inject_print_collector. intros Hi Hn. steps Hi; recog.
  all: rewrite recognized_list; apply all_list_insert.
  all: lazymatch goal with
       | |- forallb _ ?l = true =>
           change (recognized (VList l) = true); recog
       | |- all_value _ (VNode (fix_missing_locations ?x)) = true =>
           change (all_node has_method (_fix x 1 0) = true);
           rewrite all_fix; reflexivity
       | |- all_value _ ?x = true => change (recognized x = true); recog
       end.
Qed.

Lemma visit_Module_keeps : keeps_perimeter visit_Module.
Proof.
  unfold visit_Module. start. steps Hm.
  eapply inject_print_collector_recognized; eauto.
Qed.

Ltac wrapper_known :=
  repeat match goal with
         | Hw : gen_unpack_wrapper _ _ _ _ = Ok _ _ |- _ =>
             apply gen_unpack_wrapper_recognized in Hw as [? ?]; [|recog]
         end.

Lemma protect_with_item_recognized (n : node) (item : value) st n' item' st' :
  protect_with_item n item st = Ok (n', item') st' ->
  recognized (VNode n) = true -> recognized item = true ->
  recognized (VNode n') = true /\ recognized item' = true.
Proof.
  unfold protect_with_item. intros Hp Hn Hi.
  steps Hp; wrapper_known; split; recog.
Qed.

Lemma visit_With_keeps : keeps_perimeter visit_With.
Proof.
  unfold visit_With. start. steps Hm; wrapper_known; try solve [recog].
  match goal with
  | Hf : foldM _ (?n0, []) (rev ?items) _ = Ok (?n1, ?done) _ |- _ =>
      assert (Hinv : recognized (VNode n1) = true
                     /\ forallb recognized done = true);
      [ refine (foldM_invariant _
                  (fun x => recognized x = true)
                  (fun acc : node * list value =>
                     recognized (VNode (fst acc)) = true
                     /\ forallb recognized (snd acc) = true)
                  (rev items) _ _ (n0, []) _ (n1, done) _ _ Hf)
      | ]
  end.
  - intros [b1 b2] x ? [b1' b2'] ? Hx [Hb1 Hb2] Hf. simpl in *.
    steps Hf.
    match goal with
    | Hp : protect_with_item _ _ _ = Ok _ _ |- _ =>
        apply protect_with_item_recognized in Hp as [? ?]; auto
    end.
    split; [assumption|]. simpl. conj_true.
  - apply Forall_rev, forallb_Forall_true. recog.
  - split; [recog | reflexivity].
  - destruct Hinv as [Hn1 Hdone]. recog.
Qed.

Lemma visit_ClassDef_keeps : keeps_perimeter visit_ClassDef.
Proof.
  unfold visit_ClassDef. start. steps Hm; recog.
  all: apply recognized_CLASS_DEF.
Qed.

Lemma visit_FunctionDef_keeps : keeps_perimeter visit_FunctionDef.
Proof.
  unfold visit_FunctionDef. start. steps Hm.
  all: match goal with
       | Hs : new_print_scope _ _ = Ok ?r _ |- _ =>
           apply new_print_scope_Ok in Hs as (? & ? & Hs);
           steps Hs;
           match goal with
           | Hi : inject_print_collector _ _ _ = Ok r _ |- _ =>
               apply inject_print_collector_recognized in Hi; [|recog]
           end
       end; try solve [recog].
  match goal with
  | Hf : foldM _ ([], []) ?params _ = Ok (?new_params, ?unpacks) _ |- _ =>
      assert (Hinv : forallb recognized new_params = true
                     /\ forallb recognized unpacks = true);
      [ refine (foldM_invariant _
                  (fun x => recognized x = true)
                  (fun acc : list value * list value =>
                     forallb recognized (fst acc) = true
                     /\ forallb recognized (snd acc) = true)
                  params _ _ ([], []) _ (new_params, unpacks) _ _ Hf)
      | ]
  end.
  - intros [b1 b2] arg ? [b1' b2'] ? Harg [Hb1 Hb2] Hf. simpl in *.
    steps Hf; wrapper_known; simpl; rewrite ?forallb_app; simpl;
      split; conj_true.
  - apply forallb_Forall_true. recog.
  - split; reflexivity.
  - destruct Hinv as [Hp Hu]. recog.
    rewrite recognized_list, forallb_app. conj_true. recog.
Qed.

Lemma visit_Lambda_keeps : keeps_perimeter visit_Lambda.
Proof.
  unfold visit_Lambda. start. steps Hm; try solve [recog].
  match goal with
  | Hf : foldM _ ([], []) ?params _ = Ok (?outer, ?inner) _ |- _ =>
      assert (Hinv : forallb recognized outer = true
                     /\ forallb recognized inner = true);
      [ refine (foldM_invariant _
                  (fun x => recognized x = true)
                  (fun acc : list value * list value =>
                     forallb recognized (fst acc) = true
                     /\ forallb recognized (snd acc) = true)
                  params _ _ ([], []) _ (outer, inner) _ _ Hf)
      | ]
  end.
  - intros [b1 b2] arg ? [b1' b2'] ? Harg [Hb1 Hb2] Hf.
    cbn [fst snd] in *.
    steps Hf; cbn [fst snd]; rewrite !forallb_app; split;
      (apply andb_true_iff; split; [assumption|]); recog.
  - apply forallb_Forall_true. recog.
  - split; reflexivity.
  - destruct Hinv as [Ho Hi]. recog.
    match goal with
    | Hv : lookup "vararg" _ = Some ?va, Hk : lookup "kwarg" _ = Some ?kw
      |- context [ast.Call ?f _ []] =>
        assert (recognized va = true) by recog;
        assert (recognized kw = true) by recog;
        assert (recognized f = true) by recog;
        destruct (truthy va); destruct (truthy kw)
    end;
    unfold recognized in *; simpl; conj_true.
Qed.
End MethodsKeepPerimeter.

Section PerimeterTheorem.
Context `{Compat}.

Lemma methods_keep_perimeter :
  Forall (fun cm => keeps_perimeter (snd cm)) methods.
Proof.
  unfold methods.
  repeat (constructor;
          [first [ exact allow_keeps | exact deny_keeps
                 | exact guard_iter_keeps | exact check_import_names_keeps
                 | exact visit_Name_keeps | exact visit_Call_keeps
                 | exact visit_Attribute_keeps | exact visit_Subscript_keeps
                 | exact visit_Assign_keeps | exact visit_AugAssign_keeps
                 | exact visit_Print_keeps | exact visit_ExceptHandler_keeps
                 | exact visit_With_keeps | exact visit_FunctionDef_keeps
                 | exact visit_Lambda_keeps | exact visit_ClassDef_keeps
                 | exact visit_Module_keeps ]|]).
  constructor.
Qed.

Lemma find_method_keeps (c : string) (m : handler) :
  find_method c methods = Some m -> keeps_perimeter m.
Proof.
  pose proof methods_keep_perimeter as Hall.
  induction Hall as [|[c' m'] table Hm _ IH]; simpl; [discriminate|].
  destruct (c' =? c)%string; [intros [= <-]; exact Hm | exact IH].
Qed.

(** Whatever [visit] returns for a tree of the host grammar holds only
    classes that have a [visit_] method. *)
Lemma visit_recognized (n : node) :
  flat_node n = true ->
  forall st out st', visit n st = Ok out st' -> recognized out = true.
Proof.
  induction n as [c l o fs IH] using node_children_ind.
  intros Hflat st out st' Hv. rewrite visit_unfold in Hv.
  change (cls_of (Node c l o fs)) with c in Hv.
  destruct (find_method c methods) as [m|] eqn:Hm.
  - refine (find_method_keeps c m Hm _ _ _ _ _ _ Hv).
    apply node_contents_visit_recognized.
    + unfold has_method. change (cls_of (Node c l o fs)) with c.
      now rewrite Hm.
    + exact IH.
    + exact Hflat.
  - unfold generic_visit in Hv.
    apply bind_Ok in Hv as (? & ? & _ & Hv).
    apply bind_Ok in Hv as (? & ? & _ & Hv).
    apply ret_Ok in Hv as [-> _]. reflexivity.
Qed.

(** C10.  A node whose class has no [visit_] method is given to
    [generic_visit], which records its two diagnostics, returns [None] -
    no replacement node - and does not raise; the traversal then drops
    the node from the list or the attribute that held it.  So for every
    input tree of the host grammar, the tree that the transformer returns
    holds no node of a class without a method. *)
Theorem unrecognized_nodes_are_removed (t : node) (st : state) :
  flat_node t = true ->
  (has_method (cls_of t) = false ->
   exists st', visit t st = Ok VNone st'
               /\ length (errors st') = S (length (errors st))
               /\ length (warnings st') = S (length (warnings st)))
  /\ (forall out st', visit t st = Ok out st' -> recognized out = true).
Proof.
  intros Hflat. split.
  - intros Hm. eexists. split.
    + apply visit_without_method. exact Hm.
    + simpl. rewrite !length_app. simpl. lia.
  - now apply visit_recognized.
Qed.
End PerimeterTheorem.

(** The module [f"{a.b}"] of 3.6: [JoinedStr] has no method, the node is
    rejected and removed, and what is left of the module is recognized. *)
Lemma unrecognized_nodes_are_removed_witness :
  (exists st',
     @visit python36
       (parsed.JoinedStr 1 0
          [VNode (parsed.FormattedValue 1 0
                    (parsed.Attribute 1 3 (parsed.Name 1 3 "a" "Load")
                       "b" "Load"))]) init = Ok VNone st'
     /\ length (errors st') = 1%nat /\ length (warnings st') = 1%nat)
  /\ @recognized python36
       (VNode (parsed.Module [VNode (Node "Expr" (Some 1) (Some 0) [])]))
     = true.
Proof.
  split.
  - exact (proj1
             (@unrecognized_nodes_are_removed python36
                (parsed.JoinedStr 1 0
                   [VNode (parsed.FormattedValue 1 0
                             (parsed.Attribute 1 3
                                (parsed.Name 1 3 "a" "Load") "b" "Load"))])
                init eq_refl) eq_refl).
  - exact (proj2
             (@unrecognized_nodes_are_removed python36
                (parsed.Module
                   [VNode (parsed.Expr 1 0
                      (parsed.JoinedStr 1 0
                         [VNode (parsed.FormattedValue 1 0
                                   (parsed.Attribute 1 3
                                      (parsed.Name 1 3 "a" "Load")
                                      "b" "Load"))]))])
                init eq_refl)
             (VNode (parsed.Module
                       [VNode (Node "Expr" (Some 1) (Some 0) [])]))
             (mkState ["Line 1: JoinedStr statements are not allowed."]
                ["Line 1: JoinedStr statement is not known to RestrictedPython"]
                [] 0 (mkPrintInfo false false))
             eq_refl).
Defined.

(** * What every run of the transformer keeps *)

Lemma prefix_of_refl {A} (l : list A) : prefix_of l l.
Proof. exists []. now rewrite app_nil_r. Qed.

Lemma prefix_of_trans {A} (l1 l2 l3 : list A) :
  prefix_of l1 l2 -> prefix_of l2 l3 -> prefix_of l1 l3.
Proof. intros [a ->] [b ->]. exists (a ++ b)%list. now rewrite app_assoc. Qed.

Lemma prefix_of_app {A} (l more : list A) : prefix_of l (l ++ more).
Proof. now exists more. Qed.

Lemma prefix_of_length {A} (l l' : list A) :
  prefix_of l l' -> (length l <= length l')%nat.
Proof. intros [more ->]. rewrite length_app. lia. Qed.

Lemma extends_refl (st : state) : extends st st.
Proof.
  repeat split; try apply prefix_of_refl; [apply incl_refl | lia].
Qed.

Lemma extends_trans (s1 s2 s3 : state) :
  extends s1 s2 -> extends s2 s3 -> extends s1 s3.
Proof.
  intros (He & Hw & Hu & Hi) (He' & Hw' & Hu' & Hi').
  repeat split; try (eapply prefix_of_trans; eassumption).
  - eapply incl_tran; eassumption.
  - lia.
Qed.

Lemma extends_same (st st' : state) :
  errors st' = errors st -> warnings st' = warnings st ->
  used_names st' = used_names st -> _tmp_idx st' = _tmp_idx st ->
  extends st st'.
Proof.
  intros He Hw Hu Hi. unfold extends. rewrite He, Hw, Hu, Hi.
  repeat split; try apply prefix_of_refl; [apply incl_refl | lia].
Qed.

Lemma dict_set_incl (key : option string) (d : list (option string)) :
  incl d (dict_set key d).
Proof.
  unfold dict_set.
  match goal with |- context [if ?c then _ else _] => destruct c end;
    [apply incl_refl | apply incl_appl, incl_refl].
Qed.

(** The steps of the methods respect every recording relation. *)
Section Respects.
Context (R : state -> state -> Prop) {HR : Recording R}.

Lemma respects_ret {A} (a : A) : respects R (ret a).
Proof. intros st. apply recording_refl. Qed.

Lemma respects_raise {A} (e : exn) : respects R (@raise A e).
Proof. intros st. apply recording_refl. Qed.

Lemma respects_get : respects R get.
Proof. intros st. apply recording_refl. Qed.

Lemma respects_bind {A B} (m : M A) (k : A -> M B) :
  respects R m -> (forall a, respects R (k a)) -> respects R (bind m k).
Proof.
  intros Hm Hk st. unfold bind. specialize (Hm st).
  destruct (m st) as [a st1|e st1]; simpl in *; [|exact Hm].
  eapply recording_trans; [exact Hm | apply Hk].
Qed.

Lemma respects_error (n : node) (info : string) : respects R (error n info).
Proof. intros st. apply recording_error. Qed.

Lemma respects_warn (n : node) (info : string) : respects R (warn n info).
Proof. intros st. apply recording_warn. Qed.

Lemma respects_gen_tmp_name : respects R gen_tmp_name.
Proof. intros st. apply recording_tmp. Qed.

Lemma respects_use_name (id : value) : respects R (use_name id).
Proof.
  destruct id; try apply respects_ret; try apply respects_raise;
    intros st; apply recording_used.
Qed.

Lemma respects_getattr (n : node) (f : string) : respects R (getattr n f).
Proof.
  unfold getattr.
  destruct (lookup f (fields_of n)); [apply respects_ret | apply respects_raise].
Qed.

Lemma respects_getattr_of (v : value) (f : string) :
  respects R (getattr_of v f).
Proof. destruct v; try apply respects_raise. apply respects_getattr. Qed.

Lemma respects_as_node (v : value) (f : string) : respects R (as_node v f).
Proof. destruct v; try apply respects_raise. apply respects_ret. Qed.

Lemma respects_as_list (v : value) : respects R (as_list v).
Proof. destruct v; try apply respects_raise. apply respects_ret. Qed.

Lemma respects_as_list_for (v : value) (f : string) :
  respects R (as_list_for v f).
Proof. destruct v; try apply respects_raise. apply respects_ret. Qed.

Lemma respects_as_str (v : value) (f : string) : respects R (as_str v f).
Proof. destruct v; try apply respects_raise. apply respects_ret. Qed.

Lemma respects_copy_locations `{Compat} (new old : node) :
  respects R (copy_locations new old).
Proof.
  unfold copy_locations.
  destruct (negb _); [apply respects_raise|].
  destruct (lineno_of old); [|apply respects_raise].
  destruct (col_offset_of old); [apply respects_ret | apply respects_raise].
Qed.

Lemma respects_copy_locations_from `{Compat} (new : node) (old : value) :
  respects R (copy_locations_from new old).
Proof.
  destruct old; try apply respects_raise. apply respects_copy_locations.
Qed.

Lemma respects_mapM {A B} (f : A -> M B) (l : list A) :
  Forall (fun x => respects R (f x)) l -> respects R (mapM f l).
Proof.
  induction 1 as [|x l Hx _ IH]; simpl; [apply respects_ret|].
  apply respects_bind; [exact Hx|]. intros y.
  apply respects_bind; [exact IH|]. intros ys. apply respects_ret.
Qed.

Lemma respects_foldM {A B} (f : B -> A -> M B) (l : list A) :
  Forall (fun x => forall b, respects R (f b x)) l ->
  forall b, respects R (foldM f b l).
Proof.
  induction 1 as [|x l Hx _ IH]; intros b; simpl; [apply respects_ret|].
  apply respects_bind; [apply Hx | exact IH].
Qed.

Lemma respects_forM_ {A} (f : A -> M unit) (l : list A) :
  (forall x, respects R (f x)) -> respects R (forM_ f l).
Proof.
  intros Hf. apply respects_foldM. apply Forall_forall. intros x _ b.
  apply Hf.
Qed.

Lemma respects_pop_all (f : value -> M unit) (l : list value) :
  Forall (fun x => respects R (f x)) l -> respects R (pop_all f l).
Proof.
  induction 1 as [|x l Hx _ IH]; simpl; [apply respects_ret|].
  apply respects_bind; [exact IH|]. intros _. exact Hx.
Qed.

Lemma respects_check_name (n : node) (name : value) :
  respects R (check_name n name).
Proof.
  unfold check_name. destruct (is_none name); [apply respects_ret|].
  apply respects_bind; [apply respects_as_str|]. intros s.
  repeat match goal with
         | |- respects R (if ?c then _ else _) => destruct c
         end; try apply respects_error. apply respects_ret.
Qed.

End Respects.

Ltac instances :=
  try lazymatch goal with
      | |- Recording _ => typeclasses eauto
      | |- PrintBlind _ => typeclasses eauto
      end.

Tactic Notation "rapply" uconstr(lemma) := apply lemma; instances.

Ltac rel1_step :=
  lazymatch goal with
  | Hm : respects _ ?m |- respects _ ?m => exact Hm
  | |- respects _ (bind _ _) => apply respects_bind; instances; [|intro]
  | |- respects _ (ret _) => apply respects_ret
  | |- respects _ (raise _) => apply respects_raise
  | |- respects _ get => apply respects_get
  | |- respects _ (getattr _ _) => apply respects_getattr
  | |- respects _ (getattr_of _ _) => apply respects_getattr_of
  | |- respects _ (as_node _ _) => apply respects_as_node
  | |- respects _ (as_list _) => apply respects_as_list
  | |- respects _ (as_list_for _ _) => apply respects_as_list_for
  | |- respects _ (as_str _ _) => apply respects_as_str
  | |- respects _ (error _ _) => apply respects_error
  | |- respects _ (warn _ _) => apply respects_warn
  | |- respects _ (not_allowed _) => apply respects_error
  | |- respects _ gen_tmp_name => apply respects_gen_tmp_name
  | |- respects _ (check_name _ _) => apply respects_check_name
  | |- respects _ (use_name _) => apply respects_use_name
  | |- respects _ (copy_locations _ _) => apply respects_copy_locations
  | |- respects _ (copy_locations_from _ _) =>
      apply respects_copy_locations_from
  | |- respects _ (forM_ _ _) => apply respects_forM_; instances; intro
  | |- respects _ (mapM _ _) =>
      apply respects_mapM; instances; apply Forall_forall; intros ? _
  | |- respects _ (foldM _ _ _) =>
      apply respects_foldM; instances; apply Forall_forall; intros ? _ ?
  | |- respects _ (let _ := _ in _) => cbv zeta
  | |- respects _ (if ?c then _ else _) => destruct c
  | |- respects _ (match ?x with _ => _ end) => destruct x
  end.

Ltac rel1 := rel1_step; instances.

Section Helpers.
Context `{Compat} (R : state -> state -> Prop) {HR : Recording R}.

Lemma respects_unpack_children (gen : node -> M node) (m : Z)
    (elts : list value) :
  Forall (fun x => match x with
                   | VNode t => respects R (gen t)
                   | _ => True
                   end) elts ->
  forall idx offset, respects R (unpack_children gen m elts idx offset).
Proof.
  induction 1 as [|val rest Hval _ IH]; intros idx offset; simpl.
  - rapply respects_ret.
  - destruct (is_starred val); [apply IH|].
    destruct val; try apply IH.
    destruct (cls_of n =? "Tuple")%string; [|apply IH].
    repeat rel1. apply IH.
Qed.

Lemma respects_gen_unpack_spec (tpl : node) :
  respects R (gen_unpack_spec tpl).
Proof.
  induction tpl as [c l o fs IH] using node_children_ind.
  rewrite gen_unpack_spec_unfold.
  change (fields_of (Node c l o fs)) with fs.
  destruct (lookup "elts" fs) as [[| | | | |elts]|] eqn:Hl;
    try solve [repeat rel1].
  pose proof (lookup_Forall (on_children _) fs "elts" _ IH Hl) as IHelts.
  rapply respects_bind; [|intro; repeat rel1].
  rapply respects_unpack_children. exact IHelts.
Qed.

Lemma respects_gen_unpack_spec_of (v : value) :
  respects R (gen_unpack_spec_of v).
Proof.
  unfold gen_unpack_spec_of. repeat rel1. rapply respects_gen_unpack_spec.
Qed.

Lemma respects_protect_unpack_sequence (target v : value) :
  respects R (protect_unpack_sequence target v).
Proof.
  unfold protect_unpack_sequence. repeat rel1.
  rapply respects_gen_unpack_spec_of.
Qed.

Lemma respects_gen_unpack_wrapper (n : node) (target : value)
    (ctx : string) :
  respects R (gen_unpack_wrapper n target ctx).
Proof.
  unfold gen_unpack_wrapper.
  repeat rel1; rapply respects_protect_unpack_sequence.
Qed.

Lemma respects_transform_slice_node (slice_ : node) :
  respects R (transform_slice_node slice_).
Proof.
  induction slice_ as [c l o fs IH] using node_children_ind. simpl.
  destruct (c =? "Index")%string; [repeat rel1|].
  destruct (c =? "Slice")%string; [repeat rel1|].
  destruct (c =? "ExtSlice")%string; [|repeat rel1].
  rewrite with_attr_lookup.
  destruct (lookup "dims" fs) as [[| | | | |dims]|] eqn:Hl;
    try solve [repeat rel1].
  pose proof (lookup_Forall (on_children _) fs "dims" _ IH Hl) as IHd.
  simpl in IHd. rapply respects_bind; [|intro; repeat rel1].
  rapply respects_mapM.
  clear Hl. induction IHd as [|x xs Hx _ IHxs]; [constructor|].
  constructor; [|exact IHxs]. destruct x; repeat rel1.
Qed.

Lemma respects_transform_slice (slice_ : value) :
  respects R (transform_slice slice_).
Proof.
  destruct slice_; simpl; try rapply respects_raise.
  rapply respects_transform_slice_node.
Qed.

Lemma respects_check_parameter (n item : node) :
  respects R (check_parameter n item).
Proof.
  induction item as [c l o fs IH] using node_children_ind. simpl.
  destruct (c =? "Tuple")%string; [|repeat rel1].
  rewrite with_attr_lookup.
  destruct (lookup "elts" fs) as [[| | | | |elts]|] eqn:Hl;
    try solve [repeat rel1].
  pose proof (lookup_Forall (on_children _) fs "elts" _ IH Hl) as IHe.
  simpl in IHe. rapply respects_pop_all.
  clear Hl. induction IHe as [|x xs Hx _ IHxs]; [constructor|].
  constructor; [|exact IHxs]. destruct x; repeat rel1.
Qed.

Lemma respects_check_function_argument_names (n : node) :
  respects R (check_function_argument_names n).
Proof.
  unfold check_function_argument_names, check_function_argument_names_py3.
  repeat rel1.
  rapply respects_pop_all. apply Forall_forall. intros x _.
  destruct x; repeat rel1. rapply respects_check_parameter.
Qed.

Lemma respects_inject_print_collector (n : node) (position : nat) :
  respects R (inject_print_collector n position).
Proof. unfold inject_print_collector. repeat rel1. Qed.

Lemma respects_any_metaclass (keywords : list value) :
  respects R (any_metaclass keywords).
Proof. induction keywords as [|k ks IH]; simpl; repeat rel1. Qed.

Lemma respects_future_imports (body : list value) :
  forall position idx, respects R (future_imports body position idx).
Proof.
  induction body as [|c rest IH]; intros position idx; simpl; repeat rel1.
  apply IH.
Qed.

Lemma respects_protect_with_item (n : node) (item : value) :
  respects R (protect_with_item n item).
Proof.
  unfold protect_with_item. repeat rel1; rapply respects_gen_unpack_wrapper.
Qed.

End Helpers.

Ltac rel2 :=
  first
    [ rel1
    | apply respects_gen_unpack_spec_of
    | apply respects_protect_unpack_sequence
    | apply respects_gen_unpack_wrapper
    | apply respects_transform_slice
    | apply respects_check_function_argument_names
    | apply respects_inject_print_collector
    | apply respects_any_metaclass
    | apply respects_future_imports
    | apply respects_protect_with_item ]; instances.

Ltac rel := repeat rel2.

(** The traversal respects what the visit of every child respects. *)
Section TraversalRespects.
Context (R : state -> state -> Prop) {HR : Recording R}.
Variable v : node -> M value.

Lemma respects_visit_list (l : list value) :
  Forall (fun x => match x with
                   | VNode n => respects R (v n)
                   | _ => True
                   end) l ->
  respects R (visit_list v l).
Proof.
  induction 1 as [|x l Hx _ IH]; simpl; [rapply respects_ret|].
  destruct x; rel.
Qed.

Lemma respects_visit_fields (fs : list (string * value)) :
  Forall (fun fv => on_children (fun n => respects R (v n)) (snd fv)) fs ->
  respects R (visit_fields v fs).
Proof.
  induction 1 as [|[f x] fs Hx _ IH]; simpl; [rapply respects_ret|].
  destruct x; simpl in Hx; rel. rapply respects_visit_list. exact Hx.
Qed.

Lemma respects_node_contents_visit (n : node) :
  Forall (fun fv => on_children (fun n => respects R (v n)) (snd fv))
    (fields_of n) ->
  respects R (node_contents_visit v n).
Proof.
  destruct n as [c l o fs]. simpl. intros Hfs.
  unfold node_contents_visit. rel. rapply respects_visit_fields. exact Hfs.
Qed.
End TraversalRespects.

(** The methods, for a relation that does not look at the print
    bookkeeping. *)
Section PrintRespects.
Context `{Compat} (R : state -> state -> Prop) {HR : Recording R}
  {HP : PrintBlind R}.

Lemma respects_set_print_used : respects R set_print_used.
Proof. intros st. apply print_blind. Qed.

Lemma respects_set_printed_used : respects R set_printed_used.
Proof. intros st. apply print_blind. Qed.

Lemma respects_new_print_scope {A} (body : M A) :
  respects R body -> respects R (new_print_scope body).
Proof.
  intros Hb st. unfold new_print_scope, finally, bind, modify.
  specialize (Hb (set_print_info st (mkPrintInfo false false))).
  destruct (body _) as [a s|e s]; simpl in *;
    (eapply recording_trans; [apply print_blind|]);
    (eapply recording_trans; [exact Hb | apply print_blind]).
Qed.

End PrintRespects.

Ltac hrel :=
  intros contents n Hc;
  repeat first
    [ rel2
    | (apply respects_set_print_used; instances)
    | (apply respects_set_printed_used; instances)
    | (apply respects_new_print_scope; instances) ].

Section MethodsRespect.
Context `{Compat} (R : state -> state -> Prop) {HR : Recording R}
  {HP : PrintBlind R}.

Lemma allow_respects : handler_respects R allow.
Proof. unfold allow. hrel. Qed.

Lemma deny_respects : handler_respects R deny.
Proof. unfold deny. hrel. Qed.

Lemma guard_iter_respects : handler_respects R guard_iter.
Proof. unfold guard_iter. hrel. Qed.

Lemma check_import_names_respects : handler_respects R check_import_names.
Proof. unfold check_import_names. hrel. Qed.

Lemma visit_Name_respects : handler_respects R visit_Name.
Proof. unfold visit_Name. hrel. Qed.

Lemma visit_Call_respects : handler_respects R visit_Call.
Proof. unfold visit_Call. hrel. Qed.

Lemma visit_Attribute_respects : handler_respects R visit_Attribute.
Proof. unfold visit_Attribute. hrel. Qed.

Lemma visit_Subscript_respects : handler_respects R visit_Subscript.
Proof. unfold visit_Subscript. hrel. Qed.

Lemma visit_Assign_respects : handler_respects R visit_Assign.
Proof. unfold visit_Assign. hrel. Qed.

Lemma visit_AugAssign_respects : handler_respects R visit_AugAssign.
Proof. unfold visit_AugAssign. hrel. Qed.

Lemma visit_Print_respects : handler_respects R visit_Print.
Proof. unfold visit_Print. hrel. Qed.

Lemma visit_ExceptHandler_respects : handler_respects R visit_ExceptHandler.
Proof. unfold visit_ExceptHandler. hrel. Qed.

Lemma visit_With_respects : handler_respects R visit_With.
Proof. unfold visit_With. hrel. Qed.

Lemma visit_FunctionDef_respects : handler_respects R visit_FunctionDef.
Proof. unfold visit_FunctionDef. hrel. Qed.

Lemma visit_Lambda_respects : handler_respects R visit_Lambda.
Proof. unfold visit_Lambda. hrel. Qed.

Lemma visit_ClassDef_respects : handler_respects R visit_ClassDef.
Proof. unfold visit_ClassDef. hrel. Qed.

Lemma visit_Module_respects : handler_respects R visit_Module.
Proof. unfold visit_Module. hrel. Qed.
End MethodsRespect.

(** The table of methods holds seventeen different methods. *)
Section MethodTable.
Context `{Compat}.
Variable P : handler -> Prop.
Hypothesis P_allow : P allow.
Hypothesis P_deny : P deny.
Hypothesis P_guard_iter : P guard_iter.
Hypothesis P_check_import_names : P check_import_names.
Hypothesis P_Name : P visit_Name.
Hypothesis P_Call : P visit_Call.
Hypothesis P_Attribute : P visit_Attribute.
Hypothesis P_Subscript : P visit_Subscript.
Hypothesis P_Assign : P visit_Assign.
Hypothesis P_AugAssign : P visit_AugAssign.
Hypothesis P_Print : P visit_Print.
Hypothesis P_ExceptHandler : P visit_ExceptHandler.
Hypothesis P_With : P visit_With.
Hypothesis P_FunctionDef : P visit_FunctionDef.
Hypothesis P_Lambda : P visit_Lambda.
Hypothesis P_ClassDef : P visit_ClassDef.
Hypothesis P_Module : P visit_Module.

Lemma methods_Forall : Forall (fun cm => P (snd cm)) methods.
Proof.
  unfold methods.
  repeat (constructor;
          [first [ exact P_allow | exact P_deny | exact P_guard_iter
                 | exact P_check_import_names | exact P_Name | exact P_Call
                 | exact P_Attribute | exact P_Subscript | exact P_Assign
                 | exact P_AugAssign | exact P_Print | exact P_ExceptHandler
                 | exact P_With | exact P_FunctionDef | exact P_Lambda
                 | exact P_ClassDef | exact P_Module ]|]).
  constructor.
Qed.

Lemma find_method_ind (c : string) (m : handler) :
  find_method c methods = Some m -> P m.
Proof.
  pose proof methods_Forall as Hall.
  induction Hall as [|[c' m'] table Hm _ IH]; simpl; [discriminate|].
  destruct (c' =? c)%string; [intros [= <-]; exact Hm | exact IH].
Qed.
End MethodTable.

Section VisitRespects.
Context `{Compat} (R : state -> state -> Prop) {HR : Recording R}
  {HP : PrintBlind R}.

Lemma find_method_respects (c : string) (m : handler) :
  find_method c methods = Some m -> handler_respects R m.
Proof.
  apply (find_method_ind (handler_respects R)).
  - rapply allow_respects.
  - rapply deny_respects.
  - rapply guard_iter_respects.
  - rapply check_import_names_respects.
  - rapply visit_Name_respects.
  - rapply visit_Call_respects.
  - rapply visit_Attribute_respects.
  - rapply visit_Subscript_respects.
  - rapply visit_Assign_respects.
  - rapply visit_AugAssign_respects.
  - rapply visit_Print_respects.
  - rapply visit_ExceptHandler_respects.
  - rapply visit_With_respects.
  - rapply visit_FunctionDef_respects.
  - rapply visit_Lambda_respects.
  - rapply visit_ClassDef_respects.
  - rapply visit_Module_respects.
Qed.

Lemma generic_visit_respects (n : node) : respects R (generic_visit n).
Proof.
  unfold generic_visit. repeat rel1.
Qed.

Lemma visit_respects (n : node) : respects R (visit n).
Proof.
  induction n as [c l o fs IH] using node_children_ind.
  rewrite visit_unfold. change (cls_of (Node c l o fs)) with c.
  destruct (find_method c methods) as [m|] eqn:Hm.
  - apply (find_method_respects c m Hm).
    rapply respects_node_contents_visit. exact IH.
  - rapply generic_visit_respects.
Qed.
End VisitRespects.

Lemma extends_error (st : state) (msg : string) :
  extends st (set_errors st (errors st ++ [msg])).
Proof.
  repeat split; simpl; try apply prefix_of_refl; try apply prefix_of_app;
    [apply incl_refl | lia].
Qed.

Lemma extends_warn (st : state) (msg : string) :
  extends st (set_warnings st (warnings st ++ [msg])).
Proof.
  repeat split; simpl; try apply prefix_of_refl; try apply prefix_of_app;
    [apply incl_refl | lia].
Qed.

Lemma extends_tmp (st : state) :
  extends st (set_tmp_idx st (_tmp_idx st + 1)).
Proof.
  repeat split; simpl; try apply prefix_of_refl; [apply incl_refl | lia].
Qed.

Lemma extends_used (st : state) (key : option string) :
  extends st (set_used_names st (dict_set key (used_names st))).
Proof.
  repeat split; simpl; try apply prefix_of_refl; [apply dict_set_incl | lia].
Qed.

Lemma extends_print (st : state) (p : PrintInfo) :
  extends st (set_print_info st p).
Proof. now apply extends_same. Qed.

#[local] Instance extends_recording : Recording extends.
Proof.
  split; [ exact extends_refl | exact extends_trans | exact extends_error
         | exact extends_warn | exact extends_tmp | exact extends_used ].
Qed.

#[local] Instance extends_print_blind : PrintBlind extends.
Proof. exact extends_print. Qed.

Lemma visit_extends `{Compat} (n : node) : respects extends (visit n).
Proof. rapply visit_respects. Qed.

(** X1.  Whatever the transformer does with a tree - return a tree, return
    nothing, or raise - it only adds to what it has recorded: the errors
    and the warnings recorded before are still there, in place and
    unchanged, every used name is still known, and the counter of
    temporary names has not gone back. *)
Theorem visit_only_adds_diagnostics `{Compat} (t : node) (st : state) :
  extends st (state_of (visit t st)).
Proof. apply visit_extends. Qed.

(** * Refused constructs are reported, wherever they stand *)

Lemma extends_errors_le (st st' : state) :
  extends st st' -> (length (errors st) <= length (errors st'))%nat.
Proof. intros (He & _). now apply prefix_of_length. Qed.

Lemma respects_Ok {A} (R : state -> state -> Prop) (m : M A) st a st' :
  respects R m -> m st = Ok a st' -> R st st'.
Proof. intros Hm Hr. specialize (Hm st). now rewrite Hr in Hm. Qed.

Lemma reports_bind_l {A B} (m : M A) (k : A -> M B) :
  reports m -> (forall a, respects extends (k a)) -> reports (bind m k).
Proof.
  intros Hm Hk st b st' Hr. apply bind_Ok in Hr as (a & s1 & H1 & H2).
  apply Hm in H1. apply (respects_Ok extends _ _ _ _ (Hk a)) in H2.
  apply extends_errors_le in H2. lia.
Qed.

Lemma reports_bind_r {A B} (m : M A) (k : A -> M B) :
  respects extends m -> (forall a, reports (k a)) -> reports (bind m k).
Proof.
  intros Hm Hk st b st' Hr. apply bind_Ok in Hr as (a & s1 & H1 & H2).
  apply (respects_Ok extends _ _ _ _ Hm) in H1. apply Hk in H2.
  apply extends_errors_le in H1. lia.
Qed.

Lemma reports_raise {A} (e : exn) : reports (@raise A e).
Proof. intros st a st' Hr. discriminate Hr. Qed.

Lemma reports_error (n : node) (info : string) : reports (error n info).
Proof.
  intros st a st' Hr. unfold error, modify in Hr. injection Hr as _ <-.
  simpl. rewrite length_app. simpl. lia.
Qed.

Lemma reports_new_print_scope `{Compat} {A} (body : M A) :
  reports body -> reports (new_print_scope body).
Proof.
  intros Hb st a st'. unfold new_print_scope, finally, bind, modify.
  destruct (body _) as [a' s|e s] eqn:Hr; [|discriminate].
  intros [= _ <-]. apply Hb in Hr. exact Hr.
Qed.

Ltac grows :=
  solve [ repeat first
            [ rel2
            | (apply respects_set_print_used; instances)
            | (apply respects_set_printed_used; instances)
            | (apply respects_new_print_scope; instances) ] ].

Ltac rep1 :=
  lazymatch goal with
  | Hm : reports ?m |- reports ?m => exact Hm
  | |- reports (raise _) => apply reports_raise
  | |- reports (error _ _) => apply reports_error
  | |- reports (not_allowed _) => apply reports_error
  | |- reports (new_print_scope _) => apply reports_new_print_scope
  | Hc : reports ?c |- reports (bind ?m _) =>
      lazymatch m with
      | context [c] => apply reports_bind_l; [ | intro; grows ]
      | _ => apply reports_bind_r; [ grows | intro ]
      end
  | |- reports (if ?c then _ else _) => destruct c
  | |- reports (match ?x with _ => _ end) => destruct x
  end.

Ltac hrep := intros contents n Hc Hr; repeat rep1.

Section MethodsReport.
Context `{Compat}.

Lemma allow_reports : handler_reports allow.
Proof. unfold allow. hrep. Qed.

Lemma deny_always_reports (contents : M node) (n : node) :
  reports (deny contents n).
Proof.
  unfold deny. apply reports_bind_l; [apply reports_error | intro; grows].
Qed.

Lemma deny_reports : handler_reports deny.
Proof. intros contents n _ _. apply deny_always_reports. Qed.

Lemma guard_iter_reports : handler_reports guard_iter.
Proof. unfold guard_iter. hrep. Qed.

Lemma check_import_names_reports : handler_reports check_import_names.
Proof. unfold check_import_names. hrep. Qed.

Lemma visit_Name_reports : handler_reports visit_Name.
Proof. unfold visit_Name. hrep. Qed.

Lemma visit_Call_reports : handler_reports visit_Call.
Proof. unfold visit_Call. hrep. Qed.

Lemma visit_Attribute_reports : handler_reports visit_Attribute.
Proof. unfold visit_Attribute. hrep. Qed.

Lemma visit_Subscript_reports : handler_reports visit_Subscript.
Proof. unfold visit_Subscript. hrep. Qed.

Lemma visit_Assign_reports : handler_reports visit_Assign.
Proof. unfold visit_Assign. hrep. Qed.

Lemma visit_AugAssign_reports : handler_reports visit_AugAssign.
Proof. unfold visit_AugAssign. hrep. Qed.

Lemma visit_Print_reports : handler_reports visit_Print.
Proof. unfold visit_Print. hrep. Qed.

Lemma visit_ExceptHandler_reports : handler_reports visit_ExceptHandler.
Proof. unfold visit_ExceptHandler. hrep. Qed.

Lemma visit_With_reports : handler_reports visit_With.
Proof. unfold visit_With. hrep. Qed.

Lemma visit_FunctionDef_reports : handler_reports visit_FunctionDef.
Proof. unfold visit_FunctionDef. hrep. Qed.

Lemma visit_Lambda_reports : handler_reports visit_Lambda.
Proof. unfold visit_Lambda. hrep. Qed.

Lemma visit_ClassDef_reports : handler_reports visit_ClassDef.
Proof. unfold visit_ClassDef. hrep. Qed.

Lemma visit_Module_reports : handler_reports visit_Module.
Proof. unfold visit_Module. hrep. Qed.

Lemma find_method_reports (c : string) (m : handler) :
  find_method c methods = Some m -> handler_reports m.
Proof.
  apply (find_method_ind handler_reports).
  - exact allow_reports.
  - exact deny_reports.
  - exact guard_iter_reports.
  - exact check_import_names_reports.
  - exact visit_Name_reports.
  - exact visit_Call_reports.
  - exact visit_Attribute_reports.
  - exact visit_Subscript_reports.
  - exact visit_Assign_reports.
  - exact visit_AugAssign_reports.
  - exact visit_Print_reports.
  - exact visit_ExceptHandler_reports.
  - exact visit_With_reports.
  - exact visit_FunctionDef_reports.
  - exact visit_Lambda_reports.
  - exact visit_ClassDef_reports.
  - exact visit_Module_reports.
Qed.

Lemma generic_visit_reports (n : node) : reports (generic_visit n).
Proof.
  unfold generic_visit.
  apply reports_bind_r; [grows | intros _].
  apply reports_bind_l; [apply reports_error | intro; grows].
Qed.
End MethodsReport.

Section ReportedAnywhere.
Context `{Compat}.
Variable bad : node -> bool.
Hypothesis bad_reports : forall n, bad n = true -> reports (visit n).

Lemma visit_children_extend (l : list value) :
  Forall (fun x => match x with
                   | VNode n => respects extends (visit n)
                   | _ => True
                   end) l.
Proof.
  apply Forall_forall. intros [| | | |n|] _; try exact I. apply visit_extends.
Qed.

Lemma visit_list_extends (l : list value) :
  respects extends (visit_list visit l).
Proof. rapply respects_visit_list. apply visit_children_extend. Qed.

Lemma visit_fields_extends (fs : list (string * value)) :
  respects extends (visit_fields visit fs).
Proof.
  rapply respects_visit_fields. apply Forall_forall.
  intros [f [| | | |n|l]] _; simpl; try exact I.
  - apply visit_extends.
  - apply visit_children_extend.
Qed.

Lemma node_contents_visit_extends (n : node) :
  respects extends (node_contents_visit visit n).
Proof.
  destruct n as [c l o fs]. unfold node_contents_visit.
  rapply respects_bind; [apply visit_fields_extends | intro; rapply respects_ret].
Qed.

Lemma visit_list_reports (l : list value) :
  Forall (fun x => match x with
                   | VNode n =>
                       flat_node n = true -> (0 < count_node bad n)%nat ->
                       reports (visit n)
                   | _ => True
                   end) l ->
  forallb (fun x => match x with
                    | VList _ => false
                    | _ => flat_value x
                    end) l = true ->
  (0 < list_sum (map (count_value bad) l))%nat ->
  reports (visit_list visit l).
Proof.
  induction 1 as [|x l Hx _ IH]; simpl; intros Hflat Hbad; [lia|].
  apply andb_true_iff in Hflat as [Hfx Hfl]. specialize (IH Hfl).
  destruct x as [| ? | ? | ? |child| ?]; simpl in Hbad;
    try discriminate Hfx;
    try solve [apply reports_bind_l; [now apply IH | intro; grows]].
  destruct (count_node bad child) eqn:Hn.
  - apply reports_bind_r; [apply visit_extends|].
    intros r. specialize (IH Hbad).
    destruct r; try apply reports_raise; try exact IH;
      (apply reports_bind_l; [exact IH | intro; grows]).
  - apply reports_bind_l; [apply Hx; [exact Hfx | lia]|].
    intros r. destruct r; try rapply respects_raise;
      try apply visit_list_extends;
      (rapply respects_bind; [apply visit_list_extends | intro; grows]).
Qed.

Lemma visit_fields_reports (fs : list (string * value)) :
  Forall (fun fv =>
            on_children (fun n => flat_node n = true ->
                                  (0 < count_node bad n)%nat ->
                                  reports (visit n)) (snd fv)) fs ->
  forallb (fun fv => flat_value (snd fv)) fs = true ->
  (0 < list_sum (map (fun fv => count_value bad (snd fv)) fs))%nat ->
  reports (visit_fields visit fs).
Proof.
  induction 1 as [|[f x] fs Hx _ IH]; simpl; intros Hflat Hbad; [lia|].
  apply andb_true_iff in Hflat as [Hfx Hfl]. specialize (IH Hfl).
  destruct x as [| ? | ? | ? |child|l]; simpl in Hbad, Hx;
    try solve [apply reports_bind_l; [now apply IH | intro; grows]].
  - destruct (count_node bad child) eqn:Hn.
    + apply reports_bind_r; [apply visit_extends|]. intros r.
      apply reports_bind_l; [now apply IH | intro; grows].
    + apply reports_bind_l; [apply Hx; [exact Hfx | lia]|]. intros r.
      rapply respects_bind; [apply visit_fields_extends | intro; grows].
  - destruct (list_sum (map (count_value bad) l)) eqn:Hn.
    + apply reports_bind_r; [apply visit_list_extends|]. intros r.
      apply reports_bind_l; [now apply IH | intro; grows].
    + apply reports_bind_l.
      * apply visit_list_reports; [exact Hx | exact Hfx | lia].
      * intros r.
        rapply respects_bind; [apply visit_fields_extends | intro; grows].
Qed.

Lemma node_contents_visit_reports (n : node) :
  Forall (fun fv =>
            on_children (fun n => flat_node n = true ->
                                  (0 < count_node bad n)%nat ->
                                  reports (visit n)) (snd fv)) (fields_of n) ->
  flat_node n = true ->
  (0 < list_sum (map (fun fv => count_value bad (snd fv)) (fields_of n)))%nat ->
  reports (node_contents_visit visit n).
Proof.
  destruct n as [c l o fs]. simpl. intros IH Hflat Hbad.
  unfold node_contents_visit.
  apply reports_bind_l; [now apply visit_fields_reports | intro; grows].
Qed.

(** A node that is reported when it is visited is reported wherever it
    stands in a tree of the host grammar: the visit of the tree, when it
    returns, has recorded a new error. *)
Lemma reported_anywhere (t : node) :
  flat_node t = true -> (0 < count_node bad t)%nat -> reports (visit t).
Proof.
  induction t as [c l o fs IH] using node_children_ind.
  intros Hflat Hbad.
  destruct (bad (Node c l o fs)) eqn:Hroot; [now apply bad_reports|].
  simpl in Hbad. rewrite Hroot in Hbad. simpl in Hbad.
  rewrite visit_unfold. change (cls_of (Node c l o fs)) with c.
  destruct (find_method c methods) as [m|] eqn:Hm.
  - apply (find_method_reports c m Hm).
    + apply node_contents_visit_extends.
    + apply node_contents_visit_reports; assumption.
  - apply generic_visit_reports.
Qed.
End ReportedAnywhere.

Section Refused.
Context `{Compat}.

Lemma denied_class_method (c : string) :
  mem c denied_classes = true -> find_method c methods = Some deny.
Proof.
  unfold mem, denied_classes. cbn [existsb]. intros Hm.
  repeat (apply orb_true_iff in Hm as [Hm|Hm];
          [apply String.eqb_eq in Hm; subst c; reflexivity|]).
  discriminate Hm.
Qed.

Lemma refused_reports (n : node) : refused n = true -> reports (visit n).
Proof.
  unfold refused. intros Hr. apply orb_true_iff in Hr as [Hr|Hr].
  - apply negb_true_iff in Hr. rewrite (visit_no_method _ Hr).
    apply generic_visit_reports.
  - rewrite (visit_method n _ _ eq_refl (denied_class_method _ Hr)).
    apply deny_always_reports.
Qed.

(** X2.  A tree of the host grammar that holds, anywhere, a node of a
    class that the transformer refuses - a class without a method, or one
    of the ten classes whose method denies it - never passes unnoticed:
    when the visit of the tree returns, it has recorded at least one new
    error. *)
Theorem refused_class_is_reported (t : node) (st : state) (out : value)
    (st' : state) :
  flat_node t = true ->
  (0 < count_node refused t)%nat ->
  visit t st = Ok out st' ->
  (length (errors st) < length (errors st'))%nat.
Proof.
  intros Hflat Hbad Hv.
  exact (reported_anywhere refused refused_reports t Hflat Hbad st out st' Hv).
Qed.

Lemma protected_name_not_print (s : string) :
  protected_name s = true ->
  (s =? "printed")%string = false /\ (s =? "print")%string = false.
Proof.
  unfold protected_name. intros Hp. apply andb_true_iff in Hp as [Hp _].
  apply startswith_spec in Hp as [q ->]. split; reflexivity.
Qed.

Lemma check_name_protected (n : node) (s : string) :
  protected_name s = true -> reports (check_name n (VStr s)).
Proof.
  intros Hp. unfold check_name. simpl. unfold bind at 1. simpl.
  unfold protected_name in Hp. rewrite Hp. apply reports_error.
Qed.

Lemma uses_protected_name_reports (n : node) :
  uses_protected_name n = true -> reports (visit n).
Proof.
  unfold uses_protected_name. intros Hu.
  apply orb_true_iff in Hu as [Hu|Hu]; apply andb_true_iff in Hu as [Hc Hu];
    apply String.eqb_eq in Hc.
  - destruct (lookup "id" (fields_of n)) as [[| | |s| |]|] eqn:Hid;
      try discriminate Hu.
    rewrite (visit_method n "Name" visit_Name Hc eq_refl).
    unfold visit_Name. intros st out st' Hv.
    apply bind_Ok in Hv as (n' & s1 & Hn & Hv).
    pose proof (node_contents_visit_atom _ _ _ _ _ "id" _ Hn Hid eq_refl)
      as Hid'.
    apply (respects_Ok extends _ _ _ _ (node_contents_visit_extends n)) in Hn.
    apply extends_errors_le in Hn.
    apply bind_Ok in Hv as (ctx & s2 & Hctx & Hv).
    apply getattr_Ok in Hctx as [_ ->].
    rewrite (bind_eq _ _ _ _ _ (getattr_eq n' "id" _ _ Hid')) in Hv.
    destruct (protected_name_not_print s Hu) as [Hprinted Hprint].
    cbn [str_eq] in Hv. rewrite Hprinted, Hprint in Hv.
    assert (Hrest : reports (check_name n' (VStr s) ;; ret (VNode n'))).
    { apply reports_bind_l; [now apply check_name_protected | intro; grows]. }
    destruct (isinstance ctx "Load").
    + apply bind_Ok in Hv as (u & s3 & Huse & Hv).
      apply (respects_Ok extends _ _ _ _
               (respects_use_name extends (VStr s))) in Huse.
      apply extends_errors_le in Huse. apply Hrest in Hv. lia.
    + apply Hrest in Hv. lia.
  - destruct (lookup "attr" (fields_of n)) as [[| | |s| |]|] eqn:Hattr;
      try discriminate Hu.
    intros st out st' Hv.
    rewrite (visit_Attribute_name_check n s st Hc Hattr) in Hv.
    match type of Hv with
    | ?rest _ = Ok _ _ =>
        assert (Hrest : respects extends rest)
          by (pose proof (node_contents_visit_extends n); grows)
    end.
    apply (respects_Ok extends _ _ _ _ Hrest) in Hv.
    apply extends_errors_le in Hv. revert Hv.
    unfold add_errors, attribute_name_errors. cbn [errors set_errors].
    unfold protected_name in Hu. rewrite Hu.
    rewrite !length_app. cbn [length]. lia.
Qed.

(** X3.  A tree of the host grammar that holds, anywhere, a name or an
    attribute name that begins with an underscore (and is not [_] alone)
    never passes unnoticed: when the visit of the tree returns, it has
    recorded at least one new error. *)
Theorem protected_name_is_reported (t : node) (st : state) (out : value)
    (st' : state) :
  flat_node t = true ->
  (0 < count_node uses_protected_name t)%nat ->
  visit t st = Ok out st' ->
  (length (errors st) < length (errors st'))%nat.
Proof.
  intros Hflat Hbad Hv.
  exact (reported_anywhere uses_protected_name uses_protected_name_reports
           t Hflat Hbad st out st' Hv).
Qed.
End Refused.

(** The module [yield a] of 3.6: the refused [Yield] stands two levels
    below the root. *)
Lemma refused_class_is_reported_witness :
  (length (errors init)
   < length (errors (mkState ["Line 1: Yield statements are not allowed."]
                       [] [] 0 (mkPrintInfo false false))))%nat.
Proof.
  exact (@refused_class_is_reported python36
           (parsed.Module
              [VNode (parsed.Expr 1 0
                        (parsed.Yield 1 0 (parsed.Name 1 6 "a" "Load")))])
           init
           (VNode (parsed.Module [VNode (Node "Expr" (Some 1) (Some 0) [])]))
           (mkState ["Line 1: Yield statements are not allowed."]
              [] [] 0 (mkPrintInfo false false))
           eq_refl (le_n 1) eq_refl).
Defined.

(** The module [a._b] of 3.6. *)
Lemma protected_name_is_reported_witness :
  (length (errors init)
   < length (errors
               (state_of
                  (@visit python36
                     (parsed.Module
                        [VNode (parsed.Expr 1 0
                                  (parsed.Attribute 1 0
                                     (parsed.Name 1 0 "a" "Load")
                                     "_b" "Load"))]) init))))%nat.
Proof.
  refine (@protected_name_is_reported python36
            (parsed.Module
               [VNode (parsed.Expr 1 0
                         (parsed.Attribute 1 0 (parsed.Name 1 0 "a" "Load")
                            "_b" "Load"))])
            init _ _ eq_refl (le_n 1) _).
  reflexivity.
Defined.

(** * Allowed and denied classes *)

Section AllowedAndDenied.
Context `{Compat}.

Lemma allowed_class_method (c : string) :
  mem c allowed_classes = true -> find_method c methods = Some allow.
Proof.
  unfold mem, allowed_classes. cbn [existsb]. intros Hm.
  repeat (apply orb_true_iff in Hm as [Hm|Hm];
          [apply String.eqb_eq in Hm; subst c; reflexivity|]).
  discriminate Hm.
Qed.

Lemma visit_list_plain (l : list value) :
  Forall (fun x => match x with
                   | VNode n => plain (VNode n) = true ->
                                forall st, visit n st = Ok (VNode n) st
                   | _ => True
                   end) l ->
  forallb plain l = true ->
  forall st, visit_list visit l st = Ok l st.
Proof.
  induction 1 as [|x l Hx _ IH]; simpl; intros Hp st; [reflexivity|].
  apply andb_true_iff in Hp as [Hpx Hpl]. specialize (IH Hpl).
  destruct x as [| ? | ? | ? |child| ?];
    try (rewrite (bind_eq _ _ _ _ _ (IH st)); reflexivity).
  rewrite (bind_eq _ _ _ _ _ (Hx Hpx st)).
  rewrite (bind_eq _ _ _ _ _ (IH st)). reflexivity.
Qed.

Lemma visit_fields_plain (fs : list (string * value)) :
  Forall (fun fv =>
            on_children (fun n => plain (VNode n) = true ->
                                  forall st, visit n st = Ok (VNode n) st)
              (snd fv)) fs ->
  forallb (fun fv => plain (snd fv)) fs = true ->
  forall st, visit_fields visit fs st = Ok fs st.
Proof.
  induction 1 as [|[f x] fs Hx _ IH]; simpl; intros Hp st; [reflexivity|].
  apply andb_true_iff in Hp as [Hpx Hpl]. specialize (IH Hpl).
  destruct x as [| ? | ? | ? |child|l]; simpl in Hx;
    try (rewrite (bind_eq _ _ _ _ _ (IH st)); reflexivity).
  - rewrite (bind_eq _ _ _ _ _ (Hx Hpx st)).
    rewrite (bind_eq _ _ _ _ _ (IH st)). reflexivity.
  - rewrite (bind_eq _ _ _ _ _ (visit_list_plain l Hx Hpx st)).
    rewrite (bind_eq _ _ _ _ _ (IH st)). reflexivity.
Qed.

Lemma visit_plain (t : node) :
  plain (VNode t) = true -> forall st, visit t st = Ok (VNode t) st.
Proof.
  induction t as [c l o fs IH] using node_children_ind.
  intros Hp st. unfold plain in Hp. simpl in Hp.
  apply andb_true_iff in Hp as [Hc Hfs].
  rewrite (visit_method (Node c l o fs) c allow eq_refl
             (allowed_class_method c Hc)).
  assert (Hn : node_contents_visit visit (Node c l o fs) st
               = Ok (Node c l o fs) st).
  { unfold node_contents_visit.
    rewrite (bind_eq _ _ _ _ _ (visit_fields_plain fs IH Hfs st)).
    reflexivity. }
  unfold allow. rewrite (bind_eq _ _ _ _ _ Hn). reflexivity.
Qed.

(** X4.  A tree made only of classes that the transformer allows without
    restriction (literals, operators, comparisons, control flow without
    loops over iterators, ...) passes through the transformer untouched:
    the visit returns the tree itself and records nothing. *)
Theorem allowed_tree_is_unchanged (t : node) (st : state) :
  plain (VNode t) = true -> visit t st = Ok (VNode t) st.
Proof. intros Hp. now apply visit_plain. Qed.

(** X5.  A node of one of the ten denied classes is removed whatever it
    holds: the visit returns [None] and records exactly the one error
    "Line L: <Class> statements are not allowed."; unlike a node of an
    unknown class it gets no warning, and its children are not visited. *)
Theorem denied_class_is_removed (n : node) (st : state) :
  mem (cls_of n) denied_classes = true ->
  visit n st =
  Ok VNone
     (add_errors st
        [diagnostic n (cls_of n ++ " statements are not allowed.")]).
Proof.
  intros Hd.
  rewrite (visit_method n _ _ eq_refl (denied_class_method _ Hd)).
  reflexivity.
Qed.
End AllowedAndDenied.

(** The expression statement [[1, 2] < 3] of 3.6. *)
Lemma allowed_tree_is_unchanged_witness :
  let t :=
    parsed.Expr 1 0
      (Node "Compare" (Some 1) (Some 0)
         [("left", VNode (Node "List" (Some 1) (Some 0)
                            [("elts", VList [VNode (parsed.Num 1 1 1);
                                             VNode (parsed.Num 1 4 2)]);
                             ("ctx", parsed.ctx "Load")]));
          ("ops", VList [parsed.ctx "Lt"]);
          ("comparators", VList [VNode (parsed.Num 1 9 3)])]) in
  @visit python36 t init = Ok (VNode t) init.
Proof.
  intro t. exact (@allowed_tree_is_unchanged python36 t init eq_refl).
Defined.

(** [yield a.b]: the attribute read below the [Yield] is not visited, so
    the name [a] is not among the used names. *)
Lemma denied_class_is_removed_witness :
  @visit python27
    (parsed.Yield 3 4
       (parsed.Attribute 3 10 (parsed.Name 3 10 "a" "Load") "b" "Load"))
    init
  = Ok VNone
       (mkState ["Line 3: Yield statements are not allowed."] [] [] 0
          (mkPrintInfo false false)).
Proof.
  exact (@denied_class_is_removed python27
           (parsed.Yield 3 4
              (parsed.Attribute 3 10 (parsed.Name 3 10 "a" "Load")
                 "b" "Load"))
           init eq_refl).
Defined.

(** * Print scopes, temporary names and positions *)

From Stdlib Require DecimalZ.

#[local] Instance same_print_recording : Recording same_print.
Proof.
  split; unfold same_print; try reflexivity. intros s1 s2 s3 H1 H2.
  now rewrite H2.
Qed.

Lemma new_print_scope_same_print `{Compat} {A} (body : M A) :
  respects same_print (new_print_scope body).
Proof.
  intros st. unfold new_print_scope, finally, bind, modify.
  destruct (body _); reflexivity.
Qed.

(** X6.  A function definition has a print scope of its own: whatever
    its body does - print, read [printed], be rejected, even make the
    transformer raise - the print bookkeeping of the enclosing scope is
    after the visit of the definition what it was before. *)
Theorem function_definition_keeps_print_scope `{Compat}
    (n : node) (st : state) :
  cls_of n = "FunctionDef" ->
  print_info (state_of (visit n st)) = print_info st.
Proof.
  intros Hc.
  rewrite (visit_method n "FunctionDef" visit_FunctionDef Hc eq_refl).
  assert (Hf : respects same_print
                 (visit_FunctionDef (node_contents_visit visit n) n)).
  { unfold visit_FunctionDef.
    repeat first [rel2 | apply new_print_scope_same_print]. }
  apply Hf.
Qed.

Lemma str_of_Z_inj (a b : Z) : str_of_Z a = str_of_Z b -> a = b.
Proof.
  unfold str_of_Z. intros E.
  assert (Hnil : forall z, Z.to_int z <> Decimal.Pos Decimal.Nil
                           /\ Z.to_int z <> Decimal.Neg Decimal.Nil).
  { intros z. split; intros Hz; pose proof (f_equal Z.of_int Hz) as Hz';
      rewrite DecimalZ.of_to in Hz'; subst z; discriminate Hz. }
  apply (f_equal NilZero.int_of_string) in E.
  rewrite !NilZero.isi in E by apply Hnil.
  injection E as E. now apply DecimalZ.to_int_inj.
Qed.

Lemma append_inj_r (p a b : string) : p ++ a = p ++ b -> a = b.
Proof. induction p as [|c p IH]; simpl; [auto | intros [= E]; auto]. Qed.

(** X7.  The name that [gen_tmp_name] hands out is one that user code
    cannot use: [check_name] records an error for it.  So a temporary
    variable never collides with a variable of the source that was
    accepted. *)
Theorem temporary_name_is_protected (n : node) (st : state) :
  exists name st1,
    gen_tmp_name st = Ok name st1 /\
    protected_name name = true /\
    check_name n (VStr name) st1 =
    Ok tt (add_errors st1
             [diagnostic n (dquote ++ name ++ dquote
                ++ " is an invalid variable name because it starts with "
                ++ dquote ++ "_" ++ dquote)]).
Proof.
  do 2 eexists. split; [reflexivity|].
  assert (Hp : protected_name ("_tmp" ++ str_of_Z (_tmp_idx st)) = true)
    by reflexivity.
  split; [exact Hp|].
  unfold check_name. cbn [is_none as_str]. unfold bind at 1. cbn [ret].
  unfold protected_name in Hp. rewrite Hp. reflexivity.
Qed.

(** X8.  A temporary name is handed out once: a later call of
    [gen_tmp_name], after any activity that only continues the state,
    returns a different name. *)
Theorem temporary_names_are_fresh
    (st s1 s2 s3 : state) (first later : string) :
  gen_tmp_name st = Ok first s1 ->
  extends s1 s2 ->
  gen_tmp_name s2 = Ok later s3 ->
  first <> later.
Proof.
  intros H1 (_ & _ & _ & Hidx) H2.
  unfold gen_tmp_name, bind, get, modify, ret in H1, H2.
  injection H1 as <- <-. injection H2 as <- <-. simpl in Hidx.
  intros E. apply (append_inj_r "_tmp") in E.
  apply str_of_Z_inj in E. lia.
Qed.

Lemma temporary_names_are_fresh_witness : "_tmp0" <> "_tmp1".
Proof.
  exact (temporary_names_are_fresh init (set_tmp_idx init 1)
           (set_tmp_idx init 1) (set_tmp_idx init 2) "_tmp0" "_tmp1"
           eq_refl (extends_refl _) eq_refl).
Defined.

(** [def f(): printed], in the state of a module that has not printed. *)
Lemma function_definition_keeps_print_scope_witness :
  let t :=
    Node "FunctionDef" (Some 1) (Some 0)
      [("name", VStr "f");
       ("args", VNode (Node "arguments" None None
                         [("args", VList []); ("vararg", VNone);
                          ("kwonlyargs", VList []);
                          ("kw_defaults", VList []);
                          ("kwarg", VNone); ("defaults", VList [])]));
       ("body", VList [VNode (parsed.Expr 2 4
                                (parsed.Name 2 4 "printed" "Load"))]);
       ("decorator_list", VList []); ("returns", VNone)] in
  print_info (state_of (@visit python36 t init)) = print_info init.
Proof.
  intro t.
  exact (@function_definition_keeps_print_scope python36 t init eq_refl).
Defined.

Lemma copy_locations_eq `{Compat} (new old : node) (l o : Z) (st : state) :
  has_location (cls_of new) = true ->
  lineno_of old = Some l -> col_offset_of old = Some o ->
  copy_locations new old st = Ok (located l o new) st.
Proof.
  intros Hloc Hl Ho. unfold copy_locations. now rewrite Hloc, Hl, Ho.
Qed.

Section Positions.
Context `{Compat}.

Lemma placed_fields (n : node) :
  placed n =
  (negb (has_location (cls_of n))
   || (match lineno_of n with Some _ => true | None => false end
       && match col_offset_of n with Some _ => true | None => false end))
  && forallb (fun fv => placed_value (snd fv)) (fields_of n).
Proof. destruct n; reflexivity. Qed.

Lemma fix_placed (n : node) : forall l o, placed (_fix n l o) = true.
Proof.
  induction n as [c ln co fs IH] using node_children_ind.
  intros l o. rewrite placed_fields. apply andb_true_iff. split.
  - simpl. destruct (has_location c); [|reflexivity].
    destruct ln, co; reflexivity.
  - simpl. apply forallb_forall. intros [f v] Hin.
    apply in_map_iff in Hin as ([g w] & E & Hin). injection E as <- <-.
    rewrite Forall_forall in IH. specialize (IH _ Hin).
    destruct w; simpl in IH |- *; try reflexivity; [apply IH|].
    apply forallb_forall. intros x Hx.
    apply in_map_iff in Hx as (y & <- & Hy).
    rewrite Forall_forall in IH. specialize (IH _ Hy).
    destruct y; try reflexivity. apply IH.
Qed.

Lemma located_placed (l o : Z) (new : node) : placed (located l o new) = true.
Proof.
  destruct new as [c ln co fs]. unfold located, fix_missing_locations.
  apply fix_placed.
Qed.

Lemma copy_locations_placed (new old r : node) (st st' : state) :
  copy_locations new old st = Ok r st' -> placed r = true.
Proof.
  unfold copy_locations.
  destruct (negb (has_location (cls_of new))); [discriminate|].
  destruct (lineno_of old); [|discriminate].
  destruct (col_offset_of old); [|discriminate].
  intros [= <- _]. apply located_placed.
Qed.

Lemma fix_unplaced (n : node) : forall l o, unplaced (_fix n l o) = unplaced n.
Proof.
  induction n as [c ln co fs IH] using node_children_ind.
  intros l o. simpl. f_equal. rewrite map_map.
  apply map_ext_Forall. revert IH. apply Forall_impl.
  intros [f v] Hv. simpl. f_equal.
  destruct v; simpl in *; try reflexivity; [now rewrite Hv|].
  f_equal. rewrite map_map. apply map_ext_Forall. revert Hv.
  apply Forall_impl. intros x Hx. destruct x; try reflexivity.
  now rewrite Hx.
Qed.

Lemma same_if_set_refl (a : option Z) : same_if_set a a = true.
Proof. destruct a; simpl; [apply Z.eqb_refl | reflexivity]. Qed.

Lemma fix_positions_kept (n : node) :
  forall l o, positions_kept n (_fix n l o) = true.
Proof.
  induction n as [c ln co fs IH] using node_children_ind.
  intros l o. cbn [_fix positions_kept].
  set (l' := if has_location c
             then match ln with Some x => x | None => l end else l).
  set (o' := if has_location c
             then match co with Some x => x | None => o end else o).
  apply andb_true_iff. split.
  - destruct (has_location c), ln, co; simpl; rewrite ?Z.eqb_refl; reflexivity.
  - clearbody l' o'. clear l o.
    induction IH as [|[f v] fs Hv _ IHfs]; [reflexivity|].
    cbn [map]. apply andb_true_iff. split; [|exact IHfs].
    destruct v; try reflexivity; [apply Hv|].
    simpl in Hv. induction Hv as [|x xs Hx _ IHxs]; [reflexivity|].
    cbn [map]. destruct x; try exact IHxs.
    apply andb_true_iff. split; [apply Hx | exact IHxs].
Qed.

Lemma located_unplaced (l o : Z) (new : node) :
  unplaced (located l o new) = unplaced new.
Proof.
  destruct new as [c ln co fs]. unfold located, fix_missing_locations.
  rewrite fix_unplaced. reflexivity.
Qed.

Lemma located_positions_kept (l o : Z) (new : node) :
  positions_kept (at_position l o new) (located l o new) = true.
Proof.
  destruct new as [c ln co fs]. unfold located, fix_missing_locations.
  apply fix_positions_kept.
Qed.

(** X9.  [copy_locations] returns the new node with the position of the
    old one and leaves no gap below it: the result is the new node up to
    positions, its own position is that of the old node, every position
    that the new node had below its root is kept, and every node that can
    carry a position has one.  It needs a new node of a class with
    position attributes and an old node with a position, and does not
    touch the state of the transformer. *)
Theorem copy_locations_leaves_no_gap
    (new old : node) (l o : Z) (st : state) :
  has_location (cls_of new) = true ->
  lineno_of old = Some l -> col_offset_of old = Some o ->
  exists r,
    copy_locations new old st = Ok r st /\
    unplaced r = unplaced new /\
    lineno_of r = Some l /\ col_offset_of r = Some o /\
    positions_kept (at_position l o new) r = true /\
    placed r = true.
Proof.
  intros Hloc Hl Ho. exists (located l o new).
  split; [now apply copy_locations_eq|].
  split; [apply located_unplaced|].
  split; [destruct new as [c ln co fs]; simpl in *; now rewrite Hloc|].
  split; [destruct new as [c ln co fs]; simpl in *; now rewrite Hloc|].
  split; [apply located_positions_kept | apply located_placed].
Qed.
End Positions.

(** The call [_getattr_(a, "b")] as [visit_Attribute] builds it, placed
    at line 3, column 7: the name [a] keeps its own position, line 3,
    column 7 of the source, and the new nodes get that of the call. *)
Lemma copy_locations_leaves_no_gap_witness :
  let new :=
    ast.Call (ast.Name (VStr "_getattr_") ast.Load)
      [VNode (parsed.Name 3 9 "a" "Load"); VNode (ast.Str (VStr "b"))] [] in
  exists r,
    @copy_locations python36 new
      (parsed.Attribute 3 7 (parsed.Name 3 9 "a" "Load") "b" "Load") init
    = Ok r init /\
    unplaced r = unplaced new /\
    lineno_of r = Some 3 /\ col_offset_of r = Some 7 /\
    positions_kept (at_position 3 7 new) r = true /\
    @placed python36 r = true.
Proof.
  intro new.
  exact (@copy_locations_leaves_no_gap python36 new
           (parsed.Attribute 3 7 (parsed.Name 3 9 "a" "Load") "b" "Load")
           3 7 init eq_refl eq_refl eq_refl).
Defined.

(** The result for that call, node by node. *)
Example copy_locations_of_guard :
  @copy_locations python36
    (ast.Call (ast.Name (VStr "_getattr_") ast.Load)
       [VNode (parsed.Name 3 9 "a" "Load"); VNode (ast.Str (VStr "b"))] [])
    (parsed.Attribute 3 7 (parsed.Name 3 9 "a" "Load") "b" "Load") init
  = Ok (Node "Call" (Some 3) (Some 7)
          [("func", VNode (parsed.Name 3 7 "_getattr_" "Load"));
           ("args", VList [VNode (parsed.Name 3 9 "a" "Load");
                           VNode (Node "Str" (Some 3) (Some 7)
                                    [("s", VStr "b")])]);
           ("keywords", VList [])]) init.
Proof. reflexivity. Qed.

(** * The guards that the methods put in *)

Lemma bind_bind {A B C} (m : M A) (k : A -> M B) (k' : B -> M C) st :
  bind (bind m k) k' st = bind m (fun a => bind (k a) k') st.
Proof. unfold bind. destruct (m st); reflexivity. Qed.

Lemma bind_ret {A B} (a : A) (k : A -> M B) st : bind (ret a) k st = k a st.
Proof. reflexivity. Qed.

(** Runs the next step of a method whose result is known. *)
Ltac run1 :=
  match goal with
  | |- context [bind (bind ?m ?k) ?k' ?st] => rewrite (bind_bind m k k' st)
  | |- context [bind (ret ?a) ?k ?st] => rewrite (bind_ret a k st)
  | |- context [as_list (VList ?l)] =>
      change (as_list (VList l)) with (@ret (list value) l)
  | |- context [as_list_for (VList ?l) ?f] =>
      change (as_list_for (VList l) f) with (@ret (list value) l)
  | |- context [as_node (VNode ?n) ?f] =>
      change (as_node (VNode n) f) with (@ret node n)
  | |- context [as_str (VStr ?s) ?f] =>
      change (as_str (VStr s) f) with (@ret string s)
  | |- context [getattr_of (VNode ?n) ?f] =>
      change (getattr_of (VNode n) f) with (getattr n f)
  | |- context [copy_locations_from ?new (VNode ?old)] =>
      change (copy_locations_from new (VNode old))
        with (copy_locations new old)
  | Hf : lookup ?f (fields_of ?n) = Some ?v
    |- context [bind (getattr ?n ?f) ?k ?st] =>
      rewrite (bind_eq (getattr n f) k st v st (getattr_eq n f v st Hf))
  | Hm : ?m ?st = Ok ?a ?st1 |- context [bind ?m ?k ?st] =>
      rewrite (bind_eq m k st a st1 Hm)
  | Hl : lineno_of ?old = Some ?l, Ho : col_offset_of ?old = Some ?o
    |- context [bind (copy_locations ?new ?old) ?k ?st] =>
      rewrite (bind_eq (copy_locations new old) k st _ st
                 (copy_locations_eq new old l o st eq_refl Hl Ho))
  end.

Ltac run := repeat (run1; cbv beta).

Section Guards.
Context `{Compat}.

(** X10.  An attribute that is assigned to or deleted keeps its place,
    and its object is wrapped: [a.b = c] becomes [_write_(a).b = c] and
    [del a.b] becomes [del _write_(a).b].  The call of [_write_] stands at
    the position of the object, not of the attribute access. *)
Theorem visit_Attribute_store_guards_object
    (n n' obj : node) (a : string) (ctx : value) (l o : Z)
    (st st' : state) :
  cls_of n = "Attribute" ->
  lookup "attr" (fields_of n) = Some (VStr a) ->
  lookup "ctx" (fields_of n) = Some ctx ->
  isinstance ctx "Store" = true \/ isinstance ctx "Del" = true ->
  node_contents_visit visit n (add_errors st (attribute_name_errors n a))
    = Ok n' st' ->
  lookup "value" (fields_of n') = Some (VNode obj) ->
  lineno_of obj = Some l -> col_offset_of obj = Some o ->
  visit n st =
  Ok (VNode (setattr n' "value"
               (VNode (located l o
                         (ast.Call (ast.Name (VStr "_write_") ast.Load)
                            [VNode obj] []))))) st'.
Proof.
  intros Hc Ha Hctx Hstore Hn Hv Hl Ho.
  rewrite (visit_Attribute_name_check n _ st Hc Ha). run.
  assert (Hload : isinstance ctx "Load" = false).
  { unfold isinstance in *. destruct ctx; try reflexivity.
    destruct Hstore as [E|E]; apply String.eqb_eq in E; rewrite E;
      reflexivity. }
  assert (Hsd : isinstance ctx "Store" || isinstance ctx "Del" = true)
    by (destruct Hstore as [-> | ->]; [reflexivity | apply orb_true_r]).
  rewrite Hload, Hsd. run. cbn [copy_locations_from]. run. reflexivity.
Qed.

(** X11.  A subscript that is assigned to or deleted keeps its place and
    its slice, and its object is wrapped: [a[i] = c] becomes
    [_write_(a)[i] = c].  Here the call of [_write_] stands at the
    position of the subscript. *)
Theorem visit_Subscript_store_guards_object
    (n n' : node) (ctx obj : value) (l o : Z) (st st' : state) :
  cls_of n = "Subscript" ->
  lineno_of n = Some l -> col_offset_of n = Some o ->
  node_contents_visit visit n st = Ok n' st' ->
  lookup "ctx" (fields_of n') = Some ctx ->
  isinstance ctx "Store" = true \/ isinstance ctx "Del" = true ->
  lookup "value" (fields_of n') = Some obj ->
  visit n st =
  Ok (VNode (setattr n' "value"
               (VNode (located l o
                         (ast.Call (ast.Name (VStr "_write_") ast.Load)
                            [obj] []))))) st'.
Proof.
  intros Hc Hl Ho Hn Hctx Hstore Hv.
  rewrite (visit_method n "Subscript" visit_Subscript Hc eq_refl).
  unfold visit_Subscript. run.
  assert (Hload : isinstance ctx "Load" = false).
  { unfold isinstance in *. destruct ctx; try reflexivity.
    destruct Hstore as [E|E]; apply String.eqb_eq in E; rewrite E;
      reflexivity. }
  assert (Hsd : isinstance ctx "Del" || isinstance ctx "Store" = true)
    by (destruct Hstore as [-> | ->]; [apply orb_true_r | reflexivity]).
  rewrite Hload, Hsd. run.
  apply node_contents_visit_Ok in Hn as (_ & Hl' & Ho' & _).
  rewrite <- Hl' in Hl. rewrite <- Ho' in Ho. run. reflexivity.
Qed.

(** X12.  A loop, or the [for] clause of a comprehension, iterates over
    the guarded iterable: [for x in xs] becomes [for x in _getiter_(xs)].
    When the target is a tuple, the iterable is
    [_iter_unpack_sequence_(xs, spec, _getiter_)], with the unpack spec of
    the target.  The call stands at the position of the iterable. *)
Theorem guard_iter_wraps_iterable
    (n n' iter : node) (target : value) (l o : Z) (st st' : state) :
  cls_of n = "For" \/ cls_of n = "comprehension" ->
  node_contents_visit visit n st = Ok n' st' ->
  lookup "target" (fields_of n') = Some target ->
  lookup "iter" (fields_of n') = Some (VNode iter) ->
  lineno_of iter = Some l -> col_offset_of iter = Some o ->
  (isinstance target "Tuple" = false ->
   visit n st =
   Ok (VNode (setattr n' "iter"
                (VNode (located l o
                          (ast.Call (ast.Name (VStr "_getiter_") ast.Load)
                             [VNode iter] []))))) st')
  /\ (forall tpl, target = VNode tpl -> cls_of tpl = "Tuple" ->
      sequence_target tpl = true ->
      exists spec,
        gen_unpack_spec tpl st' = Ok spec st' /\
        visit n st =
        Ok (VNode (setattr n' "iter"
                     (VNode (located l o
                               (ast.Call
                                  (ast.Name (VStr "_iter_unpack_sequence_")
                                     ast.Load)
                                  [VNode iter; VNode spec;
                                   VNode (ast.Name (VStr "_getiter_")
                                            ast.Load)] []))))) st').
Proof.
  intros Hc Hn Ht Hi Hl Ho.
  assert (Hv : visit n = guard_iter (node_contents_visit visit n) n).
  { destruct Hc as [Hc|Hc].
    - exact (visit_method n "For" visit_For Hc eq_refl).
    - exact (visit_method n "comprehension" visit_comprehension Hc eq_refl). }
  rewrite Hv. unfold guard_iter. run. split.
  - intros Htuple. rewrite Htuple. run. cbn [copy_locations_from]. run.
    reflexivity.
  - intros tpl -> Hct Hseq.
    destruct (gen_unpack_spec_total tpl Hseq) as (spec & Hspec).
    exists spec. split; [apply Hspec|].
    assert (Htuple : isinstance (VNode tpl) "Tuple" = true)
      by (unfold isinstance; rewrite Hct; reflexivity).
    rewrite Htuple.
    unfold gen_unpack_spec_of. cbn [as_node]. run.
    rewrite (bind_eq _ _ _ _ _ (Hspec st')). run.
    cbn [copy_locations_from]. run. reflexivity.
Qed.
End Guards.

(** The target of [a.b = c]. *)
Lemma visit_Attribute_store_guards_object_witness :
  let n := parsed.Attribute 1 0 (parsed.Name 1 0 "a" "Load") "b" "Store" in
  @visit python36 n init =
  Ok (VNode
        (setattr n "value"
           (VNode (@located python36 1 0
                     (ast.Call (ast.Name (VStr "_write_") ast.Load)
                        [VNode (parsed.Name 1 0 "a" "Load")] [])))))
     (mkState [] [] [Some "a"] 0 (mkPrintInfo false false)).
Proof.
  intro n.
  exact (@visit_Attribute_store_guards_object python36 n n
           (parsed.Name 1 0 "a" "Load") "b" (parsed.ctx "Store") 1 0 init
           (mkState [] [] [Some "a"] 0 (mkPrintInfo false false))
           eq_refl eq_refl eq_refl (or_introl eq_refl) eq_refl eq_refl
           eq_refl eq_refl).
Defined.

(** The target of [del a[0]]. *)
Lemma visit_Subscript_store_guards_object_witness :
  let n :=
    parsed.Subscript 1 4 (parsed.Name 1 4 "a" "Load")
      (Node "Index" None None [("value", VNode (parsed.Num 1 6 0))]) "Del" in
  @visit python36 n init =
  Ok (VNode
        (setattr n "value"
           (VNode (@located python36 1 4
                     (ast.Call (ast.Name (VStr "_write_") ast.Load)
                        [VNode (parsed.Name 1 4 "a" "Load")] [])))))
     (mkState [] [] [Some "a"] 0 (mkPrintInfo false false)).
Proof.
  intro n.
  exact (@visit_Subscript_store_guards_object python36 n n
           (parsed.ctx "Del") (VNode (parsed.Name 1 4 "a" "Load")) 1 4 init
           (mkState [] [] [Some "a"] 0 (mkPrintInfo false false))
           eq_refl eq_refl eq_refl eq_refl eq_refl (or_intror eq_refl)
           eq_refl).
Defined.

(** [for x in xs: pass] *)
Lemma guard_iter_wraps_iterable_witness :
  let n :=
    Node "For" (Some 1) (Some 0)
      [("target", VNode (parsed.Name 1 4 "x" "Store"));
       ("iter", VNode (parsed.Name 1 9 "xs" "Load"));
       ("body", VList [VNode (Node "Pass" (Some 1) (Some 13) [])]);
       ("orelse", VList [])] in
  @visit python36 n init =
  Ok (VNode
        (setattr n "iter"
           (VNode (@located python36 1 9
                     (ast.Call (ast.Name (VStr "_getiter_") ast.Load)
                        [VNode (parsed.Name 1 9 "xs" "Load")] [])))))
     (mkState [] [] [Some "xs"] 0 (mkPrintInfo false false)).
Proof.
  intro n.
  exact (proj1
           (@guard_iter_wraps_iterable python36 n n
              (parsed.Name 1 9 "xs" "Load")
              (VNode (parsed.Name 1 4 "x" "Store")) 1 9 init
              (mkState [] [] [Some "xs"] 0 (mkPrintInfo false false))
              (or_introl eq_refl) eq_refl eq_refl eq_refl eq_refl eq_refl)
           eq_refl).
Defined.

(** * Calls *)

Section Calls.
Context `{Compat}.

(** What [visit_Call] does with the function of the call, before it looks
    at the arguments. *)
Lemma visit_Call_name_check (n : node) (func : value) (st : state) :
  cls_of n = "Call" ->
  lookup "func" (fields_of n) = Some func ->
  (forall f, func = VNode f -> cls_of f = "Name" ->
             exists id, lookup "id" (fields_of f) = Some id) ->
  visit n st =
  (needs_wrap <-
     (if IS_PY35_OR_GREATER then
        args <- getattr n "args" ;; args <- as_list args ;;
        keywords <- getattr n "keywords" ;; keywords <- as_list keywords ;;
        kw <- foldM (fun w keyword_arg =>
                       arg <- getattr_of keyword_arg "arg" ;;
                       ret (w || is_none arg)) false keywords ;;
        ret (existsb (fun pos_arg => isinstance pos_arg "Starred") args || kw)
      else
        starargs <- getattr n "starargs" ;;
        if negb (is_none starargs) then ret true
        else kwargs <- getattr n "kwargs" ;; ret (negb (is_none kwargs))) ;;
   n <- node_contents_visit visit n ;;
   if negb needs_wrap then ret (VNode n) else
   args <- getattr n "args" ;; args <- as_list_for args "insert" ;;
   func <- getattr n "func" ;;
   let n := setattr n "args" (VList (func :: args)) in
   new_func <- copy_locations_from (ast.Name (VStr "_apply_") ast.Load) func ;;
   ret (VNode (setattr n "func" new_func)))
    (add_errors st (call_name_errors n func)).
Proof.
  intros Hc Hf Hid.
  rewrite (visit_method n "Call" visit_Call Hc eq_refl). unfold visit_Call.
  rewrite (bind_eq _ _ _ _ _ (getattr_eq n "func" _ st Hf)).
  unfold call_name_errors.
  destruct func as [| | | |f|]; cbn [isinstance];
    try (rewrite bind_ret, add_errors_nil; reflexivity).
  destruct (cls_of f =? "Name")%string eqn:Hname;
    [|rewrite bind_ret, add_errors_nil; reflexivity].
  apply String.eqb_eq in Hname.
  destruct (Hid f eq_refl Hname) as (id & Hl). rewrite Hl.
  rewrite bind_bind. cbn [getattr_of].
  rewrite (bind_eq _ _ _ _ _ (getattr_eq f "id" _ st Hl)).
  destruct (str_eq id "exec");
    [|destruct (str_eq id "eval")];
    unfold bind at 1; rewrite ?error_eq; cbn [ret];
    rewrite ?add_errors_nil; reflexivity.
Qed.

Lemma keywords_double_star (keywords : list value) :
  Forall (fun k => exists kn a,
            k = VNode kn /\ lookup "arg" (fields_of kn) = Some a) keywords ->
  forall w st,
    foldM (fun w keyword_arg =>
             arg <- getattr_of keyword_arg "arg" ;;
             ret (w || is_none arg)) w keywords st
    = Ok (w || existsb double_star keywords) st.
Proof.
  induction 1 as [|k ks (kn & a & -> & Ha) _ IH]; intros w st; simpl.
  - now rewrite orb_false_r.
  - rewrite bind_bind. cbn [getattr_of].
    rewrite (bind_eq _ _ _ _ _ (getattr_eq kn "arg" _ st Ha)).
    rewrite bind_ret, IH, Ha, orb_assoc. reflexivity.
Qed.

(** X13.  A call of the name [exec] or [eval] is an error: the visit
    records "Exec calls are not allowed." (or "Eval ...") before it does
    anything else, so the message is among the errors whatever happens
    to the rest of the call. *)
Theorem exec_and_eval_calls_are_reported
    (n func : node) (id : string) (st : state) :
  cls_of n = "Call" ->
  lookup "func" (fields_of n) = Some (VNode func) ->
  cls_of func = "Name" ->
  lookup "id" (fields_of func) = Some (VStr id) ->
  id = "exec" \/ id = "eval" ->
  prefix_of
    (errors st
     ++ [diagnostic n ((if (id =? "exec")%string then "Exec" else "Eval")
                       ++ " calls are not allowed.")])
    (errors (state_of (visit n st))).
Proof.
  intros Hc Hf Hname Hid Hbad.
  rewrite (visit_Call_name_check n (VNode func) st Hc Hf)
    by (intros f [= <-] _; eauto).
  match goal with
  | |- prefix_of _ (errors (state_of (?rest ?s0))) =>
      assert (Hrest : respects extends rest)
        by (pose proof (node_contents_visit_extends n); grows);
      destruct (Hrest s0) as (He & _);
      replace (errors s0) with
        (errors st
         ++ [diagnostic n ((if (id =? "exec")%string then "Exec" else "Eval")
                           ++ " calls are not allowed.")])%list in He;
      [exact He|]
  end.
  unfold call_name_errors. rewrite Hname, Hid.
  destruct Hbad as [-> | ->]; reflexivity.
Qed.

(** X14.  From 3.5 on, a call with [*args] or [**kwargs] is made through
    [_apply_]: [f( *a )] becomes [_apply_(f, *a )], with the new function
    name at the position of the old function; a call without them is
    left as the visit of its children returned it. *)
Theorem visit_Call_applies_star_arguments
    (n n' func' : node) (func : value) (args keywords args' : list value)
    (l o : Z) (st st' : state) :
  IS_PY35_OR_GREATER = true ->
  cls_of n = "Call" ->
  lookup "func" (fields_of n) = Some func ->
  (forall f, func = VNode f -> cls_of f = "Name" ->
             exists id, lookup "id" (fields_of f) = Some id) ->
  lookup "args" (fields_of n) = Some (VList args) ->
  lookup "keywords" (fields_of n) = Some (VList keywords) ->
  Forall (fun k => exists kn a,
            k = VNode kn /\ lookup "arg" (fields_of kn) = Some a) keywords ->
  node_contents_visit visit n (add_errors st (call_name_errors n func))
    = Ok n' st' ->
  lookup "args" (fields_of n') = Some (VList args') ->
  lookup "func" (fields_of n') = Some (VNode func') ->
  lineno_of func' = Some l -> col_offset_of func' = Some o ->
  visit n st =
  Ok (VNode
        (if has_star_arguments args keywords
         then setattr (setattr n' "args" (VList (VNode func' :: args')))
                "func"
                (VNode (located l o (ast.Name (VStr "_apply_") ast.Load)))
         else n')) st'.
Proof.
  intros Hpy Hc Hf Hid Ha Hk Hkw Hn Ha' Hf' Hl Ho.
  rewrite (visit_Call_name_check n func st Hc Hf Hid). rewrite Hpy.
  run.
  rewrite (bind_eq _ _ _ _ _ (keywords_double_star keywords Hkw false _)).
  run. cbn [orb]. fold (has_star_arguments args keywords).
  destruct (has_star_arguments args keywords); cbn [negb]; run; reflexivity.
Qed.
End Calls.

(** [exec(s)] *)
Lemma exec_and_eval_calls_are_reported_witness :
  let n :=
    Node "Call" (Some 1) (Some 0)
      [("func", VNode (parsed.Name 1 0 "exec" "Load"));
       ("args", VList [VNode (parsed.Name 1 5 "s" "Load")]);
       ("keywords", VList [])] in
  prefix_of ([] ++ ["Line 1: Exec calls are not allowed."])
    (errors (state_of (@visit python36 n init))).
Proof.
  intro n.
  exact (@exec_and_eval_calls_are_reported python36 n
           (parsed.Name 1 0 "exec" "Load") "exec" init
           eq_refl eq_refl eq_refl eq_refl (or_introl eq_refl)).
Defined.

(** [f( *a )] *)
Lemma visit_Call_applies_star_arguments_witness :
  let f := parsed.Name 1 0 "f" "Load" in
  let a := parsed.Starred 1 2 (parsed.Name 1 3 "a" "Load") "Load" in
  let n :=
    Node "Call" (Some 1) (Some 0)
      [("func", VNode f); ("args", VList [VNode a]); ("keywords", VList [])] in
  @visit python36 n init =
  Ok (VNode
        (setattr (setattr n "args" (VList [VNode f; VNode a])) "func"
           (VNode (@located python36 1 0
                     (ast.Name (VStr "_apply_") ast.Load)))))
     (mkState [] [] [Some "f"; Some "a"] 0 (mkPrintInfo false false)).
Proof.
  intros f a n.
  refine (@visit_Call_applies_star_arguments python36 n n f (VNode f)
            [VNode a] [] [VNode a] 1 0 init
            (mkState [] [] [Some "f"; Some "a"] 0 (mkPrintInfo false false))
            eq_refl eq_refl eq_refl _
            eq_refl eq_refl (Forall_nil _) eq_refl eq_refl eq_refl eq_refl
            eq_refl).
  intros g [= <-] _. exists (VStr "f"). reflexivity.
Defined.

(** * Names and printing *)

Section Names.
Context `{Compat}.

(** The visit of the contents of a name as the parser builds it changes
    nothing: the identifier is no node and the context is allowed. *)
Lemma node_contents_visit_Name (l o : Z) (id ctx : string) (st : state) :
  mem ctx ["Load"; "Store"; "Del"; "Param"] = true ->
  node_contents_visit visit (parsed.Name l o id ctx) st
  = Ok (parsed.Name l o id ctx) st.
Proof.
  intros Hctx. unfold node_contents_visit, parsed.Name. cbn [visit_fields].
  assert (Hv : visit (Node ctx None None []) st
               = Ok (VNode (Node ctx None None [])) st).
  { apply visit_plain. unfold plain. simpl. rewrite andb_true_r.
    unfold mem in *. cbn [existsb] in Hctx.
    repeat (apply orb_true_iff in Hctx as [Hctx|Hctx];
            [apply String.eqb_eq in Hctx; subst ctx; reflexivity|]).
    discriminate Hctx. }
  unfold parsed.ctx. run. reflexivity.
Qed.

Lemma visit_Name_eq (l o : Z) (id ctx : string) (st : state) :
  mem ctx ["Load"; "Store"; "Del"; "Param"] = true ->
  visit (parsed.Name l o id ctx) st =
  let n := parsed.Name l o id ctx in
  (if (ctx =? "Load")%string then
     if (id =? "printed")%string then
       set_printed_used ;;
       new_node <- copy_locations
                     (ast.Call (ast.Name (VStr "_print") ast.Load) [] []) n ;;
       ret (VNode new_node)
     else if (id =? "print")%string then
       set_print_used ;;
       new_node <- copy_locations
                     (ast.Attribute (ast.Name (VStr "_print") ast.Load)
                        (VStr "_call_print") ast.Load) n ;;
       ret (VNode new_node)
     else
       use_name (VStr id) ;;
       check_name n (VStr id) ;;
       ret (VNode n)
   else
     check_name n (VStr id) ;;
     ret (VNode n)) st.
Proof.
  intros Hctx. cbv zeta.
  rewrite (visit_method (parsed.Name l o id ctx) "Name" visit_Name
             eq_refl eq_refl).
  unfold visit_Name.
  rewrite (bind_eq _ _ _ _ _ (node_contents_visit_Name l o id ctx st Hctx)).
  reflexivity.
Qed.

(** X15.  Reading [printed] becomes the call [_print()], reading [print]
    becomes [_print._call_print]; each is noted in the print bookkeeping
    of the scope, and neither is recorded as a used name or reported,
    although both are reserved names.  Binding [print] is an error, and
    the name stays. *)
Theorem visit_Name_print_names (l o : Z) (st : state) :
  visit (parsed.Name l o "printed" "Load") st =
  Ok (VNode (located l o
               (ast.Call (ast.Name (VStr "_print") ast.Load) [] [])))
     (set_print_info st (mkPrintInfo (print_used (print_info st)) true))
  /\ visit (parsed.Name l o "print" "Load") st =
     Ok (VNode (located l o
                  (ast.Attribute (ast.Name (VStr "_print") ast.Load)
                     (VStr "_call_print") ast.Load)))
        (set_print_info st (mkPrintInfo true (printed_used (print_info st))))
  /\ visit (parsed.Name l o "print" "Store") st =
     Ok (VNode (parsed.Name l o "print" "Store"))
        (add_errors st
           [diagnostic (parsed.Name l o "print" "Store")
              (dquote ++ "print" ++ dquote ++ " is a reserved name.")]).
Proof.
  repeat split; rewrite visit_Name_eq by reflexivity; reflexivity.
Qed.

Lemma check_name_string (n : node) (name : string) (st : state) :
  exists msgs,
    check_name n (VStr name) st = Ok tt (add_errors st msgs)
    /\ (reserved_nameb name = false -> msgs = []).
Proof.
  unfold check_name, reserved_nameb. cbn [is_none as_str].
  unfold bind at 1. cbn [ret].
  destruct (startswith name "_" && negb (name =? "_")%string);
    [|destruct (endswith name "__roles__");
      [|destruct (name =? "printed")%string eqn:E1;
        [|destruct (name =? "print")%string eqn:E2]]];
    try (eexists; split;
         [apply error_eq
         | cbn [orb]; rewrite ?orb_true_r; discriminate]).
  exists []. split; [now rewrite add_errors_nil | reflexivity].
Qed.

(** X16.  A name that is read is recorded among the used names, once; a
    name that is bound, deleted or a parameter is not.  The node itself
    is returned unchanged, and a name that is not reserved records no
    error. *)
Theorem visit_Name_records_used_name
    (l o : Z) (id ctx : string) (st : state) :
  id <> "print" -> id <> "printed" ->
  mem ctx ["Load"; "Store"; "Del"; "Param"] = true ->
  exists st',
    visit (parsed.Name l o id ctx) st = Ok (VNode (parsed.Name l o id ctx)) st'
    /\ used_names st' =
       (if (ctx =? "Load")%string
        then dict_set (Some id) (used_names st) else used_names st)
    /\ warnings st' = warnings st
    /\ (reserved_nameb id = false -> errors st' = errors st).
Proof.
  intros Hprint Hprinted Hctx.
  rewrite visit_Name_eq by exact Hctx. cbv zeta.
  apply String.eqb_neq in Hprint, Hprinted. rewrite Hprint, Hprinted.
  destruct (ctx =? "Load")%string.
  - unfold bind at 1. cbn [use_name modify].
    destruct (check_name_string (parsed.Name l o id ctx) id
                (set_used_names st (dict_set (Some id) (used_names st))))
      as (msgs & Hcheck & Hnone).
    rewrite (bind_eq _ _ _ _ _ Hcheck). eexists. split; [reflexivity|].
    repeat split. intros Hr. rewrite (Hnone Hr). simpl. apply app_nil_r.
  - destruct (check_name_string (parsed.Name l o id ctx) id st)
      as (msgs & Hcheck & Hnone).
    rewrite (bind_eq _ _ _ _ _ Hcheck). eexists. split; [reflexivity|].
    repeat split. intros Hr. rewrite (Hnone Hr). simpl. apply app_nil_r.
Qed.

(** X17.  A print statement gets a destination: without one it prints to
    [_print], the collector of the scope; with one, [print >> ob, x]
    becomes [print >> (_getattr_(ob, "write") and ob), x].  The
    statement is noted in the print bookkeeping and draws the warning
    that print statements are deprecated. *)
Theorem visit_Print_guards_destination
    (n n' : node) (dest : value) (l o : Z) (st st' : state) :
  cls_of n = "Print" ->
  lineno_of n = Some l -> col_offset_of n = Some o ->
  node_contents_visit visit n
    (add_warnings
       (set_print_info st (mkPrintInfo true (printed_used (print_info st))))
       [diagnostic n ("Print statement is deprecated and "
                      ++ "not avaliable anymore in Python 3.")])
    = Ok n' st' ->
  lookup "dest" (fields_of n') = Some dest ->
  visit n st =
  Ok (VNode
        (setattr n' "dest"
           (VNode (located l o
                     (if is_none dest
                      then ast.Name (VStr "_print") ast.Load
                      else ast.BoolOp ast.And
                             [VNode (ast.Call
                                       (ast.Name (VStr "_getattr_") ast.Load)
                                       [dest; VNode (ast.Str (VStr "write"))]
                                       []);
                              dest]))))) st'.
Proof.
  intros Hc Hl Ho Hn Hd.
  rewrite (visit_method n "Print" visit_Print Hc eq_refl).
  unfold visit_Print.
  unfold bind at 1. cbn [set_print_used modify].
  unfold bind at 1. cbn [warn modify].
  change (set_warnings ?s (warnings ?s ++ ?m)) with (add_warnings s m).
  run.
  apply node_contents_visit_Ok in Hn as (_ & Hl' & Ho' & _).
  rewrite <- Hl' in Hl. rewrite <- Ho' in Ho.
  unfold gen_attr_check. destruct (is_none dest); run; reflexivity.
Qed.
End Names.

(** The name [x] read at line 2, when [y] was already used. *)
Lemma visit_Name_records_used_name_witness :
  exists st',
    @visit python36 (parsed.Name 2 0 "x" "Load")
      (set_used_names init [Some "y"])
    = Ok (VNode (parsed.Name 2 0 "x" "Load")) st'
    /\ used_names st' = [Some "y"; Some "x"]
    /\ warnings st' = []
    /\ (reserved_nameb "x" = false -> errors st' = []).
Proof.
  exact (@visit_Name_records_used_name python36 2 0 "x" "Load"
           (set_used_names init [Some "y"])
           ltac:(discriminate) ltac:(discriminate) eq_refl).
Defined.

(** [print >> ob, x] of 2.7 *)
Lemma visit_Print_guards_destination_witness :
  let ob := parsed.Name 1 9 "ob" "Load" in
  let n :=
    Node "Print" (Some 1) (Some 0)
      [("dest", VNode ob);
       ("values", VList [VNode (parsed.Name 1 13 "x" "Load")]);
       ("nl", VBool true)] in
  @visit python27 n init =
  Ok (VNode
        (setattr n "dest"
           (VNode (@located python27 1 0
                     (ast.BoolOp ast.And
                        [VNode (ast.Call
                                  (ast.Name (VStr "_getattr_") ast.Load)
                                  [VNode ob; VNode (ast.Str (VStr "write"))]
                                  []);
                         VNode ob])))))
     (mkState []
        ["Line 1: Print statement is deprecated and not avaliable anymore in Python 3."]
        [Some "ob"; Some "x"] 0 (mkPrintInfo true false)).
Proof.
  intros ob n.
  exact (@visit_Print_guards_destination python27 n n (VNode ob) 1 0 init
           (mkState []
              ["Line 1: Print statement is deprecated and not avaliable anymore in Python 3."]
              [Some "ob"; Some "x"] 0 (mkPrintInfo true false))
           eq_refl eq_refl eq_refl eq_refl eq_refl).
Defined.

(** * Modules and classes *)

Lemma add_warnings_nil (st : state) : add_warnings st [] = st.
Proof.
  destruct st. unfold add_warnings, set_warnings. simpl.
  now rewrite app_nil_r.
Qed.

Section Modules.
Context `{Compat}.

(** The loop of [visit_Module], entered at index [idx] with [position]
    still holding the index before. *)
Lemma future_imports_from (body : list value) :
  Forall (fun child => forall c, child = VNode c ->
            cls_of c = "ImportFrom" ->
            exists m, lookup "module" (fields_of c) = Some m) body ->
  forall position idx st,
    future_imports body position idx st =
    Ok (if (leading_future_imports body <? length body)%nat
        then (idx + leading_future_imports body)%nat
        else match body with
             | [] => position
             | _ => (idx + pred (length body))%nat
             end) st.
Proof.
  induction 1 as [|child rest Hchild _ IH]; intros position idx st;
    [reflexivity|].
  cbn [future_imports leading_future_imports length].
  destruct child as [| | | |c|]; cbn [isinstance is_future_import negb];
    try (rewrite Nat.add_0_r; reflexivity).
  destruct (cls_of c =? "ImportFrom")%string eqn:Hc; cbn [negb andb];
    [|rewrite Nat.add_0_r; reflexivity].
  apply String.eqb_eq in Hc.
  destruct (Hchild c eq_refl Hc) as (m & Hm). rewrite Hm.
  cbn [getattr_of]. run.
  destruct (str_eq m "__future__"); cbn [negb];
    [|rewrite Nat.add_0_r; reflexivity].
  rewrite IH. f_equal.
  change (S (leading_future_imports rest) <? S (length rest))%nat
    with (leading_future_imports rest <? length rest)%nat.
  destruct (leading_future_imports rest <? length rest)%nat; [lia|].
  destruct rest; simpl; lia.
Qed.

(** X18.  The loop of [visit_Module] finds the place behind the future
    imports at the start of the module.  A module that holds nothing but
    future imports is the exception: the loop variable stops at the last
    of them, and that is the place it returns. *)
Theorem future_imports_position (body : list value) (st : state) :
  Forall (fun child => forall c, child = VNode c ->
            cls_of c = "ImportFrom" ->
            exists m, lookup "module" (fields_of c) = Some m) body ->
  future_imports body 0 0 st = Ok (collector_position body) st.
Proof.
  intros Hbody. rewrite (future_imports_from body Hbody).
  unfold collector_position. f_equal.
  destruct (leading_future_imports body <? length body)%nat eqn:E;
    [reflexivity|].
  apply Nat.ltb_ge in E.
  assert (Hle : (leading_future_imports body <= length body)%nat).
  { clear. induction body as [|c r IH]; simpl; [lia|].
    destruct (is_future_import c); lia. }
  destruct body; simpl in *; [reflexivity | lia].
Qed.

Lemma inject_print_collector_Module (n : node) (position : nat)
    (body : list value) (st : state) :
  cls_of n = "Module" ->
  lookup "body" (fields_of n) = Some (VList body) ->
  inject_print_collector n position st =
  if print_used (print_info st) || printed_used (print_info st)
  then Ok (setattr n "body"
             (VList (list_insert position
                       (VNode (located (Z.of_nat position)
                                 (Z.of_nat position) print_collector))
                       body)))
          (add_warnings st (print_warnings n (print_info st)))
  else Ok n st.
Proof.
  intros Hc Hb. unfold inject_print_collector.
  unfold bind at 1. cbn [get].
  destruct (print_used (print_info st) || printed_used (print_info st));
    [|reflexivity].
  rewrite Hc. cbn [String.eqb Ascii.eqb Bool.eqb]. run.
  unfold print_warnings.
  assert (Hd : forall info x,
            diagnostic (setattr n "body" x) info = diagnostic n info)
    by (intros; destruct n; reflexivity).
  destruct (printed_used (print_info st)); cbn [negb];
    [destruct (print_used (print_info st)); cbn [negb]|].
  - run. now rewrite add_warnings_nil.
  - unfold bind at 1. cbn [warn modify ret]. rewrite Hd. reflexivity.
  - unfold bind at 1. cbn [warn modify ret]. rewrite Hd. reflexivity.
Qed.

(** X19.  A module in which [print] or [printed] was used gets the
    statement [_print = _print_(_getattr_)] behind its future imports,
    with the place as its line and column; using only one of the two
    draws a warning.  A module that uses neither is returned as the
    visit of its statements left it. *)
Theorem visit_Module_injects_print_collector
    (n n' : node) (body : list value) (st st' : state) :
  cls_of n = "Module" ->
  node_contents_visit visit n st = Ok n' st' ->
  lookup "body" (fields_of n') = Some (VList body) ->
  Forall (fun child => forall c, child = VNode c ->
            cls_of c = "ImportFrom" ->
            exists m, lookup "module" (fields_of c) = Some m) body ->
  visit n st =
  if print_used (print_info st') || printed_used (print_info st')
  then Ok (VNode
             (setattr n' "body"
                (VList (list_insert (collector_position body)
                          (VNode (located
                                    (Z.of_nat (collector_position body))
                                    (Z.of_nat (collector_position body))
                                    print_collector))
                          body))))
          (add_warnings st' (print_warnings n' (print_info st')))
  else Ok (VNode n') st'.
Proof.
  intros Hc Hn Hb Hbody.
  rewrite (visit_method n "Module" visit_Module Hc eq_refl).
  unfold visit_Module. run.
  rewrite (bind_eq _ _ _ _ _ (future_imports_position body st' Hbody)).
  pose proof (node_contents_visit_Ok _ _ _ _ _ Hn) as (Hc' & _).
  rewrite Hc in Hc'.
  unfold bind.
  rewrite (inject_print_collector_Module n' _ body st' Hc' Hb).
  destruct (print_used (print_info st') || printed_used (print_info st'));
    reflexivity.
Qed.

Lemma any_metaclass_eq (keywords : list value) :
  Forall (fun k => exists kn a,
            k = VNode kn /\ lookup "arg" (fields_of kn) = Some a) keywords ->
  forall st,
    any_metaclass keywords st = Ok (existsb names_metaclass keywords) st.
Proof.
  induction 1 as [|k ks (kn & a & -> & Ha) _ IH]; intros st; simpl;
    [reflexivity|].
  run. rewrite Ha. destruct (str_eq a "metaclass"); [reflexivity | apply IH].
Qed.

(** X20.  From 3.0 on, a class definition is rebuilt from the template
    [class <name>(metaclass=__metaclass__): pass]: body, bases and
    decorators are those of the visited class, and the only keyword is
    the metaclass of the template - a keyword [metaclass] of the source
    is an error, and every other keyword of the source is dropped. *)
Theorem visit_ClassDef_rebuilds_class
    (n n' : node) (name : string) (keywords : list value)
    (body bases decorators : value) (st st' : state) :
  IS_PY2 = false ->
  cls_of n = "ClassDef" ->
  lookup "name" (fields_of n) = Some (VStr name) ->
  node_contents_visit visit n (state_of (check_name n (VStr name) st))
    = Ok n' st' ->
  lookup "keywords" (fields_of n') = Some (VList keywords) ->
  Forall (fun k => exists kn a,
            k = VNode kn /\ lookup "arg" (fields_of kn) = Some a) keywords ->
  lookup "body" (fields_of n') = Some body ->
  lookup "bases" (fields_of n') = Some bases ->
  lookup "decorator_list" (fields_of n') = Some decorators ->
  let new_class :=
    setattr (setattr (setattr (parse_CLASS_DEF name) "body" body)
               "bases" bases) "decorator_list" decorators in
  visit n st =
  Ok (VNode new_class)
     (add_errors st'
        (if existsb names_metaclass keywords
         then [diagnostic n' ("The keyword argument " ++ dquote
                              ++ "metaclass" ++ dquote
                              ++ " is not allowed.")]
         else []))
  /\ lookup "keywords" (fields_of new_class) =
     Some (VList
             [VNode (ast.keyword (VStr "metaclass")
                       (VNode (Node "Name" (Some 1)
                                 (Some (17 + Z.of_nat (String.length name)))
                                 [("id", VStr "__metaclass__");
                                  ("ctx", VNode ast.Load)])))]).
Proof.
  intros Hpy Hc Hname Hn Hk Hkw Hbody Hbases Hdeco new_class. split.
  - rewrite (visit_method n "ClassDef" visit_ClassDef Hc eq_refl).
    unfold visit_ClassDef. run.
    destruct (check_name_string n name st) as (msgs & Hcheck & _).
    rewrite Hcheck in Hn. cbn [state_of] in Hn.
    rewrite (bind_eq _ _ _ _ _ Hcheck). run. rewrite Hpy. run.
    rewrite (bind_eq _ _ _ _ _ (any_metaclass_eq keywords Hkw st')).
    pose proof (node_contents_visit_atom _ _ _ _ _ "name" _ Hn Hname eq_refl)
      as Hname'.
    destruct (existsb names_metaclass keywords).
    + unfold bind at 1. cbn [error modify]. run. reflexivity.
    + run. now rewrite add_errors_nil.
  - unfold new_class, parse_CLASS_DEF.
    destruct IS_PY35_OR_GREATER; reflexivity.
Qed.
End Modules.

(** A module of two future imports and one of a future import and a
    statement: the place is 1 in both. *)
Lemma future_imports_position_witness :
  let future :=
    VNode (Node "ImportFrom" (Some 1) (Some 0)
             [("module", VStr "__future__");
              ("names", VList [VNode (Node "alias" None None
                                        [("name", VStr "division");
                                         ("asname", VNone)])]);
              ("level", VInt 0)]) in
  future_imports [future; future] 0 0 init = Ok 1%nat init
  /\ future_imports
       [future; VNode (Node "Pass" (Some 2) (Some 0) [])] 0 0 init
     = Ok 1%nat init.
Proof.
  intro future. split.
  - refine (future_imports_position [future; future] init _).
    repeat constructor; intros c [= <-] _; eexists; reflexivity.
  - refine (future_imports_position
              [future; VNode (Node "Pass" (Some 2) (Some 0) [])] init _).
    repeat constructor; intros c [= <-] Hc;
      first [discriminate Hc | eexists; reflexivity].
Defined.

(** The module [printed] *)
Lemma visit_Module_injects_print_collector_witness :
  let body :=
    [VNode (parsed.Expr 1 0
              (@located python36 1 0
                 (ast.Call (ast.Name (VStr "_print") ast.Load) [] [])))] in
  @visit python36
    (parsed.Module
       [VNode (parsed.Expr 1 0 (parsed.Name 1 0 "printed" "Load"))]) init
  = Ok (VNode (parsed.Module
                 (VNode (@located python36 0 0 print_collector) :: body)))
       (mkState []
          ["Line None: Doesn't print, but reads 'printed' variable."]
          [] 0 (mkPrintInfo false true)).
Proof.
  intro body.
  refine (@visit_Module_injects_print_collector python36
            (parsed.Module
               [VNode (parsed.Expr 1 0 (parsed.Name 1 0 "printed" "Load"))])
            (parsed.Module body) body init
            (mkState [] [] [] 0 (mkPrintInfo false true))
            eq_refl eq_refl eq_refl _).
  repeat constructor; intros c [= <-] Hc; discriminate Hc.
Defined.

(** [class A(x=1): pass] of 3.6: the keyword [x] is gone, without an
    error. *)
Lemma visit_ClassDef_rebuilds_class_witness :
  let keywords := [VNode (ast.keyword (VStr "x") (VNode (parsed.Num 1 10 1)))] in
  let body := VList [VNode (Node "Pass" (Some 1) (Some 14) [])] in
  let n :=
    Node "ClassDef" (Some 1) (Some 0)
      [("name", VStr "A"); ("bases", VList []);
       ("keywords", VList keywords); ("body", body);
       ("decorator_list", VList [])] in
  let new_class :=
    setattr (setattr (setattr (@parse_CLASS_DEF python36 "A") "body" body)
               "bases" (VList [])) "decorator_list" (VList []) in
  @visit python36 n init = Ok (VNode new_class) init
  /\ lookup "keywords" (fields_of new_class) =
     Some (VList
             [VNode (ast.keyword (VStr "metaclass")
                       (VNode (Node "Name" (Some 1) (Some 18)
                                 [("id", VStr "__metaclass__");
                                  ("ctx", VNode ast.Load)])))]).
Proof.
  intros keywords body n new_class.
  refine (@visit_ClassDef_rebuilds_class python36 n n "A" keywords body
            (VList []) (VList []) init init
            eq_refl eq_refl eq_refl eq_refl eq_refl _ eq_refl eq_refl
            eq_refl).
  repeat constructor. do 2 eexists. split; reflexivity.
Defined.

(** * Reserved names are reported where they are bound *)

Lemma reports_getattr {A} (n : node) (f : string) (v : value)
    (k : value -> M A) :
  lookup f (fields_of n) = Some v -> reports (k v) ->
  reports (bind (getattr n f) k).
Proof.
  intros Hl Hk st a st' Hr.
  rewrite (bind_eq _ _ _ _ _ (getattr_eq n f v st Hl)) in Hr.
  exact (Hk st a st' Hr).
Qed.

Lemma reports_ret_bind {A B} (a : A) (k : A -> M B) :
  reports (k a) -> reports (bind (ret a) k).
Proof. intros Hk st b st' Hr. rewrite bind_ret in Hr. exact (Hk st b st' Hr). Qed.

Lemma reports_check_name (n : node) (name : string) :
  reserved_nameb name = true -> reports (check_name n (VStr name)).
Proof.
  intros Hr. unfold check_name, reserved_nameb in *.
  cbn [is_none as_str]. unfold bind at 1. cbn [ret].
  destruct (startswith name "_" && negb (name =? "_")%string);
    [|destruct (endswith name "__roles__");
      [|destruct (name =? "printed")%string;
        [|destruct (name =? "print")%string]]];
    try discriminate Hr; apply reports_error.
Qed.

Lemma reports_reserved_field {A} (n at_ : node) (f : string)
    (k : value -> M A) :
  reserved_field n f = true ->
  (forall v, reports (check_name at_ v) -> reports (k v)) ->
  reports (bind (getattr n f) k).
Proof.
  unfold reserved_field. intros Hf Hk.
  destruct (lookup f (fields_of n)) as [[| | |name| |]|] eqn:Hl;
    try discriminate Hf.
  apply (reports_getattr n f (VStr name) k Hl).
  apply Hk. now apply reports_check_name.
Qed.

Lemma reports_forM_ {A} (f : A -> M unit) (l : list A) (x : A) :
  In x l -> reports (f x) -> (forall y, respects extends (f y)) ->
  reports (forM_ f l).
Proof.
  intros Hin Hx Hf. unfold forM_.
  assert (Hg : forall l u, respects extends (foldM (fun _ y => f y) u l)).
  { intros l0. rapply respects_foldM. apply Forall_forall. intros y _ b.
    apply Hf. }
  induction l as [|y l IH]; [destruct Hin|]. simpl.
  destruct Hin as [-> | Hin].
  - apply reports_bind_l; [exact Hx | intro; apply Hg].
  - apply reports_bind_r; [apply Hf | intros []; now apply IH].
Qed.

Lemma reports_pop_all_grows (f : value -> M unit) (l : list value) :
  (forall y, respects extends (f y)) -> respects extends (pop_all f l).
Proof.
  intros Hf. rapply respects_pop_all. apply Forall_forall. intros y _.
  apply Hf.
Qed.

Lemma reports_pop_all (f : value -> M unit) (l : list value) (x : value) :
  In x l -> reports (f x) -> (forall y, respects extends (f y)) ->
  reports (pop_all f l).
Proof.
  intros Hin Hx Hf.
  induction l as [|y l IH]; [destruct Hin|]. simpl.
  destruct Hin as [-> | Hin].
  - apply reports_bind_r; [now apply reports_pop_all_grows | intros _; exact Hx].
  - apply reports_bind_l; [now apply IH | intros _; apply Hf].
Qed.

Lemma reserved_positional_unfold (p : node) :
  reserved_positional p =
  if (cls_of p =? "Tuple")%string then
    match lookup "elts" (fields_of p) with
    | Some (VList elts) =>
        existsb (fun e => match e with
                          | VNode t => reserved_positional t
                          | _ => false
                          end) elts
    | _ => false
    end
  else
    match lookup "id" (fields_of p) with
    | Some (VStr name) => reserved_nameb name
    | _ => false
    end.
Proof.
  destruct p as [c l o fs]. simpl. rewrite !with_attr_lookup.
  destruct (c =? "Tuple")%string.
  - destruct (lookup "elts" fs) as [[]|]; reflexivity.
  - destruct (lookup "id" fs) as [[]|]; reflexivity.
Qed.

Section ReservedBindings.
Context `{Compat}.

Lemma check_parameter_item_grows (n : node) (y : value) :
  respects extends
    (match y with
     | VNode t => check_parameter n t
     | _ => raise (AttributeError "id")
     end).
Proof. destruct y; try grows. rapply respects_check_parameter. Qed.

Lemma reports_reserved_positional (n p : node) :
  reserved_positional p = true -> reports (check_parameter n p).
Proof.
  induction p as [c l o fs IH] using node_children_ind.
  rewrite reserved_positional_unfold. simpl.
  destruct (c =? "Tuple")%string.
  - rewrite with_attr_lookup.
    destruct (lookup "elts" fs) as [[| | | | |elts]|] eqn:Hl;
      try discriminate.
    intros Hr. apply existsb_exists in Hr as (e & Hin & He).
    destruct e as [| | | |t|]; try discriminate He.
    pose proof (lookup_Forall (on_children _) fs "elts" _ IH Hl) as IHe.
    simpl in IHe. rewrite Forall_forall in IHe.
    apply (reports_pop_all _ elts (VNode t) Hin).
    + exact (IHe _ Hin He).
    + apply check_parameter_item_grows.
  - destruct (lookup "id" fs) as [[| | |name| |]|] eqn:Hl; try discriminate.
    intros Hr.
    apply (reports_getattr (Node c l o fs) "id" (VStr name) _ Hl).
    now apply reports_check_name.
Qed.

Lemma check_parameter_py3_grows (n : node) (arg : value) :
  respects extends (a <- getattr_of arg "arg" ;; check_name n a).
Proof. grows. Qed.

Lemma reports_reserved_parameter (n : node) (p : value) :
  reserved_parameter p = true ->
  reports (a <- getattr_of p "arg" ;; check_name n a).
Proof.
  destruct p as [| | | |a|]; try discriminate. cbn [reserved_parameter].
  intros Hr. cbn [getattr_of].
  apply (reports_reserved_field a n "arg" _ Hr). auto.
Qed.

Lemma reports_function_argument_names (n : node) :
  reserved_parameters n = true ->
  reports (check_function_argument_names n).
Proof.
  unfold reserved_parameters, check_function_argument_names,
    check_function_argument_names_py3.
  destruct (lookup "args" (fields_of n)) as [[| | | |arguments|]|] eqn:Ha;
    try discriminate.
  destruct IS_PY2; intros Hr; apply (reports_getattr n "args" _ _ Ha);
    cbn [getattr_of].
  - (* 2.x *)
    apply orb_true_iff in Hr as [Hr|Hr];
      [apply orb_true_iff in Hr as [Hr|Hr]|].
    + unfold field_list in Hr.
      destruct (lookup "args" (fields_of arguments))
        as [[| | | | |params]|] eqn:Hl; try discriminate Hr.
      apply (reports_getattr arguments "args" _ _ Hl).
      apply reports_ret_bind.
      apply existsb_exists in Hr as (p & Hin & Hp).
      destruct p as [| | | |t|]; try discriminate Hp.
      apply reports_bind_l; [|intro; grows].
      apply (reports_pop_all _ params (VNode t) Hin).
      * now apply reports_reserved_positional.
      * apply check_parameter_item_grows.
    + apply reports_bind_r; [grows | intros to_check].
      apply reports_bind_r; [grows | intros to_check'].
      apply reports_bind_r.
      { apply reports_pop_all_grows. apply check_parameter_item_grows. }
      intros _.
      apply (reports_reserved_field arguments n "vararg" _ Hr).
      intros v Hv. apply reports_bind_l; [exact Hv | intro; grows].
    + apply reports_bind_r; [grows | intros to_check].
      apply reports_bind_r; [grows | intros to_check'].
      apply reports_bind_r.
      { apply reports_pop_all_grows. apply check_parameter_item_grows. }
      intros _.
      apply reports_bind_r; [grows | intros vararg].
      apply reports_bind_r; [grows | intros _].
      apply (reports_reserved_field arguments n "kwarg" _ Hr). auto.
  - (* 3.x *)
    unfold parameters in Hr. rewrite !existsb_app in Hr.
    apply orb_true_iff in Hr as [Hr|Hr];
      [|apply orb_true_iff in Hr as [Hr|Hr];
        [|apply orb_true_iff in Hr as [Hr|Hr]]].
    + unfold field_list in Hr.
      destruct (lookup "args" (fields_of arguments))
        as [[| | | | |l]|] eqn:Hl; try discriminate Hr.
      apply (reports_getattr arguments "args" _ _ Hl).
      apply reports_ret_bind.
      apply existsb_exists in Hr as (p & Hin & Hp).
      apply reports_bind_l; [|intro; grows].
      apply (reports_forM_ _ l p Hin);
        [now apply reports_reserved_parameter|].
      intros y. apply check_parameter_py3_grows.
    + apply reports_bind_r; [grows | intros l].
      apply reports_bind_r; [grows | intros l'].
      apply reports_bind_r; [grows | intros _].
      unfold field_option in Hr.
      destruct (lookup "vararg" (fields_of arguments)) as [v|] eqn:Hl;
        [|discriminate Hr].
      apply (reports_getattr arguments "vararg" _ _ Hl).
      destruct (truthy v); [|discriminate Hr].
      cbn [existsb] in Hr. rewrite orb_false_r in Hr.
      apply reports_bind_l; [now apply reports_reserved_parameter
                            | intro; grows].
    + apply reports_bind_r; [grows | intros l].
      apply reports_bind_r; [grows | intros l'].
      apply reports_bind_r; [grows | intros _].
      apply reports_bind_r; [grows | intros vararg].
      apply reports_bind_r; [grows | intros _].
      unfold field_option in Hr.
      destruct (lookup "kwarg" (fields_of arguments)) as [v|] eqn:Hl;
        [|discriminate Hr].
      apply (reports_getattr arguments "kwarg" _ _ Hl).
      destruct (truthy v); [|discriminate Hr].
      cbn [existsb] in Hr. rewrite orb_false_r in Hr.
      apply reports_bind_l; [now apply reports_reserved_parameter
                            | intro; grows].
    + apply reports_bind_r; [grows | intros l].
      apply reports_bind_r; [grows | intros l'].
      apply reports_bind_r; [grows | intros _].
      apply reports_bind_r; [grows | intros vararg].
      apply reports_bind_r; [grows | intros _].
      apply reports_bind_r; [grows | intros kwarg].
      apply reports_bind_r; [grows | intros _].
      unfold field_list in Hr.
      destruct (lookup "kwonlyargs" (fields_of arguments))
        as [[| | | | |l0]|] eqn:Hl; try discriminate Hr.
      apply (reports_getattr arguments "kwonlyargs" _ _ Hl).
      apply reports_ret_bind.
      apply existsb_exists in Hr as (p & Hin & Hp).
      apply (reports_forM_ _ l0 p Hin);
        [now apply reports_reserved_parameter|].
      intros y. apply check_parameter_py3_grows.
Qed.

Lemma reports_reserved_alias (n : node) (alias : value) :
  reserved_alias alias = true ->
  reports (name <- getattr_of alias "name" ;;
           check_name n name ;;
           asname <- getattr_of alias "asname" ;;
           if truthy asname then check_name n asname else ret tt).
Proof.
  destruct alias as [| | | |a|]; try discriminate. cbn [reserved_alias].
  intros Hr. cbn [getattr_of]. apply orb_true_iff in Hr as [Hr|Hr].
  - apply (reports_reserved_field a n "name" _ Hr). intros v Hv.
    apply reports_bind_l; [exact Hv | intro; grows].
  - apply reports_bind_r; [grows | intros name].
    apply reports_bind_r; [grows | intros _].
    unfold reserved_field in Hr.
    destruct (lookup "asname" (fields_of a)) as [[| | |s| |]|] eqn:Hl;
      try discriminate Hr.
    apply (reports_getattr a "asname" _ _ Hl).
    assert (Ht : truthy (VStr s) = true).
    { destruct s; [discriminate Hr | reflexivity]. }
    rewrite Ht. now apply reports_check_name.
Qed.

Lemma binds_reserved_name_reports (n : node) :
  binds_reserved_name n = true -> reports (visit n).
Proof.
  unfold binds_reserved_name. cbv zeta.
  pose proof (node_contents_visit_extends n) as Hcontents.
  destruct (cls_of n =? "FunctionDef")%string eqn:Hc.
  { apply String.eqb_eq in Hc. intros Hr.
    rewrite (visit_method n "FunctionDef" visit_FunctionDef Hc eq_refl).
    unfold visit_FunctionDef. apply orb_true_iff in Hr as [Hr|Hr].
    - apply (reports_reserved_field n n "name" _ Hr). intros v Hv.
      apply reports_bind_l; [exact Hv | intro; grows].
    - apply reports_bind_r; [grows | intros name].
      apply reports_bind_r; [grows | intros _].
      apply reports_bind_l;
        [now apply reports_function_argument_names | intro; grows]. }
  destruct (cls_of n =? "Lambda")%string eqn:Hl.
  { apply String.eqb_eq in Hl. intros Hr.
    rewrite (visit_method n "Lambda" visit_Lambda Hl eq_refl).
    unfold visit_Lambda.
    apply reports_bind_l;
      [now apply reports_function_argument_names | intro; grows]. }
  destruct (cls_of n =? "ClassDef")%string eqn:Hcl.
  { apply String.eqb_eq in Hcl. intros Hr.
    rewrite (visit_method n "ClassDef" visit_ClassDef Hcl eq_refl).
    unfold visit_ClassDef.
    apply (reports_reserved_field n n "name" _ Hr). intros v Hv.
    apply reports_bind_l; [exact Hv | intro; grows]. }
  destruct ((cls_of n =? "Import")%string || (cls_of n =? "ImportFrom")%string)
    eqn:Hi.
  { intros Hr.
    assert (Hv : visit n = check_import_names (node_contents_visit visit n) n).
    { apply orb_true_iff in Hi as [Hi|Hi]; apply String.eqb_eq in Hi.
      - exact (visit_method n "Import" visit_Import Hi eq_refl).
      - exact (visit_method n "ImportFrom" visit_ImportFrom Hi eq_refl). }
    rewrite Hv. unfold check_import_names. unfold field_list in Hr.
    destruct (lookup "names" (fields_of n)) as [[| | | | |names]|] eqn:Hn;
      try discriminate Hr.
    apply (reports_getattr n "names" _ _ Hn). apply reports_ret_bind.
    apply existsb_exists in Hr as (alias & Hin & Ha).
    apply reports_bind_l; [|intro; grows].
    apply (reports_forM_ _ names alias Hin);
      [now apply reports_reserved_alias | intro; grows]. }
  destruct (cls_of n =? "ExceptHandler")%string eqn:He; [|discriminate].
  apply String.eqb_eq in He. intros Hr.
  apply andb_true_iff in Hr as [Hpy Hr].
  rewrite (visit_method n "ExceptHandler" visit_ExceptHandler He eq_refl).
  unfold visit_ExceptHandler. rewrite Hpy.
  intros st out st' Hv.
  apply bind_Ok in Hv as (n' & s1 & Hn & Hv).
  unfold reserved_field in Hr.
  destruct (lookup "name" (fields_of n)) as [[| | |name| |]|] eqn:Hname;
    try discriminate Hr.
  pose proof (node_contents_visit_atom _ _ _ _ _ "name" _ Hn Hname eq_refl)
    as Hname'.
  apply (respects_Ok extends _ _ _ _ Hcontents) in Hn.
  apply extends_errors_le in Hn.
  rewrite (bind_eq _ _ _ _ _ (getattr_eq n' "name" _ _ Hname')) in Hv.
  apply bind_Ok in Hv as (u & s2 & Hcheck & Hv).
  apply (reports_check_name n' name Hr) in Hcheck.
  injection Hv as _ <-. lia.
Qed.

(** X21.  A tree of the host grammar that binds a reserved name anywhere
    - as the name of a function or a class, as a parameter of a function
    or a lambda (in 2.x also inside a tuple parameter), in an import or,
    in 3.x, as the name of a caught exception - never passes unnoticed:
    when the visit of the tree returns, it has recorded at least one new
    error. *)
Theorem reserved_binding_is_reported (t : node) (st : state) (out : value)
    (st' : state) :
  flat_node t = true ->
  (0 < count_node binds_reserved_name t)%nat ->
  visit t st = Ok out st' ->
  (length (errors st) < length (errors st'))%nat.
Proof.
  intros Hflat Hbad Hv.
  exact (reported_anywhere binds_reserved_name binds_reserved_name_reports
           t Hflat Hbad st out st' Hv).
Qed.
End ReservedBindings.

(** The module [import os as _os] of 3.6, and the function
    [def f(a, (b, printed)): pass] of 2.7. *)
Lemma reserved_binding_is_reported_witness :
  let t :=
    parsed.Module
      [VNode (Node "Import" (Some 1) (Some 0)
                [("names",
                  VList [VNode (Node "alias" None None
                                  [("name", VStr "os");
                                   ("asname", VStr "_os")])])])] in
  let f :=
    Node "FunctionDef" (Some 1) (Some 0)
      [("name", VStr "f");
       ("args",
        VNode (Node "arguments" None None
                 [("args",
                   VList [VNode (parsed.Name 1 6 "a" "Param");
                          VNode (parsed.Tuple 1 10
                                   [VNode (parsed.Name 1 10 "b" "Store");
                                    VNode (parsed.Name 1 13 "printed" "Store")]
                                   "Store")]);
                  ("vararg", VNone); ("kwarg", VNone);
                  ("defaults", VList [])]));
       ("body", VList [VNode (Node "Pass" (Some 1) (Some 24) [])]);
       ("decorator_list", VList [])] in
  (length (errors init)
   < length (errors (state_of (@visit python36 t init))))%nat
  /\ (length (errors init)
      < length (errors (state_of (@visit python27 f init))))%nat.
Proof.
  intros t f. split.
  - refine (@reserved_binding_is_reported python36 t init _ _
              eq_refl (le_n 1) _).
    reflexivity.
  - refine (@reserved_binding_is_reported python27 f init _ _
              eq_refl (le_n 1) _).
    reflexivity.
Defined.

(** * Placed trees stay placed *)

Section PlacedBasics.
Context `{Compat}.

Lemma placed_value_item (v : value) :
  placed_value v = true -> placed_item v = true.
Proof. destruct v; auto. Qed.

Lemma placed_lookup (fs : list (string * value)) f v :
  forallb (fun fv => placed_value (snd fv)) fs = true ->
  lookup f fs = Some v -> placed_value v = true.
Proof.
  induction fs as [|[g w] fs IH]; simpl; [discriminate|].
  intros Hall. apply andb_true_iff in Hall as [Hw Hfs].
  destruct (g =? f)%string; [intros [= <-]; exact Hw | now apply IH].
Qed.

Lemma placed_getattr (n : node) f v :
  placed n = true -> lookup f (fields_of n) = Some v ->
  placed_value v = true.
Proof.
  rewrite placed_fields. intros Hn. apply andb_true_iff in Hn as [_ Hfs].
  now apply placed_lookup.
Qed.

Lemma placed_assign (fs : list (string * value)) f v :
  forallb (fun fv => placed_value (snd fv)) fs = true ->
  placed_value v = true ->
  forallb (fun fv => placed_value (snd fv)) (assign f v fs) = true.
Proof.
  intros Hfs Hv. induction fs as [|[g w] fs IH]; simpl.
  - now rewrite Hv.
  - simpl in Hfs. apply andb_true_iff in Hfs as [Hw Hfs].
    destruct (g =? f)%string; simpl.
    + now rewrite Hv, Hfs.
    + now rewrite Hw, IH.
Qed.

Lemma placed_setattr (n : node) f v :
  placed n = true -> placed_value v = true ->
  placed (setattr n f v) = true.
Proof.
  rewrite !placed_fields. destruct n as [c l o fs]. simpl. intros Hn Hv.
  apply andb_true_iff in Hn as [Hc Hfs].
  rewrite Hc. now apply placed_assign.
Qed.

Lemma placed_list_insert (i : nat) x (l : list value) :
  placed_item x = true -> forallb placed_item l = true ->
  forallb placed_item (list_insert i x l) = true.
Proof.
  intros Hx. revert l. induction i as [|i IH]; intros [|y l] Hl; simpl in *;
    rewrite ?Hx, ?Hl; try reflexivity.
  apply andb_true_iff in Hl as [Hy Hl]. now rewrite Hy, IH.
Qed.

Lemma copy_locations_from_placed (new r : node) (old : value) st st' :
  copy_locations_from new old st = Ok r st' -> placed r = true.
Proof. destruct old; try discriminate. apply copy_locations_placed. Qed.

Section TraversalPlaced.
Variable v : node -> M value.

Lemma visit_list_placed (l : list value) :
  Forall (fun x => match x with
                   | VNode n => returns_placed v n
                   | _ => True
                   end) l ->
  forallb placed_item l = true ->
  forall st l' st',
    visit_list v l st = Ok l' st' -> forallb placed_item l' = true.
Proof.
  unfold returns_placed.
  induction 1 as [|x l Hx _ IH]; intros Hp st l' st' Hv.
  - simpl in Hv. minv Hv. reflexivity.
  - simpl in Hp. apply andb_true_iff in Hp as [Hpx Hpl].
    specialize (IH Hpl). simpl in Hv.
    destruct x as [| ? | ? | ? |child|inner];
      try solve [minv Hv; minv Hv; simpl; eauto].
    minv Hv. specialize (Hx Hpx _ _ _ Hstep).
    destruct a as [| ? | ? | ? |r|rs]; try discriminate Hv.
    + eauto.
    + minv Hv. minv Hv. simpl in *.
      apply andb_true_iff. split; [exact Hx | eauto].
    + minv Hv. minv Hv. rewrite forallb_app.
      apply andb_true_iff. split; [exact Hx | eauto].
Qed.

Lemma visit_fields_placed (fs : list (string * value)) :
  Forall (fun fv => on_children (returns_placed v) (snd fv)) fs ->
  forallb (fun fv => placed_value (snd fv)) fs = true ->
  forall st fs' st',
    visit_fields v fs st = Ok fs' st' ->
    forallb (fun fv => placed_value (snd fv)) fs' = true.
Proof.
  induction 1 as [|[f x] fs Hx _ IH]; intros Hp st fs' st' Hv.
  - simpl in Hv. minv Hv. reflexivity.
  - simpl in Hp. apply andb_true_iff in Hp as [Hpx Hpl].
    specialize (IH Hpl). simpl in Hv, Hx.
    destruct x as [| ? | ? | ? |child|l];
      try solve [minv Hv; minv Hv; simpl; eauto].
    + minv Hv. minv Hv. minv Hv.
      specialize (Hx Hpx _ _ _ Hstep).
      destruct (is_none a); simpl; eauto.
      apply andb_true_iff. split; [exact Hx | eauto].
    + minv Hv. minv Hv. minv Hv.
      pose proof (visit_list_placed l Hx Hpx _ _ _ Hstep) as Hl.
      simpl. apply andb_true_iff. split; [exact Hl | eauto].
Qed.

Lemma node_contents_visit_placed (n : node) :
  Forall (fun fv => on_children (returns_placed v) (snd fv)) (fields_of n) ->
  placed n = true ->
  forall st n' st',
    node_contents_visit v n st = Ok n' st' -> placed n' = true.
Proof.
  destruct n as [c l o fs]. intros Hfs Hp st n' st' Hv.
  rewrite placed_fields in Hp. apply andb_true_iff in Hp as [Hroot Hp].
  unfold node_contents_visit in Hv. minv Hv. minv Hv.
  rewrite placed_fields. apply andb_true_iff. split; [exact Hroot|].
  exact (visit_fields_placed fs Hfs Hp _ _ _ Hstep).
Qed.
End TraversalPlaced.
End PlacedBasics.

Ltac pstart :=
  unfold keeps_placed;
  let contents := fresh "contents" in
  let n := fresh "n" in
  let Hc := fresh "Hc" in
  let Hm := fresh "Hm" in
  intros contents n Hc st out st' Hm.

Ltac pcontents :=
  repeat match goal with
         | Hc : forall st n' st', ?c st = Ok n' st' -> placed n' = true,
           Hs : ?c _ = Ok ?n' _ |- _ =>
             lazymatch goal with
             | _ : placed n' = true |- _ => fail
             | _ => pose proof (Hc _ _ _ Hs)
             end
         end.

Ltac pstep :=
  match goal with
  | Hr : bind _ _ _ = Ok _ _ |- _ => mstep Hr
  | Hr : ret _ _ = Ok _ _ |- _ => mstep Hr
  | Hr : raise _ _ = Ok _ _ |- _ => discriminate Hr
  | Hr : Raise _ _ = Ok _ _ |- _ => discriminate Hr
  | Hr : (if _ then _ else _) _ = Ok _ _ |- _ => mstep Hr
  | Hr : (let (_, _) := _ in _) _ = Ok _ _ |- _ => mstep Hr
  | Hr : (match _ with _ => _ end) _ = Ok _ _ |- _ => mstep Hr
  end.

Ltac psame :=
  repeat match goal with
         | E : VNode _ = VNode _ |- _ => injection E as E; subst
         | E : VList _ = VList _ |- _ => injection E as E; subst
         | E : VStr _ = VStr _ |- _ => injection E as E; subst
         end.

Ltac psteps := repeat (pstep; psame; pcontents).

Ltac split_and :=
  repeat match goal with
         | |- _ && _ = true => apply andb_true_iff; split
         end.

Ltac place :=
  repeat first
    [ assumption
    | reflexivity
    | lazymatch goal with
      | |- placed (setattr _ _ _) = true => apply placed_setattr
      | |- placed (located _ _ _) = true => apply located_placed
      | |- placed_value (VNode ?n) = true => change (placed n = true)
      | |- placed_item (VNode ?n) = true => change (placed n = true)
      | |- placed_value (VList ?l) = true =>
          change (forallb placed_item l = true)
      | |- forallb placed_item (_ :: _) = true =>
          cbn [forallb]; apply andb_true_iff; split
      | |- forallb placed_item (_ ++ _) = true =>
          rewrite forallb_app; apply andb_true_iff; split
      | |- forallb placed_item (list_insert _ _ _) = true =>
          apply placed_list_insert
      | |- forallb placed_item ?l = true =>
          is_var l; change (placed_value (VList l) = true);
          eapply placed_getattr; [|eassumption]
      | |- placed ?n = true =>
          is_var n;
          first
            [ eapply copy_locations_placed; eassumption
            | eapply copy_locations_from_placed; eassumption
            | change (placed_value (VNode n) = true);
              eapply placed_getattr; [|eassumption] ]
      | |- placed_item ?x = true => is_var x; apply placed_value_item
      | |- placed_value ?x = true =>
          is_var x; eapply placed_getattr; [|eassumption]
      end ].

Section MethodsKeepPlaced.
Context `{Compat}.

Lemma allow_placed : keeps_placed allow.
Proof. unfold allow. pstart. psteps. place. Qed.

Lemma deny_placed : keeps_placed deny.
Proof. unfold deny. pstart. psteps. place. Qed.

Lemma guard_iter_placed : keeps_placed guard_iter.
Proof. unfold guard_iter. pstart. psteps; place. Qed.

Lemma check_import_names_placed : keeps_placed check_import_names.
Proof. unfold check_import_names. pstart. psteps; place. Qed.

Lemma visit_Name_placed : keeps_placed visit_Name.
Proof. unfold visit_Name. pstart. psteps; place. Qed.

Lemma visit_Attribute_placed : keeps_placed visit_Attribute.
Proof. unfold visit_Attribute. pstart. psteps; place. Qed.

Lemma visit_Subscript_placed : keeps_placed visit_Subscript.
Proof. unfold visit_Subscript. pstart. psteps; place. Qed.

Lemma visit_Call_placed : keeps_placed visit_Call.
Proof. unfold visit_Call. pstart. psteps; place. Qed.

Lemma visit_AugAssign_placed : keeps_placed visit_AugAssign.
Proof. unfold visit_AugAssign. pstart. psteps; place. Qed.

Lemma visit_Print_placed : keeps_placed visit_Print.
Proof. unfold visit_Print. pstart. psteps; place. Qed.

Lemma visit_Assign_placed : keeps_placed visit_Assign.
Proof.
  unfold visit_Assign. pstart. psteps; place.
  match goal with
  | Hloc : mapM _ ?news _ = Ok ?final _ |- _ =>
      assert (Hfin : Forall (fun x => placed x = true) final)
        by (refine (mapM_Ok_Forall _ (fun _ => True) _ _ _ _ _ _ _ Hloc);
            [ intros x ? y ? _ Hy; eapply copy_locations_placed; eassumption
            | apply Forall_forall; auto ])
  end.
  apply forallb_forall. intros x Hx.
  apply in_map_iff in Hx as (y & <- & Hy).
  rewrite Forall_forall in Hfin. now apply Hfin.
Qed.

Lemma gen_unpack_wrapper_placed (n : node) (target : value) ctx st
    tmp_target cleanup st' :
  gen_unpack_wrapper n target ctx st = Ok (tmp_target, cleanup) st' ->
  placed tmp_target = true /\ placed cleanup = true.
Proof.
  unfold gen_unpack_wrapper. intros Hg. psteps; split; place.
Qed.

Ltac pwrapper :=
  repeat match goal with
         | Hw : gen_unpack_wrapper _ _ _ _ = Ok _ _ |- _ =>
             apply gen_unpack_wrapper_placed in Hw as [? ?]
         end.

Lemma visit_ExceptHandler_placed : keeps_placed visit_ExceptHandler.
Proof.
  unfold visit_ExceptHandler. pstart. psteps; pwrapper; place.
Qed.

Lemma inject_print_collector_placed (n : node) (position : nat)
    st r st' :
  inject_print_collector n position st = Ok r st' ->
  placed n = true -> placed r = true.
Proof.
  unfold inject_print_collector. intros Hi Hn. psteps; place.
Qed.

Lemma visit_Module_placed : keeps_placed visit_Module.
Proof.
  unfold visit_Module. pstart. psteps.
  match goal with
  | Hi : inject_print_collector _ _ _ = Ok ?r _ |- _ =>
      apply inject_print_collector_placed in Hi; [exact Hi | place]
  end.
Qed.

Lemma protect_with_item_placed (n : node) (item : value) st n' item' st' :
  protect_with_item n item st = Ok (n', item') st' ->
  placed n = true -> placed_item item = true ->
  placed n' = true /\ placed_item item' = true.
Proof.
  unfold protect_with_item. intros Hp Hn Hi.
  psteps; pwrapper; split; place.
Qed.

Lemma visit_With_placed : keeps_placed visit_With.
Proof.
  unfold visit_With. pstart. psteps; pwrapper; try solve [place].
  match goal with
  | Hf : foldM _ (?n0, []) (rev ?items) _ = Ok (?n1, ?done) _ |- _ =>
      assert (Hinv : placed n1 = true /\ forallb placed_item done = true);
      [ refine (foldM_invariant _
                  (fun x => placed_item x = true)
                  (fun acc : node * list value =>
                     placed (fst acc) = true
                     /\ forallb placed_item (snd acc) = true)
                  (rev items) _ _ (n0, []) _ (n1, done) _ _ Hf)
      | ]
  end.
  - intros [b1 b2] x ? [b1' b2'] ? Hx [Hb1 Hb2] Hf. simpl in *.
    psteps.
    match goal with
    | Hp : protect_with_item _ _ _ = Ok _ _ |- _ =>
        apply protect_with_item_placed in Hp as [? ?]; auto
    end.
    split; [assumption|]. simpl. split_and; assumption.
  - apply Forall_rev, forallb_Forall_true. place.
  - split; [place | reflexivity].
  - destruct Hinv as [Hn1 Hdone]. place.
Qed.

Lemma parse_CLASS_DEF_placed (name : string) :
  placed (parse_CLASS_DEF name) = true.
Proof.
  unfold parse_CLASS_DEF.
  destruct IS_PY35_OR_GREATER; simpl; unfold has_location;
    destruct IS_PY3; reflexivity.
Qed.

Lemma visit_ClassDef_placed : keeps_placed visit_ClassDef.
Proof.
  unfold visit_ClassDef. pstart. psteps; place.
  all: apply parse_CLASS_DEF_placed.
Qed.

Lemma visit_FunctionDef_placed : keeps_placed visit_FunctionDef.
Proof.
  unfold visit_FunctionDef. pstart. psteps.
  all: match goal with
       | Hs : new_print_scope _ _ = Ok ?r _ |- _ =>
           apply new_print_scope_Ok in Hs as (? & ? & Hs);
           psteps;
           match goal with
           | Hi : inject_print_collector _ _ _ = Ok r _ |- _ =>
               apply inject_print_collector_placed in Hi; [|place]
           end
       end; try solve [place].
  match goal with
  | Hf : foldM _ ([], []) ?params _ = Ok (?new_params, ?unpacks) _ |- _ =>
      assert (Hinv : forallb placed_item new_params = true
                     /\ forallb placed_item unpacks = true);
      [ refine (foldM_invariant _
                  (fun x => placed_item x = true)
                  (fun acc : list value * list value =>
                     forallb placed_item (fst acc) = true
                     /\ forallb placed_item (snd acc) = true)
                  params _ _ ([], []) _ (new_params, unpacks) _ _ Hf)
      | ]
  end.
  - intros [b1 b2] arg ? [b1' b2'] ? Harg [Hb1 Hb2] Hf. simpl in *.
    psteps; pwrapper; simpl; rewrite ?forallb_app; simpl;
      split; split_and; auto.
  - apply forallb_Forall_true. place.
  - split; reflexivity.
  - destruct Hinv as [Hp Hu]. place.
Qed.

Lemma visit_Lambda_placed : keeps_placed visit_Lambda.
Proof. unfold visit_Lambda. pstart. psteps; place. Qed.

Lemma find_method_placed (c : string) (m : handler) :
  find_method c methods = Some m -> keeps_placed m.
Proof.
  apply (find_method_ind keeps_placed).
  - exact allow_placed.
  - exact deny_placed.
  - exact guard_iter_placed.
  - exact check_import_names_placed.
  - exact visit_Name_placed.
  - exact visit_Call_placed.
  - exact visit_Attribute_placed.
  - exact visit_Subscript_placed.
  - exact visit_Assign_placed.
  - exact visit_AugAssign_placed.
  - exact visit_Print_placed.
  - exact visit_ExceptHandler_placed.
  - exact visit_With_placed.
  - exact visit_FunctionDef_placed.
  - exact visit_Lambda_placed.
  - exact visit_ClassDef_placed.
  - exact visit_Module_placed.
Qed.

Lemma visit_placed (n : node) : returns_placed visit n.
Proof.
  induction n as [c l o fs IH] using node_children_ind.
  intros Hp st out st' Hv. rewrite visit_unfold in Hv.
  change (cls_of (Node c l o fs)) with c in Hv.
  destruct (find_method c methods) as [m|] eqn:Hm.
  - refine (find_method_placed c m Hm _ _ _ _ _ _ Hv).
    apply node_contents_visit_placed; assumption.
  - unfold generic_visit in Hv.
    apply bind_Ok in Hv as (? & ? & _ & Hv).
    apply bind_Ok in Hv as (? & ? & _ & Hv).
    apply ret_Ok in Hv as [-> _]. reflexivity.
Qed.

(** X22.  The transformer keeps trees placed: when every node of the
    input that can carry a position has a line and a column, so has
    every such node of the tree that the visit returns - also the nodes
    that the transformer built itself.  So the compiler does not refuse
    the result for a missing position. *)
Theorem visit_keeps_trees_placed (t : node) (st : state) (out : value)
    (st' : state) :
  placed t = true ->
  visit t st = Ok out st' ->
  placed_value out = true.
Proof. intros Hp Hv. exact (visit_placed t Hp st out st' Hv). Qed.
End MethodsKeepPlaced.

(** The attribute read [a.b]: the call that replaces it and the string
    literal in it, both built by the transformer, have a position. *)
Lemma visit_keeps_trees_placed_witness :
  @placed_value python36
    (VNode (@located python36 1 0
              (ast.Call (ast.Name (VStr "_getattr_") ast.Load)
                 [VNode (parsed.Name 1 0 "a" "Load");
                  VNode (ast.Str (VStr "b"))] []))) = true.
Proof.
  exact (@visit_keeps_trees_placed python36
           (parsed.Attribute 1 0 (parsed.Name 1 0 "a" "Load") "b" "Load")
           init _ (mkState [] [] [Some "a"] 0 (mkPrintInfo false false))
           eq_refl eq_refl).
Defined.

(** * Edges: rejected children, and the other subscripts *)

Section Edges.
Context `{Compat}.

Lemma refused_returns_None (n : node) (st : state) :
  refused n = true ->
  exists st', visit n st = Ok VNone st'
              /\ length (errors st') = S (length (errors st)).
Proof.
  unfold refused. intros Hr. apply orb_true_iff in Hr as [Hr|Hr].
  - apply negb_true_iff in Hr. rewrite (visit_without_method n st Hr).
    eexists. split; [reflexivity|]. simpl. rewrite length_app. simpl. lia.
  - rewrite (visit_method n _ _ eq_refl (denied_class_method _ Hr)).
    eexists. split; [reflexivity|]. simpl. rewrite length_app. simpl. lia.
Qed.

Lemma visit_context (c : string) (st : state) :
  mem c ["Load"; "Store"; "Del"; "Param"] = true ->
  visit (Node c None None []) st = Ok (VNode (Node c None None [])) st.
Proof.
  intros Hc. apply visit_plain. unfold plain. simpl. rewrite andb_true_r.
  unfold mem in *. cbn [existsb] in Hc.
  repeat (apply orb_true_iff in Hc as [Hc|Hc];
          [apply String.eqb_eq in Hc; subst c; reflexivity|]).
  discriminate Hc.
Qed.

(** X23.  A refused expression as the object of an attribute read makes
    the transformer raise: the object is reported and removed, the
    attribute node is left without its [value], and [visit_Attribute]
    fails with [AttributeError] when it reads it.  So for [(yield x).b]
    the caller gets an exception instead of the list of errors. *)
Theorem refused_object_makes_attribute_read_raise
    (l o : Z) (obj : node) (a : string) (st : state) :
  refused obj = true ->
  exists st',
    visit (parsed.Attribute l o obj a "Load") st
    = Raise (AttributeError "value") st'
    /\ (length (errors st) < length (errors st'))%nat.
Proof.
  intros Hr.
  set (n := parsed.Attribute l o obj a "Load").
  rewrite (visit_Attribute_name_check n a st eq_refl eq_refl).
  set (s0 := add_errors st (attribute_name_errors n a)).
  destruct (refused_returns_None obj s0 Hr) as (s1 & Hobj & Hlen).
  exists s1. split.
  - assert (Hctx : lookup "ctx" (fields_of n) = Some (parsed.ctx "Load"))
      by reflexivity.
    run. change (isinstance (parsed.ctx "Load") "Load") with true. cbv iota.
    assert (Hn : node_contents_visit visit n s0
                 = Ok (Node "Attribute" (Some l) (Some o)
                         [("attr", VStr a); ("ctx", parsed.ctx "Load")]) s1).
    { unfold node_contents_visit, n, parsed.Attribute. cbn [visit_fields].
      pose proof (visit_context "Load" s1 eq_refl) as Hload.
      unfold parsed.ctx. run. reflexivity. }
    run. reflexivity.
  - unfold s0, add_errors in Hlen. simpl in Hlen.
    rewrite length_app in Hlen. lia.
Qed.

(** X24.  A subscript read with a plain index is replaced by the call
    [_getitem_(obj, index)], at the position of the subscript: [a[i]]
    becomes [_getitem_(a, i)]. *)
Theorem visit_Subscript_index_read
    (n n' s : node) (ctx obj index : value) (l o : Z) (st st' : state) :
  cls_of n = "Subscript" ->
  lineno_of n = Some l -> col_offset_of n = Some o ->
  node_contents_visit visit n st = Ok n' st' ->
  lookup "ctx" (fields_of n') = Some ctx ->
  isinstance ctx "Load" = true ->
  lookup "value" (fields_of n') = Some obj ->
  lookup "slice" (fields_of n') = Some (VNode s) ->
  cls_of s = "Index" ->
  lookup "value" (fields_of s) = Some index ->
  visit n st =
  Ok (VNode (located l o
               (ast.Call (ast.Name (VStr "_getitem_") ast.Load)
                  [obj; index] []))) st'.
Proof.
  intros Hc Hl Ho Hn Hctx Hload Hv Hs Hcs Hi.
  rewrite (visit_method n "Subscript" visit_Subscript Hc eq_refl).
  unfold visit_Subscript. run. rewrite Hload. run.
  assert (Ht : transform_slice (VNode s) st' = Ok index st').
  { destruct s as [c ls os fs]. simpl in Hcs. subst c. simpl.
    now apply getattr_eq. }
  run.
  apply node_contents_visit_Ok in Hn as (_ & Hl' & Ho' & _).
  rewrite <- Hl' in Hl. rewrite <- Ho' in Ho. run. reflexivity.
Qed.

Lemma transform_slice_Index (s : node) (index : value) (st : state) :
  cls_of s = "Index" -> lookup "value" (fields_of s) = Some index ->
  transform_slice (VNode s) st = Ok index st.
Proof.
  destruct s as [c ls os fs]. simpl. intros -> Hi. simpl.
  now apply getattr_eq.
Qed.

Lemma transform_slice_dims (dims results : list value) :
  Forall2 (fun d r => forall st, transform_slice d st = Ok r st)
    dims results ->
  forall st,
    mapM (fun item => match item with
                      | VNode i => transform_slice_node i
                      | _ => raise (Exception "Unknown slice type")
                      end) dims st = Ok results st.
Proof.
  induction 1 as [|d r dims results Hd _ IH]; intros st; [reflexivity|].
  simpl. destruct d as [| | | |i|];
    try (specialize (Hd st); discriminate Hd).
  rewrite (bind_eq _ _ _ _ _ (Hd st)).
  rewrite (bind_eq _ _ _ _ _ (IH st)). reflexivity.
Qed.

(** X25.  A subscript read with an extended slice gets the tuple of its
    transformed dimensions: [a[i, j:k]] becomes
    [_getitem_(a, (i, slice(j, k, None)))].  Each dimension is an index,
    which gives its value, or a slice, which gives a call of [slice]
    with the none literal for a missing bound: the constant [None] from
    3.4 on, the name [None] before. *)
Theorem visit_Subscript_extended_slice_read
    (n n' s : node) (ctx obj : value) (dims results : list value)
    (l o : Z) (st st' : state) :
  cls_of n = "Subscript" ->
  lineno_of n = Some l -> col_offset_of n = Some o ->
  node_contents_visit visit n st = Ok n' st' ->
  lookup "ctx" (fields_of n') = Some ctx ->
  isinstance ctx "Load" = true ->
  lookup "value" (fields_of n') = Some obj ->
  lookup "slice" (fields_of n') = Some (VNode s) ->
  cls_of s = "ExtSlice" ->
  lookup "dims" (fields_of s) = Some (VList dims) ->
  Forall2
    (fun d r =>
       exists i, d = VNode i /\
         ((cls_of i = "Index" /\ lookup "value" (fields_of i) = Some r)
          \/ (exists lower upper step,
                cls_of i = "Slice"
                /\ lookup "lower" (fields_of i) = Some (optional lower)
                /\ lookup "upper" (fields_of i) = Some (optional upper)
                /\ lookup "step" (fields_of i) = Some (optional step)
                /\ r = VNode (ast.Call (ast.Name (VStr "slice") ast.Load)
                                [or_none_literal lower;
                                 or_none_literal upper;
                                 or_none_literal step] []))))
    dims results ->
  visit n st =
  Ok (VNode (located l o
               (ast.Call (ast.Name (VStr "_getitem_") ast.Load)
                  [obj; VNode (ast.Tuple results ast.Load)] []))) st'.
Proof.
  intros Hc Hl Ho Hn Hctx Hload Hv Hs Hcs Hd Hdims.
  rewrite (visit_method n "Subscript" visit_Subscript Hc eq_refl).
  unfold visit_Subscript. run. rewrite Hload. run.
  assert (Ht : transform_slice (VNode s) st'
               = Ok (VNode (ast.Tuple results ast.Load)) st').
  { destruct s as [c ls os fs]. simpl in Hcs, Hd. subst c. simpl.
    rewrite with_attr_lookup, Hd.
    assert (Hall : Forall2
                     (fun d r => forall s1, transform_slice d s1 = Ok r s1)
                     dims results).
    { eapply Forall2_impl; [|exact Hdims].
      intros d r
        (i & -> & [[Hci Hi] | (lo & up & sp & Hci & Hlo & Hup & Hsp & ->)])
        s1.
      - now apply transform_slice_Index.
      - now apply transform_slice_Slice. }
    rewrite (bind_eq _ _ _ _ _ (transform_slice_dims dims results Hall st')).
    reflexivity. }
  run.
  apply node_contents_visit_Ok in Hn as (_ & Hl' & Ho' & _).
  rewrite <- Hl' in Hl. rewrite <- Ho' in Ho. run. reflexivity.
Qed.
End Edges.

(** [(yield x).b] *)
Lemma refused_object_makes_attribute_read_raise_witness :
  exists st',
    @visit python36
      (parsed.Attribute 1 0 (parsed.Yield 1 1 (parsed.Name 1 7 "x" "Load"))
         "b" "Load") init
    = Raise (AttributeError "value") st'
    /\ (length (errors init) < length (errors st'))%nat.
Proof.
  exact (@refused_object_makes_attribute_read_raise python36 1 0
           (parsed.Yield 1 1 (parsed.Name 1 7 "x" "Load")) "b" init eq_refl).
Defined.

(** [a[0]] *)
Lemma visit_Subscript_index_read_witness :
  let n :=
    parsed.Subscript 1 0 (parsed.Name 1 0 "a" "Load")
      (Node "Index" None None [("value", VNode (parsed.Num 1 2 0))])
      "Load" in
  @visit python36 n init =
  Ok (VNode (@located python36 1 0
               (ast.Call (ast.Name (VStr "_getitem_") ast.Load)
                  [VNode (parsed.Name 1 0 "a" "Load");
                   VNode (parsed.Num 1 2 0)] [])))
     (mkState [] [] [Some "a"] 0 (mkPrintInfo false false)).
Proof.
  intro n.
  exact (@visit_Subscript_index_read python36 n n
           (Node "Index" None None [("value", VNode (parsed.Num 1 2 0))])
           (parsed.ctx "Load") (VNode (parsed.Name 1 0 "a" "Load"))
           (VNode (parsed.Num 1 2 0)) 1 0 init
           (mkState [] [] [Some "a"] 0 (mkPrintInfo false false))
           eq_refl eq_refl eq_refl eq_refl eq_refl eq_refl eq_refl eq_refl
           eq_refl eq_refl).
Defined.

(** [a[0, 1:]] of 3.6, where [None] is a constant. *)
Lemma visit_Subscript_extended_slice_read_witness :
  let index := Node "Index" None None [("value", VNode (parsed.Num 1 2 0))] in
  let slice_ := parsed.Slice (VNode (parsed.Num 1 5 1)) VNone VNone in
  let ext :=
    Node "ExtSlice" None None [("dims", VList [VNode index; VNode slice_])] in
  let n := parsed.Subscript 1 0 (parsed.Name 1 0 "a" "Load") ext "Load" in
  @visit python36 n init =
  Ok (VNode (@located python36 1 0
               (ast.Call (ast.Name (VStr "_getitem_") ast.Load)
                  [VNode (parsed.Name 1 0 "a" "Load");
                   VNode
                     (ast.Tuple
                        [VNode (parsed.Num 1 2 0);
                         VNode
                           (ast.Call (ast.Name (VStr "slice") ast.Load)
                              [VNode (parsed.Num 1 5 1);
                               VNode (ast.NameConstant VNone);
                               VNode (ast.NameConstant VNone)] [])]
                        ast.Load)] [])))
     (mkState [] [] [Some "a"] 0 (mkPrintInfo false false)).
Proof.
  intros index slice_ ext n.
  refine (@visit_Subscript_extended_slice_read python36 n n ext
            (parsed.ctx "Load") (VNode (parsed.Name 1 0 "a" "Load"))
            [VNode index; VNode slice_] _ 1 0 init
            (mkState [] [] [Some "a"] 0 (mkPrintInfo false false))
            eq_refl eq_refl eq_refl eq_refl eq_refl eq_refl eq_refl eq_refl
            eq_refl eq_refl _).
  constructor.
  - exists index. split; [reflexivity|]. left. split; reflexivity.
  - constructor; [|constructor].
    exists slice_. split; [reflexivity|]. right.
    exists (Some (parsed.Num 1 5 1)), None, None.
    repeat split; reflexivity.
Defined.

(** The same subscript [a[0, 1:]] on 2.7, where [None] is a name. *)
Example extended_slice_read_before_34 :
  let index := Node "Index" None None [("value", VNode (parsed.Num 1 2 0))] in
  let slice_ := parsed.Slice (VNode (parsed.Num 1 5 1)) VNone VNone in
  let ext :=
    Node "ExtSlice" None None [("dims", VList [VNode index; VNode slice_])] in
  @visit python27
    (parsed.Subscript 1 0 (parsed.Name 1 0 "a" "Load") ext "Load") init =
  Ok (VNode (@located python27 1 0
               (ast.Call (ast.Name (VStr "_getitem_") ast.Load)
                  [VNode (parsed.Name 1 0 "a" "Load");
                   VNode
                     (ast.Tuple
                        [VNode (parsed.Num 1 2 0);
                         VNode
                           (ast.Call (ast.Name (VStr "slice") ast.Load)
                              [VNode (parsed.Num 1 5 1);
                               VNode (ast.Name (VStr "None") ast.Load);
                               VNode (ast.Name (VStr "None") ast.Load)] [])]
                        ast.Load)] [])))
     (mkState [] [] [Some "a"] 0 (mkPrintInfo false false)).
Proof. reflexivity. Qed.

(** * Denied classes do not reach the output *)

Section CleanTraversal.
Context `{Compat}.

Section TraversalClean.
Variable v : node -> M value.

Lemma visit_list_clean (l : list value) :
  Forall (fun x => match x with VNode n => returns_clean v n | _ => True end) l ->
  forallb (fun x => match x with
                    | VList _ => false
                    | _ => flat_value x
                    end) l = true ->
  forall st l' st',
    visit_list v l st = Ok l' st' -> forallb clean l' = true.
Proof.
  unfold returns_clean, clean.
  induction 1 as [|x l Hx _ IH]; intros Hflat st l' st' Hv.
  - simpl in Hv. minv Hv. reflexivity.
  - simpl in Hflat. apply andb_true_iff in Hflat as [Hfx Hfl].
    specialize (IH Hfl). simpl in Hv.
    destruct x as [| ? | ? | ? |child|inner]; try discriminate Hfx;
      try solve [minv Hv; minv Hv; simpl; eauto].
    minv Hv. specialize (Hx Hfx _ _ _ Hstep).
    destruct a as [| ? | ? | ? |r|rs]; try discriminate Hv.
    + eauto.
    + minv Hv. minv Hv. simpl in *.
      apply andb_true_iff. split; [exact Hx | eauto].
    + minv Hv. minv Hv. rewrite forallb_app.
      apply andb_true_iff. split; [exact Hx | eauto].
Qed.

Lemma visit_fields_clean (fs : list (string * value)) :
  Forall (fun fv => on_children (returns_clean v) (snd fv)) fs ->
  forallb (fun fv => flat_value (snd fv)) fs = true ->
  forall st fs' st',
    visit_fields v fs st = Ok fs' st' ->
    forallb (fun fv => clean (snd fv)) fs' = true.
Proof.
  induction 1 as [|[f x] fs Hx _ IH]; intros Hflat st fs' st' Hv.
  - simpl in Hv. minv Hv. reflexivity.
  - simpl in Hflat. apply andb_true_iff in Hflat as [Hfx Hfl].
    specialize (IH Hfl). simpl in Hv, Hx.
    destruct x as [| ? | ? | ? |child|l];
      try solve [minv Hv; minv Hv; simpl; eauto].
    + minv Hv. minv Hv. minv Hv.
      specialize (Hx Hfx _ _ _ Hstep).
      destruct (is_none a); simpl; eauto.
      apply andb_true_iff. split; [exact Hx | eauto].
    + minv Hv. minv Hv. minv Hv.
      pose proof (visit_list_clean l Hx Hfx _ _ _ Hstep) as Hl.
      simpl. apply andb_true_iff. split; [exact Hl | eauto].
Qed.

Lemma node_contents_visit_clean (n : node) :
  permitted (cls_of n) = true ->
  Forall (fun fv => on_children (returns_clean v) (snd fv)) (fields_of n) ->
  flat_node n = true ->
  forall st n' st',
    node_contents_visit v n st = Ok n' st' -> clean (VNode n') = true.
Proof.
  destruct n as [c l o fs]. simpl. intros Hc Hfs Hflat st n' st' Hv.
  unfold node_contents_visit in Hv. minv Hv. minv Hv.
  unfold clean. simpl. rewrite Hc.
  exact (visit_fields_clean fs Hfs Hflat _ _ _ Hstep).
Qed.
End TraversalClean.
End CleanTraversal.

Section CleanHelpers.
Context `{Compat}.

Ltac permitted_known :=
  repeat match goal with
         | |- context [permitted (String ?a ?b)] =>
             change (permitted (String a b)) with true
         end.

Ltac cconj :=
  repeat (apply andb_true_iff; split); try reflexivity; try assumption.

Lemma clean_getattr (n : node) f x :
  clean (VNode n) = true -> lookup f (fields_of n) = Some x ->
  clean x = true.
Proof. apply all_getattr. Qed.

Lemma clean_setattr (n : node) f x :
  clean (VNode n) = true -> clean x = true ->
  clean (VNode (setattr n f x)) = true.
Proof. apply all_setattr. Qed.

Lemma clean_copy (new old r : node) (st st' : state) :
  copy_locations new old st = Ok r st' ->
  clean (VNode new) = true -> clean (VNode r) = true.
Proof.
  intros Hc Hn. apply (copy_locations_Ok permitted) in Hc as [_ Hr].
  unfold clean. simpl. now rewrite Hr.
Qed.

Lemma clean_copy_from (new r : node) (old : value) (st st' : state) :
  copy_locations_from new old st = Ok r st' ->
  clean (VNode new) = true -> clean (VNode r) = true.
Proof. destruct old; try discriminate. apply clean_copy. Qed.

Lemma clean_located (l o : Z) (n : node) :
  clean (VNode n) = true -> clean (VNode (located l o n)) = true.
Proof. unfold clean. simpl. now rewrite all_located. Qed.

Lemma clean_list (l : list value) :
  clean (VList l) = forallb clean l.
Proof. reflexivity. Qed.

Lemma clean_Call (f : value) (args kw : list value) :
  clean f = true -> forallb clean args = true ->
  forallb clean kw = true ->
  clean (VNode (ast.Call f args kw)) = true.
Proof.
  unfold clean. simpl. permitted_known. intros Hf Ha Hk. cconj.
Qed.

Lemma clean_Name (id : value) (ctx : node) :
  clean id = true -> clean (VNode ctx) = true ->
  clean (VNode (ast.Name id ctx)) = true.
Proof.
  unfold clean. simpl. permitted_known. intros Hi Hc. cconj.
Qed.

Lemma clean_Tuple (elts : list value) (ctx : node) :
  forallb clean elts = true -> clean (VNode ctx) = true ->
  clean (VNode (ast.Tuple elts ctx)) = true.
Proof.
  unfold clean. simpl. permitted_known. intros He Hc. cconj.
Qed.

Lemma clean_Assign (targets : list value) (x : value) :
  forallb clean targets = true -> clean x = true ->
  clean (VNode (ast.Assign targets x)) = true.
Proof.
  unfold clean. simpl. permitted_known. intros Ht Hx. cconj.
Qed.

Lemma clean_Str (x : value) :
  clean x = true -> clean (VNode (ast.Str x)) = true.
Proof. unfold clean. simpl. permitted_known. intros Hx. cconj. Qed.

Lemma clean_Attribute (x attr : value) (ctx : node) :
  clean x = true -> clean attr = true ->
  clean (VNode ctx) = true ->
  clean (VNode (ast.Attribute x attr ctx)) = true.
Proof.
  unfold clean. simpl. permitted_known. intros Hx Ha Hc. cconj.
Qed.

Lemma clean_CLASS_DEF (name : string) :
  clean (VNode (parse_CLASS_DEF name)) = true.
Proof.
  unfold parse_CLASS_DEF. destruct IS_PY35_OR_GREATER; reflexivity.
Qed.

Lemma clean_ctx :
  clean (VNode ast.Load) = true /\ clean (VNode ast.Store) = true
  /\ clean (VNode ast.Del) = true /\ clean (VNode ast.Param) = true.
Proof. repeat split. Qed.

Lemma clean_atom (x : value) : atom x = true -> clean x = true.
Proof. destruct x; try discriminate; reflexivity. Qed.

Lemma unpack_children_clean (gen : node -> M node) (m : Z) :
  forall elts idx offset st childs st',
    Forall (fun x => match x with
                     | VNode t => forall st spec st',
                         gen t st = Ok spec st' ->
                         clean (VNode spec) = true
                     | _ => True
                     end) elts ->
    unpack_children gen m elts idx offset st = Ok childs st' ->
    forallb clean childs = true.
Proof.
  induction elts as [|val rest IH]; intros idx offset st childs st' Hgen Hu.
  - simpl in Hu. minv Hu. reflexivity.
  - inversion Hgen as [|? ? Hval Hrest]; subst. simpl in Hu.
    destruct (is_starred val); [eauto|].
    destruct val as [| ? | ? | ? |t| ?]; eauto.
    destruct (cls_of t =? "Tuple")%string; [|eauto].
    minv Hu. minv Hu. minv Hu. simpl.
    apply andb_true_iff. split; [|eauto].
    cconj. exact (Hval _ _ _ Hstep).
Qed.

Lemma gen_unpack_spec_clean (tpl : node) :
  forall st spec st',
    gen_unpack_spec tpl st = Ok spec st' -> clean (VNode spec) = true.
Proof.
  induction tpl as [c l o fs IH] using node_children_ind.
  intros st spec st' Hg. rewrite gen_unpack_spec_unfold in Hg.
  change (fields_of (Node c l o fs)) with fs in Hg.
  destruct (lookup "elts" fs) as [[| | | | |elts]|] eqn:Hl;
    cbv beta iota in Hg; try discriminate Hg.
  pose proof (lookup_Forall (on_children _) fs "elts" _ IH Hl) as IHelts.
  simpl in IHelts.
  minv Hg. minv Hg.
  pose proof (unpack_children_clean _ _ _ _ _ _ _ _ IHelts Hstep) as Hc.
  unfold clean in *. simpl. permitted_known. cconj.
Qed.

Lemma gen_unpack_spec_of_clean (x : value) st spec st' :
  gen_unpack_spec_of x st = Ok spec st' -> clean (VNode spec) = true.
Proof.
  unfold gen_unpack_spec_of. intros Hg. minv Hg.
  eapply gen_unpack_spec_clean; eauto.
Qed.

Lemma protect_unpack_sequence_clean (target x : value) st r st' :
  protect_unpack_sequence target x st = Ok r st' ->
  clean x = true -> clean (VNode r) = true.
Proof.
  unfold protect_unpack_sequence. intros Hp Hx. minv Hp. minv Hp.
  apply gen_unpack_spec_of_clean in Hstep.
  apply clean_Call; [reflexivity | | reflexivity].
  simpl. cconj.
Qed.

Lemma gen_unpack_wrapper_clean (n : node) (target : value) ctx st
    tmp_target cleanup st' :
  gen_unpack_wrapper n target ctx st = Ok (tmp_target, cleanup) st' ->
  clean target = true ->
  clean (VNode tmp_target) = true /\ clean (VNode cleanup) = true.
Proof.
  unfold gen_unpack_wrapper. intros Hg Ht.
  minv Hg. minv Hg. minv Hg. minv Hg. minv Hg. minv Hg.
  apply protect_unpack_sequence_clean in Hstep0; [|reflexivity].
  split.
  - eapply clean_copy; [eassumption|].
    apply clean_Name; [reflexivity|].
    destruct (ctx =? "store")%string; [minv Hstep1; reflexivity|].
    destruct (ctx =? "param")%string; [minv Hstep1; reflexivity|].
    discriminate.
  - eapply clean_copy; [eassumption|].
    unfold clean in *.
    destruct IS_PY2; simpl; permitted_known; cconj.
Qed.
End CleanHelpers.

Section MethodsKeepClean.
Context `{Compat}.

Ltac cstart :=
  unfold keeps_clean;
  let contents := fresh "contents" in
  let n := fresh "n" in
  let Hc := fresh "Hc" in
  let Hm := fresh "Hm" in
  intros contents n Hc st out st' Hm.

Ltac ccontents :=
  repeat match goal with
         | Hc : forall st n' st', ?c st = Ok n' st' -> clean (VNode n') = true,
           Hs : ?c _ = Ok ?n' _ |- _ =>
             lazymatch goal with
             | _ : clean (VNode n') = true |- _ => fail
             | _ => pose proof (Hc _ _ _ Hs)
             end
         end.

Ltac cstep :=
  match goal with
  | H : bind _ _ _ = Ok _ _ |- _ => mstep H
  | H : ret _ _ = Ok _ _ |- _ => mstep H
  | H : raise _ _ = Ok _ _ |- _ => discriminate H
  | H : Raise _ _ = Ok _ _ |- _ => discriminate H
  | H : (if _ then _ else _) _ = Ok _ _ |- _ => mstep H
  | H : (let (_, _) := _ in _) _ = Ok _ _ |- _ => mstep H
  | H : (match _ with _ => _ end) _ = Ok _ _ |- _ => mstep H
  end.

Ltac csame :=
  repeat match goal with
         | E : VNode _ = VNode _ |- _ => injection E as E; subst
         | E : VList _ = VList _ |- _ => injection E as E; subst
         | E : VStr _ = VStr _ |- _ => injection E as E; subst
         end.

Ltac csteps H := repeat (cstep; csame; ccontents).

Ltac cconj :=
  repeat (apply andb_true_iff; split); try reflexivity; try assumption.

Ltac ccheap :=
  lazymatch goal with
  | |- true = true => reflexivity
  | |- clean (VStr _) = true => reflexivity
  | |- clean (VInt _) = true => reflexivity
  | |- clean (VBool _) = true => reflexivity
  | |- clean VNone = true => reflexivity
  | |- clean (VNode ast.Load) = true => reflexivity
  | |- clean (VNode ast.Store) = true => reflexivity
  | |- clean (VNode ast.Del) = true => reflexivity
  | |- clean (VNode ast.Param) = true => reflexivity
  | |- clean (VList []) = true => reflexivity
  | |- forallb _ [] = true => reflexivity
  end.

Ltac cleanse :=
  repeat first
    [ ccheap
    | assumption
    | lazymatch goal with
      | |- clean (VNode (setattr _ _ _)) = true =>
          apply clean_setattr
      | |- clean (VNode (located _ _ _)) = true =>
          apply clean_located
      | |- clean (VNode (ast.Call _ _ _)) = true =>
          apply clean_Call
      | |- clean (VNode (ast.Name _ _)) = true => apply clean_Name
      | |- clean (VNode (ast.Tuple _ _)) = true =>
          apply clean_Tuple
      | |- clean (VNode (ast.Assign _ _)) = true =>
          apply clean_Assign
      | |- clean (VNode (ast.Str _)) = true => apply clean_Str
      | |- clean (VNode (ast.Attribute _ _ _)) = true =>
          apply clean_Attribute
      | |- clean (VNode (parse_CLASS_DEF _)) = true =>
          apply clean_CLASS_DEF
      | |- forallb _ (_ :: _) = true =>
          cbn [forallb];
          repeat match goal with
                 | |- _ && _ = true => apply andb_true_iff; split
                 end
      | |- clean (VList (?x :: ?l)) = true =>
          change (forallb clean (x :: l) = true)
      | |- forallb clean ?l = true =>
          change (clean (VList l) = true)
      | |- clean (VNode ?n) = true =>
          is_var n;
          first
            [ eapply clean_copy; [eassumption|]
            | eapply clean_copy_from; [eassumption|]
            | eapply gen_unpack_spec_of_clean; eassumption
            | eapply protect_unpack_sequence_clean; [eassumption|]
            | eapply clean_getattr; [|eassumption] ]
      | |- clean ?x = true =>
          eapply clean_getattr; [|eassumption]
      end ].

Lemma allow_clean : keeps_clean allow.
Proof. unfold allow. cstart. csteps Hm. cleanse. Qed.

Lemma deny_clean : keeps_clean deny.
Proof. unfold deny. cstart. csteps Hm. cleanse. Qed.

Lemma guard_iter_clean : keeps_clean guard_iter.
Proof. unfold guard_iter. cstart. csteps Hm; cleanse.
Qed.

Lemma check_import_names_clean : keeps_clean check_import_names.
Proof. unfold check_import_names. cstart. csteps Hm; cleanse. Qed.

Lemma visit_Name_clean : keeps_clean visit_Name.
Proof. unfold visit_Name. cstart. csteps Hm; cleanse. Qed.

Lemma visit_Attribute_clean : keeps_clean visit_Attribute.
Proof. unfold visit_Attribute. cstart. csteps Hm; cleanse.
Qed.

Lemma transform_slice_node_clean (slice_ : node) :
  clean (VNode slice_) = true ->
  forall st r st',
    transform_slice_node slice_ st = Ok r st' -> clean r = true.
Proof.
  induction slice_ as [c l o fs IH] using node_children_ind.
  intros Hs st r st' Ht. simpl in Ht.
  destruct (c =? "Index")%string.
  { prim Ht. cleanse. }
  destruct (c =? "Slice")%string.
  { csteps Ht. unfold gen_none_node.
    apply clean_Call; [reflexivity | | reflexivity].
    cbn [forallb].
    repeat match goal with
           | |- context [if truthy ?b then _ else _] => destruct (truthy b)
           end;
      destruct IS_PY34_OR_GREATER; cconj; cleanse. }
  destruct (c =? "ExtSlice")%string; [|discriminate].
  rewrite with_attr_lookup in Ht.
  destruct (lookup "dims" fs) as [[| | | | |dims]|] eqn:Hl;
    try discriminate Ht.
  csteps Ht.
  pose proof (lookup_Forall (on_children _) fs "dims" _ IH Hl) as IHd.
  simpl in IHd.
  assert (Hd : forallb clean dims = true)
    by exact (clean_getattr (Node c l o fs) "dims" (VList dims) Hs Hl).
  apply clean_Tuple; [|reflexivity].
  apply forallb_Forall_true.
  apply forallb_Forall_true in Hd.
  refine (mapM_Ok_Forall _
            (fun x => clean x = true
                      /\ match x with
                         | VNode n =>
                             clean (VNode n) = true ->
                             forall st r st',
                               transform_slice_node n st = Ok r st' ->
                               clean r = true
                         | _ => True
                         end)
            _ dims _ _ _ _ _ Hstep).
  - intros x sx y sy [Hx Hrec] Hy. destruct x; try discriminate Hy. eauto.
  - clear Hstep Hl Hs. revert Hd.
    induction IHd as [|x xs Hx _ IHxs]; intros Hd; [constructor|].
    inversion Hd; subst. constructor; auto.
Qed.

Lemma transform_slice_clean (slice_ : value) st r st' :
  clean slice_ = true ->
  transform_slice slice_ st = Ok r st' -> clean r = true.
Proof.
  destruct slice_; try discriminate.
  intros Hs. now apply transform_slice_node_clean.
Qed.

Lemma visit_Subscript_clean : keeps_clean visit_Subscript.
Proof.
  unfold visit_Subscript. cstart. csteps Hm; cleanse.
  eapply transform_slice_clean; [|eassumption]. cleanse.
Qed.

Lemma visit_Call_clean : keeps_clean visit_Call.
Proof.
  unfold visit_Call. cstart. csteps Hm; cleanse.
Qed.

Lemma visit_AugAssign_clean : keeps_clean visit_AugAssign.
Proof.
  unfold visit_AugAssign. cstart. csteps Hm; cleanse.
Qed.

Lemma visit_Print_clean : keeps_clean visit_Print.
Proof.
  unfold visit_Print. cstart. csteps Hm; cleanse.
  match goal with
  | |- context [is_none ?x] =>
      destruct (is_none x); [reflexivity|];
      assert (clean x = true) by cleanse
  end.
  unfold clean in *. simpl. cconj.
Qed.

Lemma visit_Assign_clean : keeps_clean visit_Assign.
Proof.
  unfold visit_Assign. cstart. csteps Hm; cleanse.
  match goal with
  | Hmap : mapM _ (rev ?ts) _ = Ok ?news _,
    Hloc : mapM _ ?news _ = Ok ?final _ |- _ =>
      assert (Ht : Forall (fun x => clean x = true) (rev ts))
        by (apply Forall_rev, forallb_Forall_true; cleanse);
      assert (Hnew : Forall (fun x => clean (VNode x) = true) news)
        by (refine (mapM_Ok_Forall _ _ _ _ _ Ht _ _ _ Hmap);
            intros x ? y ? Hx Hy; csteps Hy; cleanse);
      assert (Hfin : Forall (fun x => clean (VNode x) = true) final)
        by (refine (mapM_Ok_Forall _ _ _ _ _ Hnew _ _ _ Hloc);
            intros x ? y ? Hx Hy; cleanse)
  end.
  rewrite clean_list. apply forallb_Forall_true.
  apply Forall_map. exact Hfin.
Qed.

Lemma visit_ExceptHandler_clean : keeps_clean visit_ExceptHandler.
Proof.
  unfold visit_ExceptHandler. cstart. csteps Hm; cleanse.
  all: match goal with
       | Hw : gen_unpack_wrapper _ _ _ _ = Ok _ _ |- _ =>
           apply gen_unpack_wrapper_clean in Hw as [? ?]; [|cleanse]
       end; cleanse.
Qed.

Lemma inject_print_collector_clean (n : node) (position : nat)
    st r st' :
  inject_print_collector n position st = Ok r st' ->
  clean (VNode n) = true -> clean (VNode r) = true.
Proof.
  unfold inject_print_collector. intros Hi Hn. csteps Hi; cleanse.
  all: rewrite clean_list; apply all_list_insert.
  all: lazymatch goal with
       | |- forallb _ ?l = true =>
           change (clean (VList l) = true); cleanse
       | |- all_value _ (VNode (fix_missing_locations ?x)) = true =>
           change (all_node permitted (_fix x 1 0) = true);
           rewrite all_fix; reflexivity
       | |- all_value _ ?x = true => change (clean x = true); cleanse
       end.
Qed.

Lemma visit_Module_clean : keeps_clean visit_Module.
Proof.
  unfold visit_Module. cstart. csteps Hm.
  eapply inject_print_collector_clean; eauto.
Qed.

Ltac cwrapper :=
  repeat match goal with
         | Hw : gen_unpack_wrapper _ _ _ _ = Ok _ _ |- _ =>
             apply gen_unpack_wrapper_clean in Hw as [? ?]; [|cleanse]
         end.

Lemma protect_with_item_clean (n : node) (item : value) st n' item' st' :
  protect_with_item n item st = Ok (n', item') st' ->
  clean (VNode n) = true -> clean item = true ->
  clean (VNode n') = true /\ clean item' = true.
Proof.
  unfold protect_with_item. intros Hp Hn Hi.
  csteps Hp; cwrapper; split; cleanse.
Qed.

Lemma visit_With_clean : keeps_clean visit_With.
Proof.
  unfold visit_With. cstart. csteps Hm; cwrapper; try solve [cleanse].
  match goal with
  | Hf : foldM _ (?n0, []) (rev ?items) _ = Ok (?n1, ?done) _ |- _ =>
      assert (Hinv : clean (VNode n1) = true
                     /\ forallb clean done = true);
      [ refine (foldM_invariant _
                  (fun x => clean x = true)
                  (fun acc : node * list value =>
                     clean (VNode (fst acc)) = true
                     /\ forallb clean (snd acc) = true)
                  (rev items) _ _ (n0, []) _ (n1, done) _ _ Hf)
      | ]
  end.
  - intros [b1 b2] x ? [b1' b2'] ? Hx [Hb1 Hb2] Hf. simpl in *.
    csteps Hf.
    match goal with
    | Hp : protect_with_item _ _ _ = Ok _ _ |- _ =>
        apply protect_with_item_clean in Hp as [? ?]; auto
    end.
    split; [assumption|]. simpl. cconj.
  - apply Forall_rev, forallb_Forall_true. cleanse.
  - split; [cleanse | reflexivity].
  - destruct Hinv as [Hn1 Hdone]. cleanse.
Qed.

Lemma visit_ClassDef_clean : keeps_clean visit_ClassDef.
Proof.
  unfold visit_ClassDef. cstart. csteps Hm; cleanse.
  all: apply clean_CLASS_DEF.
Qed.

Lemma visit_FunctionDef_clean : keeps_clean visit_FunctionDef.
Proof.
  unfold visit_FunctionDef. cstart. csteps Hm.
  all: match goal with
       | Hs : new_print_scope _ _ = Ok ?r _ |- _ =>
           apply new_print_scope_Ok in Hs as (? & ? & Hs);
           csteps Hs;
           match goal with
           | Hi : inject_print_collector _ _ _ = Ok r _ |- _ =>
               apply inject_print_collector_clean in Hi; [|cleanse]
           end
       end; try solve [cleanse].
  match goal with
  | Hf : foldM _ ([], []) ?params _ = Ok (?new_params, ?unpacks) _ |- _ =>
      assert (Hinv : forallb clean new_params = true
                     /\ forallb clean unpacks = true);
      [ refine (foldM_invariant _
                  (fun x => clean x = true)
                  (fun acc : list value * list value =>
                     forallb clean (fst acc) = true
                     /\ forallb clean (snd acc) = true)
                  params _ _ ([], []) _ (new_params, unpacks) _ _ Hf)
      | ]
  end.
  - intros [b1 b2] arg ? [b1' b2'] ? Harg [Hb1 Hb2] Hf. simpl in *.
    csteps Hf; cwrapper; simpl; rewrite ?forallb_app; simpl;
      split; cconj.
  - apply forallb_Forall_true. cleanse.
  - split; reflexivity.
  - destruct Hinv as [Hp Hu]. cleanse.
    rewrite clean_list, forallb_app. cconj. cleanse.
Qed.

Lemma visit_Lambda_clean : keeps_clean visit_Lambda.
Proof.
  unfold visit_Lambda. cstart. csteps Hm; try solve [cleanse].
  match goal with
  | Hf : foldM _ ([], []) ?params _ = Ok (?outer, ?inner) _ |- _ =>
      assert (Hinv : forallb clean outer = true
                     /\ forallb clean inner = true);
      [ refine (foldM_invariant _
                  (fun x => clean x = true)
                  (fun acc : list value * list value =>
                     forallb clean (fst acc) = true
                     /\ forallb clean (snd acc) = true)
                  params _ _ ([], []) _ (outer, inner) _ _ Hf)
      | ]
  end.
  - intros [b1 b2] arg ? [b1' b2'] ? Harg [Hb1 Hb2] Hf.
    cbn [fst snd] in *.
    csteps Hf; cbn [fst snd]; rewrite !forallb_app; split;
      (apply andb_true_iff; split; [assumption|]); cleanse.
  - apply forallb_Forall_true. cleanse.
  - split; reflexivity.
  - destruct Hinv as [Ho Hi]. cleanse.
    match goal with
    | Hv : lookup "vararg" _ = Some ?va, Hk : lookup "kwarg" _ = Some ?kw
      |- context [ast.Call ?f _ []] =>
        assert (clean va = true) by cleanse;
        assert (clean kw = true) by cleanse;
        assert (clean f = true) by cleanse;
        destruct (truthy va); destruct (truthy kw)
    end;
    unfold clean in *; simpl; cconj.
Qed.
End MethodsKeepClean.

Section CleanTheorem.
Context `{Compat}.

Lemma find_method_clean (c : string) (m : handler) :
  find_method c methods = Some m -> keeps_clean m.
Proof.
  apply (find_method_ind keeps_clean).
  - exact allow_clean.
  - exact deny_clean.
  - exact guard_iter_clean.
  - exact check_import_names_clean.
  - exact visit_Name_clean.
  - exact visit_Call_clean.
  - exact visit_Attribute_clean.
  - exact visit_Subscript_clean.
  - exact visit_Assign_clean.
  - exact visit_AugAssign_clean.
  - exact visit_Print_clean.
  - exact visit_ExceptHandler_clean.
  - exact visit_With_clean.
  - exact visit_FunctionDef_clean.
  - exact visit_Lambda_clean.
  - exact visit_ClassDef_clean.
  - exact visit_Module_clean.
Qed.

Lemma visit_clean (n : node) : returns_clean visit n.
Proof.
  induction n as [c l o fs IH] using node_children_ind.
  intros Hflat st out st' Hv.
  destruct (mem c denied_classes) eqn:Hd.
  - rewrite (visit_method (Node c l o fs) c deny eq_refl
               (denied_class_method c Hd)) in Hv.
    unfold deny in Hv.
    apply bind_Ok in Hv as (? & ? & _ & Hv).
    apply ret_Ok in Hv as [-> _]. reflexivity.
  - rewrite visit_unfold in Hv.
    change (cls_of (Node c l o fs)) with c in Hv.
    destruct (find_method c methods) as [m|] eqn:Hm.
    + refine (find_method_clean c m Hm _ _ _ _ _ _ Hv).
      apply node_contents_visit_clean.
      * unfold permitted, has_method.
        change (cls_of (Node c l o fs)) with c.
        now rewrite Hm, Hd.
      * exact IH.
      * exact Hflat.
    + unfold generic_visit in Hv.
      apply bind_Ok in Hv as (? & ? & _ & Hv).
      apply bind_Ok in Hv as (? & ? & _ & Hv).
      apply ret_Ok in Hv as [-> _]. reflexivity.
Qed.

(** X26.  No denied class reaches the output.  Whatever the visit of a
    tree of the host grammar returns is clean: every node of it - those
    of the input that were kept and those that the transformer built -
    is of a class that has a [visit_] method other than
    [self.not_allowed(node)].  So the tree that goes to the compiler
    holds no [Exec], [Yield], [YieldFrom], [Nonlocal], [Ellipsis],
    [MatMult], [Await] or other [Async...] node, and none of an unknown
    class. *)
Theorem denied_classes_do_not_reach_the_output
    (t : node) (st : state) (out : value) (st' : state) :
  flat_node t = true ->
  visit t st = Ok out st' ->
  clean out = true.
Proof. intros Hflat Hv. exact (visit_clean t Hflat st out st' Hv). Qed.
End CleanTheorem.

(** The module of the two lines [x = yield 1] and [yield 2]: both [Yield]
    nodes are gone from what is left of it. *)
Lemma denied_classes_do_not_reach_the_output_witness :
  @clean python36
    (VNode
       (parsed.Module
          [VNode (Node "Assign" (Some 1) (Some 0)
                    [("targets", VList [VNode (parsed.Name 1 0 "x" "Store")])]);
           VNode (Node "Expr" (Some 2) (Some 0) [])])) = true.
Proof.
  exact (@denied_classes_do_not_reach_the_output python36
           (parsed.Module
              [VNode (parsed.Assign 1 0 [VNode (parsed.Name 1 0 "x" "Store")]
                        (parsed.Yield 1 4 (parsed.Num 1 10 1)));
               VNode (parsed.Expr 2 0 (parsed.Yield 2 0 (parsed.Num 2 6 2)))])
           init _
           (mkState ["Line 1: Yield statements are not allowed.";
                     "Line 2: Yield statements are not allowed."] [] [] 0
              (mkPrintInfo false false))
           eq_refl eq_refl).
Defined.

(** * The print collector of a function *)

Section FunctionScope.
Context `{Compat}.

Lemma new_print_scope_eq {A} (body : M A) (st : state) (a : A) (s2 : state) :
  body (set_print_info st (mkPrintInfo false false)) = Ok a s2 ->
  new_print_scope body st = Ok a (set_print_info s2 (print_info st)).
Proof.
  intros Hb. unfold new_print_scope, finally. unfold bind at 1.
  cbn [modify]. rewrite Hb. reflexivity.
Qed.

Lemma inject_print_collector_inner (n : node) (position : nat)
    (body : list value) (l o : Z) (st : state) :
  (cls_of n =? "Module")%string = false ->
  lineno_of n = Some l -> col_offset_of n = Some o ->
  lookup "body" (fields_of n) = Some (VList body) ->
  inject_print_collector n position st =
  if print_used (print_info st) || printed_used (print_info st)
  then Ok (setattr n "body"
             (VList (list_insert position
                       (VNode (located l o print_collector)) body)))
          (add_warnings st (print_warnings n (print_info st)))
  else Ok n st.
Proof.
  intros Hc Hl Ho Hb. unfold inject_print_collector.
  unfold bind at 1. cbn [get].
  destruct (print_used (print_info st) || printed_used (print_info st));
    [|reflexivity].
  rewrite Hc.
  assert (Hcopy : forall s, copy_locations print_collector n s
                            = Ok (located l o print_collector) s)
    by (intros s; now apply copy_locations_eq).
  fold print_collector.
  rewrite (bind_eq _ _ _ _ _ (Hcopy st)). run.
  unfold print_warnings.
  assert (Hd : forall info x,
            diagnostic (setattr n "body" x) info = diagnostic n info)
    by (intros; destruct n; reflexivity).
  destruct (printed_used (print_info st)); cbn [negb];
    [destruct (print_used (print_info st)); cbn [negb]|].
  - run. now rewrite add_warnings_nil.
  - unfold bind at 1. cbn [warn modify ret]. rewrite Hd. reflexivity.
  - unfold bind at 1. cbn [warn modify ret]. rewrite Hd. reflexivity.
Qed.

(** X27.  From 3.0 on, a function definition whose body used [print] or
    [printed] gets the statement [_print = _print_(_getattr_)] as the
    first statement of its body, at the position of the definition;
    using only one of the two draws a warning.  The body is visited with
    fresh print bookkeeping, and the bookkeeping of the enclosing scope
    is put back at the end. *)
Theorem visit_FunctionDef_injects_print_collector
    (n n' : node) (name : value) (body : list value) (l o : Z)
    (st s1 s2 : state) :
  IS_PY3 = true ->
  cls_of n = "FunctionDef" ->
  lineno_of n = Some l -> col_offset_of n = Some o ->
  lookup "name" (fields_of n) = Some name ->
  (check_name n name ;; check_function_argument_names n) st = Ok tt s1 ->
  node_contents_visit visit n (set_print_info s1 (mkPrintInfo false false))
  = Ok n' s2 ->
  lookup "body" (fields_of n') = Some (VList body) ->
  visit n st =
  if print_used (print_info s2) || printed_used (print_info s2)
  then Ok (VNode
             (setattr n' "body"
                (VList (VNode (located l o print_collector) :: body))))
          (set_print_info
             (add_warnings s2 (print_warnings n' (print_info s2)))
             (print_info s1))
  else Ok (VNode n') (set_print_info s2 (print_info s1)).
Proof.
  intros Hpy Hc Hl Ho Hname Hchecks Hn Hb.
  rewrite (visit_method n "FunctionDef" visit_FunctionDef Hc eq_refl).
  unfold visit_FunctionDef. run.
  apply bind_Ok in Hchecks as ([] & s0 & Hcheck & Hargs).
  run.
  pose proof (node_contents_visit_Ok _ _ _ _ _ Hn) as (Hc' & Hl' & Ho' & _).
  rewrite Hc in Hc'. rewrite Hl in Hl'. rewrite Ho in Ho'.
  assert (Hinner :
            (n0 <- node_contents_visit visit n ;; inject_print_collector n0 0)
              (set_print_info s1 (mkPrintInfo false false))
            = inject_print_collector n' 0 s2)
    by (now rewrite (bind_eq _ _ _ _ _ Hn)).
  rewrite (inject_print_collector_inner n' 0 body l o s2) in Hinner;
    [ | now rewrite Hc' | assumption | assumption | assumption ].
  destruct (print_used (print_info s2) || printed_used (print_info s2)).
  - rewrite (bind_eq _ _ _ _ _ (new_print_scope_eq _ _ _ _ Hinner)).
    rewrite Hpy. reflexivity.
  - rewrite (bind_eq _ _ _ _ _ (new_print_scope_eq _ _ _ _ Hinner)).
    rewrite Hpy. reflexivity.
Qed.
End FunctionScope.

(** The function [def f(): print(1)] of 3.6. *)
Lemma visit_FunctionDef_injects_print_collector_witness :
  let arguments_ :=
    VNode (Node "arguments" None None
             [("args", VList []); ("vararg", VNone);
              ("kwonlyargs", VList []); ("kw_defaults", VList []);
              ("kwarg", VNone); ("defaults", VList [])]) in
  let def body :=
    Node "FunctionDef" (Some 1) (Some 0)
      [("name", VStr "f"); ("args", arguments_); ("body", VList body);
       ("decorator_list", VList []); ("returns", VNone)] in
  let call func :=
    VNode (parsed.Expr 2 4
             (Node "Call" (Some 2) (Some 4)
                [("func", VNode func);
                 ("args", VList [VNode (parsed.Num 2 10 1)]);
                 ("keywords", VList [])])) in
  let printer :=
    parsed.Attribute 2 4 (parsed.Name 2 4 "_print" "Load") "_call_print"
      "Load" in
  @visit python36 (def [call (parsed.Name 2 4 "print" "Load")]) init =
  Ok (VNode (def [VNode (@located python36 1 0 print_collector);
                  call printer]))
     (mkState [] ["Line 1: Prints, but never reads 'printed' variable."] []
        0 (mkPrintInfo false false)).
Proof.
  intros arguments_ def call printer.
  exact (@visit_FunctionDef_injects_print_collector python36
           (def [call (parsed.Name 2 4 "print" "Load")])
           (def [call printer]) (VStr "f") [call printer] 1 0
           init init (mkState [] [] [] 0 (mkPrintInfo true false))
           eq_refl eq_refl eq_refl eq_refl eq_refl eq_refl eq_refl eq_refl).
Defined.

(** * Calls before 3.5 *)

Section OldCalls.
Context `{Compat}.

(** X28.  Before 3.5 a call holds [*args] and [**kwargs] in fields of
    their own, [starargs] and [kwargs]; a call in which one of them is
    set is made through [_apply_], as from 3.5 on: the function becomes
    the first argument and [_apply_] takes its place, at its position.
    The two fields stay as the visit of the children left them. *)
Theorem visit_Call_applies_starargs_and_kwargs
    (n n' func' : node) (func starargs kwargs : value)
    (args' : list value) (l o : Z) (st st' : state) :
  IS_PY35_OR_GREATER = false ->
  cls_of n = "Call" ->
  lookup "func" (fields_of n) = Some func ->
  (forall f, func = VNode f -> cls_of f = "Name" ->
             exists id, lookup "id" (fields_of f) = Some id) ->
  lookup "starargs" (fields_of n) = Some starargs ->
  lookup "kwargs" (fields_of n) = Some kwargs ->
  node_contents_visit visit n (add_errors st (call_name_errors n func))
    = Ok n' st' ->
  lookup "args" (fields_of n') = Some (VList args') ->
  lookup "func" (fields_of n') = Some (VNode func') ->
  lineno_of func' = Some l -> col_offset_of func' = Some o ->
  visit n st =
  Ok (VNode
        (if negb (is_none starargs) || negb (is_none kwargs)
         then setattr (setattr n' "args" (VList (VNode func' :: args')))
                "func"
                (VNode (located l o (ast.Name (VStr "_apply_") ast.Load)))
         else n')) st'.
Proof.
  intros Hpy Hc Hf Hid Hs Hk Hn Ha' Hf' Hl Ho.
  rewrite (visit_Call_name_check n func st Hc Hf Hid). rewrite Hpy.
  run. destruct (is_none starargs); cbn [negb orb]; run.
  - destruct (is_none kwargs); cbn [negb]; run; reflexivity.
  - cbn [negb]. run. reflexivity.
Qed.
End OldCalls.

(** [f( *a )] of 2.7 *)
Lemma visit_Call_applies_starargs_and_kwargs_witness :
  let f := parsed.Name 1 0 "f" "Load" in
  let a := parsed.Name 1 3 "a" "Load" in
  let n :=
    Node "Call" (Some 1) (Some 0)
      [("func", VNode f); ("args", VList []); ("keywords", VList []);
       ("starargs", VNode a); ("kwargs", VNone)] in
  @visit python27 n init =
  Ok (VNode
        (Node "Call" (Some 1) (Some 0)
           [("func",
             VNode (@located python27 1 0
                      (ast.Name (VStr "_apply_") ast.Load)));
            ("args", VList [VNode f]); ("keywords", VList []);
            ("starargs", VNode a); ("kwargs", VNone)]))
     (mkState [] [] [Some "f"; Some "a"] 0 (mkPrintInfo false false)).
Proof.
  intros f a n.
  refine (@visit_Call_applies_starargs_and_kwargs python27 n
            (Node "Call" (Some 1) (Some 0)
               [("func", VNode f); ("args", VList []);
                ("keywords", VList []); ("starargs", VNode a);
                ("kwargs", VNone)])
            f (VNode f) (VNode a) VNone [] 1 0 init
            (mkState [] [] [Some "f"; Some "a"] 0 (mkPrintInfo false false))
            eq_refl eq_refl eq_refl _ eq_refl eq_refl eq_refl eq_refl
            eq_refl eq_refl eq_refl).
  intros g [= <-] _. exists (VStr "f"). reflexivity.
Defined.

(** * Tuples bound by a with statement *)

Lemma lookup_assign_same (f : string) (v : value) (fs : list (string * value)) :
  lookup f (assign f v fs) = Some v.
Proof.
  induction fs as [|[g w] fs IH]; simpl.
  - now rewrite String.eqb_refl.
  - destruct (g =? f)%string eqn:E; simpl; rewrite E; [reflexivity | exact IH].
Qed.

Lemma lookup_assign_other (f g : string) (v : value)
    (fs : list (string * value)) :
  (f =? g)%string = false -> lookup g (assign f v fs) = lookup g fs.
Proof.
  intros Hfg. induction fs as [|[h w] fs IH]; simpl.
  - now rewrite Hfg.
  - destruct (h =? f)%string eqn:E; simpl.
    + apply String.eqb_eq in E. subst h. now rewrite Hfg.
    + destruct (h =? g)%string; [reflexivity | exact IH].
Qed.

Lemma lookup_setattr_same (n : node) (f : string) (v : value) :
  lookup f (fields_of (setattr n f v)) = Some v.
Proof. destruct n. apply lookup_assign_same. Qed.

Lemma lookup_setattr_other (n : node) (f g : string) (v : value) :
  (f =? g)%string = false ->
  lookup g (fields_of (setattr n f v)) = lookup g (fields_of n).
Proof. destruct n. apply lookup_assign_other. Qed.

Lemma assign_same (f : string) (v : value) (fs : list (string * value)) :
  lookup f fs = Some v -> assign f v fs = fs.
Proof.
  induction fs as [|[g w] fs IH]; simpl; [discriminate|].
  destruct (g =? f)%string; [now intros [= ->] | intros Hl; now rewrite IH].
Qed.

Lemma assign_assign (f : string) (v w : value) (fs : list (string * value)) :
  assign f w (assign f v fs) = assign f w fs.
Proof.
  induction fs as [|[g x] fs IH]; simpl.
  - now rewrite String.eqb_refl.
  - destruct (g =? f)%string eqn:E; simpl; rewrite E; [reflexivity|].
    now rewrite IH.
Qed.

Lemma setattr_same (n : node) (f : string) (v : value) :
  lookup f (fields_of n) = Some v -> setattr n f v = n.
Proof. destruct n. simpl. intros Hl. now rewrite assign_same. Qed.

Lemma setattr_setattr (n : node) (f : string) (v w : value) :
  setattr (setattr n f v) f w = setattr n f w.
Proof. destruct n. simpl. now rewrite assign_assign. Qed.

Section WithItems.
Context `{Compat}.

Lemma unpack_children_pure (gen : node -> M node) (m : Z)
    (elts : list value) :
  Forall (fun x => match x with
                   | VNode t => forall st spec st',
                       gen t st = Ok spec st' ->
                       st' = st /\ forall s, gen t s = Ok spec s
                   | _ => True
                   end) elts ->
  forall idx offset st childs st',
    unpack_children gen m elts idx offset st = Ok childs st' ->
    st' = st
    /\ forall s, unpack_children gen m elts idx offset s = Ok childs s.
Proof.
  induction 1 as [|val rest Hval _ IH]; intros idx offset st childs st' Hu.
  - simpl in Hu. injection Hu as <- <-. split; [reflexivity|]. reflexivity.
  - simpl in Hu |- *. destruct (is_starred val); [now apply IH|].
    destruct val as [| | | |t|]; try now apply IH.
    destruct (cls_of t =? "Tuple")%string; [|now apply IH].
    apply bind_Ok in Hu as (sub & s1 & Hsub & Hu).
    apply bind_Ok in Hu as (els & s2 & Hels & Hu).
    injection Hu as <- <-.
    destruct (Hval _ _ _ Hsub) as [-> Hsub'].
    destruct (IH _ _ _ _ _ Hels) as [-> Hels'].
    split; [reflexivity|]. intros s.
    rewrite (bind_eq _ _ _ _ _ (Hsub' s)).
    rewrite (bind_eq _ _ _ _ _ (Hels' s)). reflexivity.
Qed.

Lemma gen_unpack_spec_pure (tpl : node) :
  forall st spec st',
    gen_unpack_spec tpl st = Ok spec st' ->
    st' = st /\ forall s, gen_unpack_spec tpl s = Ok spec s.
Proof.
  induction tpl as [c l o fs IH] using node_children_ind.
  intros st spec st' Hg. rewrite gen_unpack_spec_unfold in Hg.
  change (fields_of (Node c l o fs)) with fs in Hg.
  destruct (lookup "elts" fs) as [[| | | | |elts]|] eqn:Hl;
    try discriminate Hg.
  pose proof (lookup_Forall (on_children _) fs "elts" _ IH Hl) as IHelts.
  simpl in IHelts.
  apply bind_Ok in Hg as (childs & s1 & Hc & Hg). injection Hg as <- <-.
  destruct (unpack_children_pure _ _ _ IHelts _ _ _ _ _ Hc) as [-> Hc'].
  split; [reflexivity|]. intros s.
  rewrite gen_unpack_spec_unfold. change (fields_of (Node c l o fs)) with fs.
  rewrite Hl. rewrite (bind_eq _ _ _ _ _ (Hc' s)). reflexivity.
Qed.

Lemma copy_locations_Ok_located (new old r : node) (l o : Z)
    (st st' : state) :
  lineno_of old = Some l -> col_offset_of old = Some o ->
  copy_locations new old st = Ok r st' -> r = located l o new /\ st' = st.
Proof.
  intros Hl Ho. unfold copy_locations. rewrite Hl, Ho.
  destruct (negb (has_location (cls_of new))); [discriminate|].
  intros [= <- <-]. auto.
Qed.

Lemma gen_unpack_wrapper_store (n tpl : node) (l o : Z) (st : state)
    (tmp_target cleanup : node) (st' : state) :
  lineno_of n = Some l -> col_offset_of n = Some o ->
  gen_unpack_wrapper n (VNode tpl) "store" st
  = Ok (tmp_target, cleanup) st' ->
  exists spec,
    (forall s, gen_unpack_spec tpl s = Ok spec s)
    /\ tmp_target
       = located l o (ast.Name (VStr ("_tmp" ++ str_of_Z (_tmp_idx st)))
                        ast.Store)
    /\ cleanup
       = located l o
           (unpack_statement (VNode tpl) spec
              ("_tmp" ++ str_of_Z (_tmp_idx st)))
    /\ _tmp_idx st' = _tmp_idx st + 1.
Proof.
  intros Hl Ho. unfold gen_unpack_wrapper, gen_tmp_name, protect_unpack_sequence,
    gen_unpack_spec_of.
  intros Hg.
  apply bind_Ok in Hg as (tmp & s1 & Htmp & Hg).
  apply bind_Ok in Htmp as (s0 & s0' & Hget & Htmp).
  injection Hget as <- <-.
  apply bind_Ok in Htmp as ([] & s2 & Hmod & Htmp).
  injection Hmod as <-. injection Htmp as <- <-.
  apply bind_Ok in Hg as (converter & s3 & Hconv & Hg).
  apply bind_Ok in Hconv as (spec & s4 & Hspec & Hconv).
  injection Hconv as <- <-.
  cbn [as_node] in Hspec. rewrite bind_ret in Hspec.
  apply gen_unpack_spec_pure in Hspec as [-> Hspec].
  cbn [String.eqb Ascii.eqb Bool.eqb] in Hg. rewrite bind_ret in Hg.
  apply bind_Ok in Hg as (t & s5 & Ht & Hg).
  apply (copy_locations_Ok_located _ _ _ l o _ _ Hl Ho) in Ht as [-> ->].
  apply bind_Ok in Hg as (cl & s6 & Hcl & Hg).
  apply (copy_locations_Ok_located _ _ _ l o _ _ Hl Ho) in Hcl as [-> ->].
  injection Hg as <- <- <-.
  exists spec. split; [exact Hspec|]. split; [reflexivity|].
  split; [|reflexivity].
  unfold unpack_statement. destruct IS_PY2; reflexivity.
Qed.

Lemma with_items_guarded_last (l o k0 k k' : Z)
    (items items' unpacks : list value) (x x' : value) (u : list value) :
  with_items_guarded l o k items items' unpacks k' ->
  with_items_guarded l o k0 [x] [x'] u k ->
  with_items_guarded l o k0 (items ++ [x]) (items' ++ [x']) (unpacks ++ u) k'.
Proof.
  intros Hitems Hx. induction Hitems as [k|? ? ? ? ? ? ? IH ?|? ? ? ? ? ? ? ? ? IH ? ? ?];
    simpl.
  - exact Hx.
  - apply guarded_keep; [now apply IH | assumption].
  - apply guarded_unpack; [now apply IH | assumption..].
Qed.

Lemma lineno_of_setattr (n : node) (f : string) (v : value) :
  lineno_of (setattr n f v) = lineno_of n
  /\ col_offset_of (setattr n f v) = col_offset_of n.
Proof. destruct n. split; reflexivity. Qed.

Lemma protect_with_item_guarded (n : node) (item : value)
    (body : list value) (l o : Z) (st : state)
    (n' : node) (item' : value) (st' : state) :
  lineno_of n = Some l -> col_offset_of n = Some o ->
  protect_with_item n item st = Ok (n', item') st' ->
  lookup "body" (fields_of n) = Some (VList body) ->
  exists u,
    with_items_guarded l o (_tmp_idx st) [item] [item'] u (_tmp_idx st')
    /\ n' = setattr n "body" (VList (u ++ body)).
Proof.
  intros Hl Ho. unfold protect_with_item. intros Hp Hb.
  apply bind_Ok in Hp as (target & s1 & Ht & Hp).
  apply getattr_of_Ok in Ht as (i & -> & Ht & ->).
  destruct (isinstance target "Tuple") eqn:Htuple.
  - destruct target as [| | | |tpl|]; try discriminate Htuple.
    apply bind_Ok in Hp as ([tmp_target cleanup] & s2 & Hw & Hp).
    destruct (gen_unpack_wrapper_store _ _ l o _ _ _ _ Hl Ho Hw)
      as (spec & Hspec & -> & -> & Hidx).
    cbn [as_node] in Hp. rewrite bind_ret in Hp.
    rewrite (bind_eq _ _ _ _ _ (getattr_eq n "body" _ _ Hb)) in Hp.
    cbn [as_list_for] in Hp. rewrite bind_ret in Hp.
    injection Hp as <- <- <-.
    exists [VNode (located l o
                     (unpack_statement (VNode tpl) spec
                        ("_tmp" ++ str_of_Z (_tmp_idx st))))].
    split; [|reflexivity].
    rewrite Hidx. apply guarded_unpack;
      [constructor | exact Ht | | exact Hspec].
    simpl in Htuple. now apply String.eqb_eq.
  - injection Hp as <- <- <-. exists [].
    split; [|symmetry; now apply setattr_same].
    apply guarded_keep; [constructor|]. simpl. now rewrite Ht.
Qed.

Lemma protect_with_items (l o : Z) (items : list value) :
  forall (n0 : node) (done0 body0 : list value) (st : state)
         (n1 : node) (done1 : list value) (st1 : state),
    lineno_of n0 = Some l -> col_offset_of n0 = Some o ->
    foldM (fun (acc : node * list value) item =>
             let (n, done) := acc in
             q <- protect_with_item n item ;;
             let (n, item) := q in
             ret (n, item :: done)) (n0, done0) items st = Ok (n1, done1) st1 ->
    lookup "body" (fields_of n0) = Some (VList body0) ->
    exists new unpacks,
      with_items_guarded l o (_tmp_idx st) (rev items) new unpacks
        (_tmp_idx st1)
      /\ done1 = (new ++ done0)%list
      /\ n1 = setattr n0 "body" (VList (unpacks ++ body0)).
Proof.
  induction items as [|x items IH];
    intros n0 done0 body0 st n1 done1 st1 Hl Ho Hf Hb.
  - simpl in Hf. injection Hf as <- <- <-.
    exists [], []. split; [constructor|].
    split; [reflexivity | symmetry; now apply setattr_same].
  - simpl in Hf. apply bind_Ok in Hf as ([n' d'] & s & Hx & Hf).
    apply bind_Ok in Hx as ([n2 item'] & s2 & Hp & Hx).
    apply ret_Ok in Hx as [Hx ->]. injection Hx as -> ->.
    destruct (protect_with_item_guarded _ _ _ l o _ _ _ _ Hl Ho Hp Hb)
      as (u & Hone & ->).
    destruct (lineno_of_setattr n0 "body" (VList (u ++ body0))) as [Hl' Ho'].
    rewrite Hl in Hl'. rewrite Ho in Ho'.
    destruct (IH _ _ _ _ _ _ _ Hl' Ho' Hf (lookup_setattr_same _ _ _))
      as (new & us & Hrest & -> & ->).
    exists (new ++ [item'])%list, (us ++ u)%list.
    split; [|split].
    + simpl. eapply with_items_guarded_last; eassumption.
    + now rewrite <- app_assoc.
    + now rewrite setattr_setattr, <- app_assoc.
Qed.

Lemma with_items_guarded_unbound (l o k k' : Z)
    (items items' unpacks : list value) :
  with_items_guarded l o k items items' unpacks k' ->
  existsb binds_tuple items' = false
  /\ length items' = length items
  /\ length unpacks = length (filter binds_tuple items)
  /\ k' = k + Z.of_nat (length unpacks).
Proof.
  induction 1 as [k|k k' item rest rest' us _ (IH1 & IH2 & IH3 & IH4) Hno
                 |k k' i tpl spec rest rest' us _ (IH1 & IH2 & IH3 & IH4)
                    Hov Hc Hspec].
  - repeat split. simpl. lia.
  - cbn [existsb filter length]. rewrite Hno, IH1, IH2.
    repeat split; assumption.
  - cbn [existsb filter length binds_tuple].
    rewrite lookup_setattr_same, Hov. cbn [isinstance].
    assert (Hname : cls_of (located l o
                      (ast.Name (VStr ("_tmp" ++ str_of_Z k')) ast.Store))
                    = "Name") by reflexivity.
    rewrite Hname, Hc. cbn [String.eqb Ascii.eqb Bool.eqb orb length].
    rewrite IH1, IH2, IH3. repeat split. lia.
Qed.

(** X29.  From 3.0 on, the visit of a [with] statement guards every item
    that binds a tuple.  Going from the last item to the first, an item
    [cm as (a, b)] is made [cm as _tmpK], with the next free temporary
    name, and the statement [try: (a, b) = _unpack_sequence_(_tmpK, spec,
    _getiter_)], [finally: del _tmpK] - where [spec] is the unpack spec
    of the tuple - is put at the front of the body, at the position of
    the [with] statement; the other items stay as visited.  So no item
    binds a tuple afterwards, the statement keeps the number of its
    items, and the body has one new statement for each guarded item, in
    the order of the items. *)
Theorem visit_With_leaves_no_tuple_binding
    (n n' : node) (items body : list value) (l o : Z) (st st' : state)
    (out : value) (st'' : state) :
  IS_PY2 = false ->
  cls_of n = "With" ->
  lineno_of n = Some l -> col_offset_of n = Some o ->
  node_contents_visit visit n st = Ok n' st' ->
  lookup "items" (fields_of n') = Some (VList items) ->
  lookup "body" (fields_of n') = Some (VList body) ->
  visit n st = Ok out st'' ->
  exists items_r unpacks,
    out = VNode (setattr (setattr n' "body" (VList (unpacks ++ body)))
                   "items" (VList items_r))
    /\ with_items_guarded l o (_tmp_idx st') items items_r unpacks
         (_tmp_idx st'')
    /\ existsb binds_tuple items_r = false
    /\ length items_r = length items
    /\ length unpacks = length (filter binds_tuple items).
Proof.
  intros Hpy Hc Hl Ho Hn Hi Hb Hv.
  rewrite (visit_method n "With" visit_With Hc eq_refl) in Hv.
  unfold visit_With in Hv. rewrite (bind_eq _ _ _ _ _ Hn), Hpy in Hv.
  rewrite (bind_eq _ _ _ _ _ (getattr_eq n' "items" _ _ Hi)) in Hv.
  change (as_list (VList items)) with (@ret (list value) items) in Hv.
  unfold bind at 1 in Hv. cbn [ret] in Hv.
  apply bind_Ok in Hv as ([n1 done1] & s1 & Hstep & Hv).
  apply ret_Ok in Hv as [-> ->].
  pose proof (node_contents_visit_Ok _ _ _ _ _ Hn) as (_ & Hl' & Ho' & _).
  rewrite Hl in Hl'. rewrite Ho in Ho'.
  destruct (protect_with_items l o _ _ _ _ _ _ _ _ Hl' Ho' Hstep Hb)
    as (new & us & Hg & -> & ->).
  rewrite rev_involutive in Hg. rewrite app_nil_r.
  exists new, us. split; [reflexivity|]. split; [exact Hg|].
  destruct (with_items_guarded_unbound _ _ _ _ _ _ _ Hg)
    as (H1 & H2 & H3 & _).
  auto.
Qed.
End WithItems.

(** [with cm as (a, b): pass] of 3.6: the item binds [_tmp0], and the
    statement that unpacks [_tmp0] is put before [pass]. *)
Lemma visit_With_leaves_no_tuple_binding_witness :
  let target :=
    parsed.Tuple 1 12
      [VNode (parsed.Name 1 12 "a" "Store");
       VNode (parsed.Name 1 15 "b" "Store")] "Store" in
  let item :=
    VNode (Node "withitem" None None
             [("context_expr", VNode (parsed.Name 1 5 "cm" "Load"));
              ("optional_vars", VNode target)]) in
  let pass := VNode (Node "Pass" (Some 1) (Some 19) []) in
  let n :=
    Node "With" (Some 1) (Some 0)
      [("items", VList [item]); ("body", VList [pass])] in
  let out :=
    match @visit python36 n init with Ok v _ => v | Raise _ _ => VNone end in
  exists items_r unpacks,
    out = VNode (setattr (setattr n "body" (VList (unpacks ++ [pass])))
                   "items" (VList items_r))
    /\ @with_items_guarded python36 1 0 0 [item] items_r unpacks 1
    /\ existsb binds_tuple items_r = false
    /\ length items_r = 1%nat
    /\ length unpacks = 1%nat.
Proof.
  intros target item pass n out.
  exact (@visit_With_leaves_no_tuple_binding python36 n n [item] [pass] 1 0
           init (mkState [] [] [Some "cm"] 0 (mkPrintInfo false false))
           out (state_of (@visit python36 n init))
           eq_refl eq_refl eq_refl eq_refl eq_refl eq_refl eq_refl eq_refl).
Defined.

(** The result for that statement, node by node. *)
Example with_statement_unpacks_tuple :
  let target :=
    parsed.Tuple 1 12
      [VNode (parsed.Name 1 12 "a" "Store");
       VNode (parsed.Name 1 15 "b" "Store")] "Store" in
  let item (bound : node) :=
    VNode (Node "withitem" None None
             [("context_expr", VNode (parsed.Name 1 5 "cm" "Load"));
              ("optional_vars", VNode bound)]) in
  let pass := VNode (Node "Pass" (Some 1) (Some 19) []) in
  let stmt (items body : list value) :=
    Node "With" (Some 1) (Some 0)
      [("items", VList items); ("body", VList body)] in
  let at_with (c : string) (fs : list (string * value)) :=
    VNode (Node c (Some 1) (Some 0) fs) in
  let name (id ctx_ : string) := VNode (parsed.Name 1 0 id ctx_) in
  let str (s : string) := at_with "Str" [("s", VStr s)] in
  let spec :=
    at_with "Dict"
      [("keys", VList [str "childs"; str "min_len"]);
       ("values",
        VList [at_with "Tuple" [("elts", VList []);
                                ("ctx", parsed.ctx "Load")];
               at_with "Num" [("n", VInt 2)]])] in
  let unpack :=
    at_with "Assign"
      [("targets", VList [VNode target]);
       ("value",
        at_with "Call"
          [("func", name "_unpack_sequence_" "Load");
           ("args", VList [name "_tmp0" "Load"; spec;
                           name "_getiter_" "Load"]);
           ("keywords", VList [])])] in
  let cleanup :=
    at_with "Delete" [("targets", VList [name "_tmp0" "Del"])] in
  @visit python36 (stmt [item target] [pass]) init =
  Ok (VNode
        (stmt [item (parsed.Name 1 0 "_tmp0" "Store")]
           [at_with "Try"
              [("body", VList [unpack]); ("handlers", VList []);
               ("orelse", VList []); ("finalbody", VList [cleanup])];
            pass]))
     (mkState [] [] [Some "cm"] 1 (mkPrintInfo false false)).
Proof. reflexivity. Qed.
